(** * EduSync day planner: a shallow embedding of [SuperAI.cpp]

    The planner core of EduSync ([freeWindows], [slotScore],
    [scheduleTasksIntoWindows], [scheduleHabits], [planDay]) is embedded
    as Rocq functions and the properties the specification states about it
    are proved or refuted on that embedding.

    Modelling conventions.
    - A [QDateTime] is the number of milliseconds since 00:00 of day 0 in
      local time (Qt keeps millisecond precision); daylight-saving jumps are
      not modelled.  A [QDate] is a day number.  Only valid date-times occur
      in events and slots; the optional [deadline] of a task is an [option].
    - C++ [int] values are integers of [Z]; signed overflow is undefined
      behaviour in C++ and lies outside the model.  The one narrowing
      conversion of the code, [int(qint64)] in [minutesBetween], is written
      out as a 32-bit wrap-around ([to_int]).
    - [double] values.  The score of [scheduleHabits] decides by
      comparison which window a habit gets, so it is computed as the program
      computes it, in IEEE 754 binary64 (Rocq's primitive floats, with the
      literals rounded to the nearest binary64 value as a C++ compiler
      rounds them).  The score of [slotScore] is computed in exact rational
      arithmetic ([Q]), without the rounding of binary64: what is proved
      about the carving loop holds for whichever usable slot its scan
      picks.
    - [QDateTime::currentDateTime()] is an effect: every call reads a clock.
      The clock is an oracle [clock : nat -> QDateTime] giving the value of
      the n-th reading, and the functions that read it thread the number of
      readings made so far.
    - [std::sort] is modelled by an insertion sort, one of the sorts the
      C++ standard allows: the standard leaves the order of equivalent
      elements open.  What is proved of [freeWindows] and [analyzeStress]
      does not depend on that order; of the task sort only the contract of
      [std::sort] is used (the result is a permutation in which no element
      comes before an earlier one), and statements about the task placed
      first are made for every such order.
    - The [while] loop of [carve] takes a fuel argument and returns [None]
      when the fuel runs out. *)

From Stdlib Require Import ZArith QArith Qminmax List String Bool Lia Lqa.
From Stdlib Require Import Permutation Sorted.
From Stdlib Require Import PrimFloat.
From Stdlib Require Uint63 SpecFloat FloatOps FloatAxioms.
Import ListNotations.
Open Scope Z_scope.
#[local] Set Warnings "-inexact-float".

(* ====================================================================== *)
(** * Dates and times (the part of QDate/QDateTime the planner uses)       *)
(* ====================================================================== *)

Definition QDate := Z.
Definition QDateTime := Z.

Definition msPerDay : Z := 86400000.

(** [QDateTime(day, QTime(h, m))] *)
Definition mkDateTime (day : QDate) (h m : Z) : QDateTime :=
  day * msPerDay + (h * 3600 + m * 60) * 1000.

(** [dt.date()] *)
Definition date (dt : QDateTime) : QDate := dt / msPerDay.

(** [dt.time().hour()] *)
Definition hour (dt : QDateTime) : Z := (dt mod msPerDay) / 3600000.

(** [s.secsTo(e)]: the millisecond difference divided by 1000, truncated
    towards zero as C++ integer division does. *)
Definition secsTo (s e : QDateTime) : Z := Z.quot (e - s) 1000.

(** [dt.addSecs(n)] *)
Definition addSecs (dt : QDateTime) (n : Z) : QDateTime := dt + n * 1000.

(** [int(x)] for a [qint64] x: reduction to the 32-bit two's complement range. *)
Definition to_int (x : Z) : Z := (x + 2 ^ 31) mod 2 ^ 32 - 2 ^ 31.

(** [SuperAI::minutesBetween] *)
Definition minutesBetween (s e : QDateTime) : Z :=
  Z.max 0 (to_int (Z.quot (secsTo s e) 60)).

(** [SuperAI::overlapMin] *)
Definition overlapMin (a1 a2 b1 b2 : QDateTime) : Z :=
  let st := Z.max a1 b1 in
  let en := Z.min a2 b2 in
  Z.max 0 (to_int (Z.quot (secsTo st en) 60)).

(* ====================================================================== *)
(** * Domain types                                                         *)
(* ====================================================================== *)

Definition QColor := string.

Definition kTaskBlue : QColor := "#2f6feb"%string.
Definition kHabitGreen : QColor := "#22c55e"%string.
Definition kBufferGray : QColor := "#9aa3ab"%string.

(** [class Event] (Event.h); the projections are its getters.  The series id
    and the numeric id keep their defaults in everything the planner builds
    and are left out. *)
Record Event := Build_Event {
  getTitle : string;
  getDescription : string;
  getStartTime : QDateTime;
  getEndTime : QDateTime;
  getColor : QColor
}.

(** [SuperAI::mkEvent] *)
Definition mkEvent (title : string) (s e : QDateTime) (c : QColor) : Event :=
  Build_Event title title s e c.

(** [struct SuperAI::Task] *)
Record Task := Build_Task {
  id : string;
  title : string;
  estimateMin : Z;
  priority : Z;
  deadline : option QDateTime;
  mustMorning : bool;
  mustAfternoon : bool;
  flexible : bool;
  splitOK : bool;
  maxChunkMin : Z;
  notes : string
}.

(** [struct SuperAI::Habit] *)
Record Habit := Build_Habit {
  h_title : string;
  targetMinPerDay : Z;
  anchor : string;
  h_priority : Z
}.

(** [struct SuperAI::Slot] *)
Record Slot := Build_Slot { start : QDateTime; end_ : QDateTime }.

(** The local structs [Seg] of [freeWindows] and [MSlot] of
    [scheduleTasksIntoWindows]: both are [{ QDateTime s, e; }]. *)
Record Seg := Build_Seg { seg_s : QDateTime; seg_e : QDateTime }.
Definition MSlot := Seg.

(** The planner object: its two default pools. *)
Record SuperAI := Build_SuperAI {
  m_tasks : list Task;
  m_habits : list Habit
}.

(* ====================================================================== *)
(** * std::sort                                                            *)
(* ====================================================================== *)

Section Sorting.
Context {A : Type} (less : A -> A -> bool).

Fixpoint insertBy (x : A) (l : list A) : list A :=
  match l with
  | [] => [x]
  | y :: l' => if less y x then y :: insertBy x l' else x :: l
  end.

Fixpoint sortBy (l : list A) : list A :=
  match l with
  | [] => []
  | x :: l' => insertBy x (sortBy l')
  end.
End Sorting.

(* ====================================================================== *)
(** * freeWindows                                                          *)
(* ====================================================================== *)

Definition dayStart (day : QDate) : QDateTime := mkDateTime day 6 0.
Definition dayEnd (day : QDate) : QDateTime := mkDateTime day 22 0.

(** First loop: clamp each busy event to the day window and collect. *)
Fixpoint clampSegs (day : QDate) (busy : list Event) : list Seg :=
  match busy with
  | [] => []
  | ev :: rest =>
      let s := getStartTime ev in
      let t := getEndTime ev in
      if (date s >? day) || (date t <? day) then clampSegs day rest
      else
        let clampedS := Z.max (dayStart day) s in
        let clampedE := Z.min (dayEnd day) t in
        if clampedS <? clampedE
        then Build_Seg clampedS clampedE :: clampSegs day rest
        else clampSegs day rest
  end.

(** The comparator of the sort: [a.s < b.s]. *)
Definition segLess (a b : Seg) : bool := seg_s a <? seg_s b.

(** Second loop: merge overlaps.  [back] is [merged.back()], the segments
    pushed before it are already final. *)
Fixpoint mergeFrom (back : Seg) (segs : list Seg) : list Seg :=
  match segs with
  | [] => [back]
  | s :: rest =>
      if seg_s s >? seg_e back
      then back :: mergeFrom s rest
      else mergeFrom (Build_Seg (seg_s back) (Z.max (seg_e back) (seg_e s))) rest
  end.

Definition mergeSegs (segs : list Seg) : list Seg :=
  match segs with
  | [] => []
  | s :: rest => mergeFrom s rest
  end.

(** Third loop and the tail test: invert [merged] to get the free windows. *)
Fixpoint invertSegs (minBlockMin : Z) (dEnd cur : QDateTime) (merged : list Seg)
  : list Slot :=
  match merged with
  | [] =>
      if (cur <? dEnd) && (minutesBetween cur dEnd >=? minBlockMin)
      then [Build_Slot cur dEnd] else []
  | m :: rest =>
      (if (cur <? seg_s m) && (minutesBetween cur (seg_s m) >=? minBlockMin)
       then [Build_Slot cur (seg_s m)] else [])
      ++ invertSegs minBlockMin dEnd (Z.max cur (seg_e m)) rest
  end.

(** The value of the local [merged] of [freeWindows]. *)
Definition mergedBusy (day : QDate) (busy : list Event) : list Seg :=
  mergeSegs (sortBy segLess (clampSegs day busy)).

(** [SuperAI::freeWindows] *)
Definition freeWindows (day : QDate) (busy : list Event) (minBlockMin : Z)
  : list Slot :=
  invertSegs minBlockMin (dayEnd day) (dayStart day) (mergedBusy day busy).

(* ====================================================================== *)
(** * Scores                                                               *)
(* ====================================================================== *)

(** [a > b] on scores *)
Definition Qgtb (a b : Q) : bool := negb (Qle_bool a b).

(** [std::clamp(v, lo, hi)] *)
Definition clampQ (v lo hi : Q) : Q :=
  if Qgtb lo v then lo else if Qgtb v hi then hi else v.

(** The sentinel [-1e9]. *)
Definition unusable : Q := (-1e9)%Q.

Definition isEmpty {A : Type} (l : list A) : bool :=
  match l with [] => true | _ :: _ => false end.

(** [QVector::removeAt] and assignment to [pool[i]] *)
Fixpoint removeAt {A : Type} (i : nat) (l : list A) : list A :=
  match l, i with
  | [], _ => []
  | _ :: r, O => r
  | x :: r, S i' => x :: removeAt i' r
  end.

Fixpoint setAt {A : Type} (i : nat) (x : A) (l : list A) : list A :=
  match l, i with
  | [], _ => []
  | _ :: r, O => x :: r
  | y :: r, S i' => y :: setAt i' x r
  end.

Section Planner.

(** The n-th reading of the system clock. *)
Variable clock : nat -> QDateTime.

(** [QDateTime::currentDateTime()]: one more reading. *)
Definition currentDateTime (n : nat) : QDateTime * nat := (clock n, S n).

(** [SuperAI::slotScore] *)
Definition slotScore (window : Slot) (t : Task) (n : nat) : Q * nat :=
  let durMin := minutesBetween (start window) (end_ window) in
  if durMin <? 15 then (unusable, n)
  else
    let h := hour (start window) in
    let circ := 0.0%Q in
    let circ :=
      if mustMorning t
      then (circ + (if (h >=? 7) && (h <=? 12) then 1.0 else -0.3))%Q
      else circ in
    let circ :=
      if mustAfternoon t
      then (circ + (if (h >=? 13) && (h <=? 17) then 1.0 else -0.3))%Q
      else circ in
    let '(urgency, n1) :=
      match deadline t with
      | Some d =>
          let '(now, n1) := currentDateTime n in
          let minsLeft := to_int (Z.quot (secsTo now d) 60) in
          (clampQ (1.0 - inject_Z minsLeft / (60.0 * 24 * 7.0)) 0.0 1.0, n1)%Q
      | None => (0.0%Q, n)
      end in
    let '(now, n2) := currentDateTime n1 in
    let early :=
      (1.0 / Qmax 1.0 (inject_Z (secsTo now (start window)) / 3600.0))%Q in
    let length := Qmin 1.0 (inject_Z durMin / 120.0)%Q in
    let pr := (inject_Z (priority t - 1) / 4.0)%Q in
    ((1.8 * pr + 1.4 * urgency + 0.8 * circ + 0.5 * length + 0.2 * early)%Q, n2).

(** The comparator of the task sort. *)
Definition taskLess (a b : Task) : bool :=
  if negb (priority a =? priority b) then priority a >? priority b
  else
    match deadline a, deadline b with
    | Some da, Some db => da <? db
    | Some _, None => true
    | None, Some _ => false
    | None, None => estimateMin a >? estimateMin b
    end.

(** The inner [for] loop of [carve]: scan the pool from index [i] on for
    the best slot; [None] is the initial [bestIdx = -1]. *)
Fixpoint chooseSlot (t : Task) (pool : list MSlot) (i : nat)
         (bestIdx : option nat) (bestScore : Q) (n : nat)
  : option nat * nat :=
  match pool with
  | [] => (bestIdx, n)
  | p :: rest =>
      let w := Build_Slot (seg_s p) (seg_e p) in
      if minutesBetween (start w) (end_ w) <? 15
      then chooseSlot t rest (S i) bestIdx bestScore n
      else
        let '(sc, n') := slotScore w t n in
        if Qgtb sc bestScore
        then chooseSlot t rest (S i) (Some i) sc n'
        else chooseSlot t rest (S i) bestIdx bestScore n'
  end.

(** The title of a task chunk: the blue marker, a space and the title of
    the task. *)
Definition taskTitle (t : Task) : string := ("🔵 " ++ title t)%string.

(** What [carve] hands back: its boolean result, the pool, the
    accumulated events and the number of clock readings. *)
Record CarveResult := Build_CarveResult {
  placedAll : bool;
  cr_pool : list MSlot;
  cr_acc : list Event;
  cr_clock : nat
}.

(** The lambda [carve] of [scheduleTasksIntoWindows]; [pool] is the
    captured working copy of the windows. *)
Fixpoint carve (fuel : nat) (needMin : Z) (t : Task) (pool : list MSlot)
         (acc : list Event) (n : nat) : option CarveResult :=
  if needMin >? 0 then
    match fuel with
    | O => None
    | S fuel' =>
        let '(bestIdx, n1) := chooseSlot t pool 0 None unusable n in
        match bestIdx with
        | None => Some (Build_CarveResult (needMin <=? 0) pool acc n1)
        | Some i =>
            let chosen := nth i pool (Build_Seg 0 0) in
            let availMin := minutesBetween (seg_s chosen) (seg_e chosen) in
            let chunk := Z.min (maxChunkMin t) (Z.min needMin availMin) in
            let s := seg_s chosen in
            let e := addSecs s (chunk * 60) in
            let pre := 5 in
            let post := 10 in
            let sBuf := addSecs s (- pre * 60) in
            let eBuf := addSecs e (post * 60) in
            let acc1 :=
              acc ++ [ mkEvent (taskTitle t) s e kTaskBlue;
                       mkEvent "Buffer" sBuf s kBufferGray;
                       mkEvent "Buffer" e eBuf kBufferGray ] in
            let chosen' := Build_Seg eBuf (seg_e chosen) in
            let pool1 := setAt i chosen' pool in
            let pool2 :=
              if seg_s chosen' >=? seg_e chosen' then removeAt i pool1
              else pool1 in
            let needMin' := needMin - chunk in
            if negb (splitOK t)
            then Some (Build_CarveResult (needMin' <=? 0) pool2 acc1 n1)
            else carve fuel' needMin' t pool2 acc1 n1
        end
    end
  else Some (Build_CarveResult (needMin <=? 0) pool acc n).

(** The loop "place each task". *)
Fixpoint placeTasks (fuel : nat) (tasks : list Task) (pool : list MSlot)
         (out : list Event) (n : nat) : option (list Event * nat) :=
  match tasks with
  | [] => Some (out, n)
  | t :: rest =>
      let need := Z.max 15 (estimateMin t) in
      match carve fuel need t pool out n with
      | None => None
      | Some r => placeTasks fuel rest (cr_pool r) (cr_acc r) (cr_clock r)
      end
  end.

Definition slotSeg (w : Slot) : MSlot := Build_Seg (start w) (end_ w).

(** [SuperAI::scheduleTasksIntoWindows] (the [day] argument is unused) *)
Definition scheduleTasksIntoWindows (fuel : nat) (windows : list Slot)
           (tasks : list Task) (n : nat) : option (list Event * nat) :=
  if isEmpty tasks || isEmpty windows then Some ([], n)
  else
    let tasks := sortBy taskLess tasks in
    let pool := map slotSeg windows in
    placeTasks fuel tasks pool [] n.

(** C++ [double]: IEEE 754 binary64. *)
Definition double := float.

(** The conversion of an [int] to [double]; it is exact. *)
Definition of_int (z : Z) : double :=
  if z <? 0 then (- of_uint63 (Uint63.of_Z (- z)))%float
  else of_uint63 (Uint63.of_Z z).

(** The initial [best = -1e9] of [scheduleHabits]. *)
Definition sentinel : double := (-1e9)%float.

(** The score [sc] the loop of [scheduleHabits] gives window [w], with the
    operations in the order the code performs them. *)
Definition habitScore (w : Slot) (h : Habit) : double :=
  let startH := hour (start w) in
  let sc :=
    (0.2 * (of_int (minutesBetween (start w) (end_ w)) / 60.0))%float in
  let sc :=
    if (anchor h =? "morning")%string
    then (sc + (if (startH <=? 11)%Z then 1.0 else -0.2))%float else sc in
  let sc :=
    if (anchor h =? "after-lunch")%string
    then (sc + (if ((startH >=? 12) && (startH <=? 15))%Z
                then 1.0 else -0.2))%float
    else sc in
  let sc :=
    if (anchor h =? "evening")%string
    then (sc + (if (startH >=? 17)%Z then 1.0 else -0.2))%float else sc in
  (sc + 0.5 * (of_int (h_priority h - 1) / 4.0))%float.

(** The inner [for] loop of [scheduleHabits]; [sc > best] is the comparison
    of binary64. *)
Fixpoint chooseWindow (h : Habit) (windows : list Slot) (i : nat)
         (bestIdx : option nat) (best : double) : option nat :=
  match windows with
  | [] => bestIdx
  | w :: rest =>
      let sc := habitScore w h in
      if (best <? sc)%float
      then chooseWindow h rest (S i) (Some i) sc
      else chooseWindow h rest (S i) bestIdx best
  end.

(** The title of a habit block: the green marker, a space and the title of
    the habit. *)
Definition habitTitle (h : Habit) : string := ("🟢 " ++ h_title h)%string.

(** [SuperAI::scheduleHabits] (the [day] argument is unused) *)
Fixpoint scheduleHabits (windows : list Slot) (habits : list Habit)
  : list Event :=
  match habits with
  | [] => []
  | h :: rest =>
      match chooseWindow h windows 0 None sentinel with
      | Some bestIdx =>
          let s := start (nth bestIdx windows (Build_Slot 0 0)) in
          let e := addSecs s (targetMinPerDay h * 60) in
          mkEvent (habitTitle h) s e kHabitGreen :: scheduleHabits windows rest
      | None => scheduleHabits windows rest
      end
  end.

(** [SuperAI::planDay]: the returned vector [all].  The three signals it
    emits carry a summary line and copies of [all]. *)
Definition planDay (self : SuperAI) (fuel : nat) (day : QDate)
           (existing : list Event) (tasks : list Task) (habits : list Habit)
           (n : nat) : option (list Event * nat) :=
  let freeSlots := freeWindows day existing 15 in
  match scheduleTasksIntoWindows fuel freeSlots
          (if isEmpty tasks then m_tasks self else tasks) n with
  | None => None
  | Some (plannedTasks, n') =>
      let busy := existing ++ plannedTasks in
      let freeAfterTasks := freeWindows day busy 15 in
      let plannedHabits :=
        scheduleHabits freeAfterTasks
          (if isEmpty habits then m_habits self else habits) in
      Some (plannedTasks ++ plannedHabits, n')
  end.

End Planner.


(* ====================================================================== *)
(** * Intervals, instants and overlap                                      *)
(* ====================================================================== *)

(** An instant lies in a half-open interval. *)
Definition inSeg (x : QDateTime) (g : Seg) : Prop := seg_s g <= x < seg_e g.
Definition inSlot (x : QDateTime) (w : Slot) : Prop := start w <= x < end_ w.
Definition inEvent (x : QDateTime) (ev : Event) : Prop :=
  getStartTime ev <= x < getEndTime ev.

(** Two half-open intervals overlap in time when their intersection, which
    runs from the later start to the earlier end (as in [overlapMin]), is
    not empty. *)
Definition overlaps (a1 a2 b1 b2 : QDateTime) : Prop :=
  Z.max a1 b1 < Z.min a2 b2.

Definition eventsOverlap (a b : Event) : Prop :=
  overlaps (getStartTime a) (getEndTime a) (getStartTime b) (getEndTime b).

Definition slotsOverlap (a b : Slot) : Prop :=
  overlaps (start a) (end_ a) (start b) (end_ b).

Definition slotOverlapsEvent (w : Slot) (ev : Event) : Prop :=
  overlaps (start w) (end_ w) (getStartTime ev) (getEndTime ev).

(** A list of segments that are non-empty, lie between [lo] and [hi], are in
    increasing order and are separated by non-empty gaps. *)
Fixpoint chain (lo hi : QDateTime) (l : list Seg) : Prop :=
  match l with
  | [] => True
  | g :: r =>
      lo <= seg_s g /\ seg_s g < seg_e g /\ seg_e g <= hi /\
      chain (seg_e g + 1) hi r
  end.

(** Segments in increasing order of start, none starting before [lo]. *)
Fixpoint ascFrom (lo : QDateTime) (l : list Seg) : Prop :=
  match l with
  | [] => True
  | g :: r => lo <= seg_s g /\ ascFrom (seg_s g) r
  end.

(** The length test of [freeWindows]. *)
Definition longEnough (minBlockMin : Z) (w : Slot) : bool :=
  minutesBetween (start w) (end_ w) >=? minBlockMin.

(** A window handed back to [freeWindows] as a busy event. *)
Definition slotEvent (w : Slot) : Event :=
  mkEvent "Free" (start w) (end_ w) kBufferGray.

(* ====================================================================== *)
(** * The stated properties of the interval merger, and sample inputs      *)
(* ====================================================================== *)

(** Merge correctness as the specification states it: the free windows do
    not overlap each other or any input busy interval, and together with
    the merged busy intervals they make up the day span exactly. *)
Definition mergeCorrect (day : QDate) (busy : list Event) (minBlockMin : Z)
  : Prop :=
  let free := freeWindows day busy minBlockMin in
  ForallOrdPairs (fun a b => ~ slotsOverlap a b) free /\
  (forall w ev, In w free -> In ev busy -> ~ slotOverlapsEvent w ev) /\
  (forall x, dayStart day <= x < dayEnd day <->
             Exists (inSlot x) free \/
             Exists (inSeg x) (mergedBusy day busy)).

(** Running the merger on its own output: the windows become the busy set. *)
Definition remerge (day : QDate) (minBlockMin : Z) (ws : list Slot)
  : list Slot :=
  freeWindows day (map slotEvent ws) minBlockMin.

(** A busy event on day 0 from [h1:m1] to [h2:m2]. *)
Definition busyEvent (h1 m1 h2 m2 : Z) : Event :=
  mkEvent "Busy" (mkDateTime 0 h1 m1) (mkDateTime 0 h2 m2) kBufferGray.

(* ====================================================================== *)
(** * The stated properties of scoring, ordering and habit placement       *)
(* ====================================================================== *)

(** ** The weighted sum of [slotScore], term by term as specified *)




Definition clamp01 (x : Q) : Q := Qmax 0 (Qmin 1 x).





(** ** The task order as specified: priority descending, then deadline
    ascending with tasks lacking a deadline last, then effort descending *)

Definition specBefore (a b : Task) : Prop :=
  priority a > priority b \/
  (priority a = priority b /\
   match deadline a, deadline b with
   | Some da, Some db => da < db \/ (da = db /\ estimateMin a > estimateMin b)
   | Some _, None => True
   | None, Some _ => False
   | None, None => estimateMin a > estimateMin b
   end).

(** ** Habit placement as specified *)

(** The block of habit [h] at window [w]: it starts with the window and
    lasts the target duration. *)
Definition habitBlock (h : Habit) (w : Slot) : Event :=
  mkEvent (habitTitle h) (start w)
          (start w + targetMinPerDay h * 60000) kHabitGreen.



(** The inputs the specification gives [scheduleHabits]: priorities 1 to 5
    and windows of the planner's day, which has 960 minutes. *)
Definition specPriority (h : Habit) : Prop := 1 <= h_priority h <= 5.
Definition dayWindow (w : Slot) : Prop :=
  minutesBetween (start w) (end_ w) <= 960.

(** The state of the scan of [chooseWindow] after the windows [seen]. *)
Definition scanInv (h : Habit) (seen : list Slot) (bestIdx : option nat)
           (best : double) : Prop :=
  (forall w', In w' seen -> (best <? habitScore w' h)%float = false) /\
  match bestIdx with
  | None => best = sentinel
  | Some k =>
      exists w, nth_error seen k = Some w /\ best = habitScore w h /\
                (sentinel <? best)%float = true /\
                forall j w', (j < k)%nat -> nth_error seen j = Some w' ->
                             (best <=? habitScore w' h)%float = false
  end.

(** The score of [scheduleHabits] as a function of what it depends on: the
    minutes of the window, the three anchor tests with their hour tests,
    and the priority. *)
Definition habitScoreOf (m : Z) (a1 b1 a2 b2 a3 b3 : bool) (p : Z) : double :=
  let sc := (0.2 * (of_int m / 60.0))%float in
  let sc := if a1 then (sc + (if b1 then 1.0 else -0.2))%float else sc in
  let sc := if a2 then (sc + (if b2 then 1.0 else -0.2))%float else sc in
  let sc := if a3 then (sc + (if b3 then 1.0 else -0.2))%float else sc in
  (sc + 0.5 * (of_int (p - 1) / 4.0))%float.

(** The integers from [n] down to 0. *)
Fixpoint downFrom (n : nat) : list Z :=
  match n with
  | O => [0]
  | S k => Z.of_nat (S k) :: downFrom k
  end.

(** Every score of a window of at most [n] minutes, for a priority from 1
    to 5, is above the sentinel: the check runs over all of them. *)
Definition scoresAboveSentinel (n : nat) : bool :=
  forallb (fun m =>
  forallb (fun p =>
  forallb (fun a1 => forallb (fun b1 =>
  forallb (fun a2 => forallb (fun b2 =>
  forallb (fun a3 => forallb (fun b3 =>
    (sentinel <? habitScoreOf m a1 b1 a2 b2 a3 b3 p)%float)
  [true; false]) [true; false]) [true; false]) [true; false])
  [true; false]) [true; false]) [1; 2; 3; 4; 5]) (downFrom n).

(** ** No overlap in the output, as specified *)

Definition noOverlap (out : list Event) : Prop :=
  ForallOrdPairs (fun a b => ~ eventsOverlap a b) out.

Definition isChunk (b : Event) : Prop := getColor b = kTaskBlue.

(** ** Sample inputs *)

(** A clock that stands still at 00:00 of day 0. *)
Definition midnight : nat -> QDateTime := fun _ => 0.

Definition noPools : SuperAI := Build_SuperAI [] [].

(** A task with the defaults of [struct Task] and no deadline. *)
Definition mkTask (name : string) (estimate maxChunk : Z) (split : bool)
  : Task :=
  Build_Task EmptyString name estimate 3 None false false true split maxChunk
             EmptyString.

(** The same with a deadline at 00:00 of day 1. *)
Definition dueTask (name : string) (estimate : Z) : Task :=
  Build_Task EmptyString name estimate 3 (Some (mkDateTime 1 0 0)) false false
             true true 120 EmptyString.

Definition wholeDay : Slot := Build_Slot (dayStart 0) (dayEnd 0).

(* ====================================================================== *)
(** * One iteration of [carve], named                                      *)
(* ====================================================================== *)

(** [chunk] of the iteration that has [needMin] left and chose [chosen]. *)
Definition chunkLen (t : Task) (needMin : Z) (chosen : MSlot) : Z :=
  Z.min (maxChunkMin t)
        (Z.min needMin (minutesBetween (seg_s chosen) (seg_e chosen))).

(** The task chunk of that iteration. *)
Definition chunkOf (t : Task) (needMin : Z) (chosen : MSlot) : Event :=
  mkEvent (taskTitle t) (seg_s chosen)
          (addSecs (seg_s chosen) (chunkLen t needMin chosen * 60)) kTaskBlue.

(** The 5-minute buffer that ends where block [b] starts, and the 10-minute
    buffer that starts where it ends. *)
Definition bufferBefore (b : Event) : Event :=
  mkEvent "Buffer" (addSecs (getStartTime b) (- 5 * 60)) (getStartTime b)
          kBufferGray.

Definition bufferAfter (b : Event) : Event :=
  mkEvent "Buffer" (getEndTime b) (addSecs (getEndTime b) (10 * 60))
          kBufferGray.

(** The three blocks the iteration appends. *)
Definition placed (t : Task) (needMin : Z) (chosen : MSlot) : list Event :=
  [ chunkOf t needMin chosen;
    bufferBefore (chunkOf t needMin chosen);
    bufferAfter (chunkOf t needMin chosen) ].

(** The pool after the iteration that chose slot number [i]. *)
Definition carved (t : Task) (needMin : Z) (i : nat) (pool : list MSlot)
  : list MSlot :=
  let chosen := nth i pool (Build_Seg 0 0) in
  let chosen' :=
    Build_Seg (getEndTime (bufferAfter (chunkOf t needMin chosen)))
              (seg_e chosen) in
  if seg_s chosen' >=? seg_e chosen'
  then removeAt i (setAt i chosen' pool)
  else setAt i chosen' pool.

(** Slot number [i] of the pool exists and has at least 15 minutes. *)
Definition usable (pool : list MSlot) (i : nat) : Prop :=
  exists p, nth_error pool i = Some p /\
            15 <= minutesBetween (seg_s p) (seg_e p).

(** The room left in the pool: one per slot plus its length in
    milliseconds. *)
Fixpoint poolRoom (pool : list MSlot) : nat :=
  match pool with
  | [] => O
  | p :: r => (S (Z.to_nat (seg_e p - seg_s p)) + poolRoom r)%nat
  end.

(* ====================================================================== *)
(** * What the carving loop keeps true                                     *)
(* ====================================================================== *)

(** Two blocks that are both task chunks do not overlap. *)
Definition chunksApart (a b : Event) : Prop :=
  isChunk a -> isChunk b -> ~ eventsOverlap a b.

(** The pool is a chain inside the windows it was made from, every chunk
    placed so far lies inside one of those windows and overlaps no slot of
    the pool, and the chunks placed so far are pairwise apart. *)
Definition carveInv (lo hi : QDateTime) (windows : list Slot)
           (pool : list MSlot) (acc : list Event) : Prop :=
  chain lo hi pool /\
  Forall (fun q => exists w, In w windows /\ start w <= seg_s q /\
                             seg_e q <= end_ w) pool /\
  (forall b, In b acc -> isChunk b ->
             (exists w, In w windows /\ start w <= getStartTime b /\
                        getEndTime b <= end_ w) /\
             forall q, In q pool ->
                       ~ overlaps (getStartTime b) (getEndTime b)
                                  (seg_s q) (seg_e q)) /\
  ForallOrdPairs chunksApart acc.

(** Two outcomes of [carve] agree: both ran out of fuel, or both returned
    the same boolean, pool and blocks. *)
Definition sameOutcome (r1 r2 : option CarveResult) : Prop :=
  match r1, r2 with
  | None, None => True
  | Some a, Some b =>
      placedAll a = placedAll b /\ cr_pool a = cr_pool b /\
      cr_acc a = cr_acc b
  | _, _ => False
  end.

(* ====================================================================== *)
(** * The rest of SuperAI.cpp and Event.h                                  *)
(* ====================================================================== *)

(** [Event::isOnDate] *)
Definition isOnDate (ev : Event) (d : QDate) : bool :=
  (date (getStartTime ev) <=? d) && (d <=? date (getEndTime ev)).

(** [dt.time()], as milliseconds since midnight. *)
Definition QTime := Z.
Definition time (dt : QDateTime) : QTime := dt mod msPerDay.

(** [QString::contains(needle)], case sensitive: some suffix of the string
    starts with the needle. *)
Fixpoint containsStr (needle s : string) : bool :=
  if String.prefix needle s then true
  else match s with
       | EmptyString => false
       | String _ rest => containsStr needle rest
       end.

(** [std::clamp(v, lo, hi)] on ints *)
Definition clampInt (v lo hi : Z) : Z :=
  if v <? lo then lo else if hi <? v then hi else v.

(** The sum of the whole minutes of a list of events. *)
Fixpoint totalMinutes (events : list Event) : Z :=
  match events with
  | [] => 0
  | e :: rest =>
      minutesBetween (getStartTime e) (getEndTime e) + totalMinutes rest
  end.

(** ** provideInsights: the three figures of its message *)

Record Insights := Build_Insights {
  deepWorkBlocks : Z;
  bufferMin : Z;
  longest : Z
}.

(** The loop of [provideInsights], from the current values of its three
    counters. *)
Fixpoint insightsLoop (events : list Event) (deep buf long : Z) : Insights :=
  match events with
  | [] => Build_Insights deep buf long
  | e :: rest =>
      let t := getTitle e in
      let m := minutesBetween (getStartTime e) (getEndTime e) in
      let deep := if String.prefix "🔵" t then deep + 1 else deep in
      let buf := if (t =? "Buffer")%string then buf + m else buf in
      let long := Z.max long m in
      insightsLoop rest deep buf long
  end.

(** [SuperAI::provideInsights]: the figures it puts into the text it
    emits. *)
Definition provideInsights (events : list Event) : Insights :=
  insightsLoop events 0 0 0.

(** ** analyzeStress: the three figures of its message *)

Record Stress := Build_Stress { density : Z; recovery : Z; risk : Z }.

(** The comparator of the sort of [analyzeStress]. *)
Definition eventLess (a b : Event) : bool :=
  getStartTime a <? getStartTime b.

(** The loop of [analyzeStress]; [lastEnd] is [None] while it is invalid. *)
Fixpoint stressLoop (events : list Event) (totalMin gaps : Z)
         (lastEnd : option QDateTime) : Z * Z :=
  match events with
  | [] => (totalMin, gaps)
  | e :: rest =>
      let totalMin :=
        totalMin + minutesBetween (getStartTime e) (getEndTime e) in
      let gaps :=
        match lastEnd with
        | Some l =>
            if l <? getStartTime e
            then gaps + minutesBetween l (getStartTime e) else gaps
        | None => gaps
        end in
      stressLoop rest totalMin gaps (Some (getEndTime e))
  end.

(** [SuperAI::analyzeStress]: the figures it puts into the text it emits. *)
Definition analyzeStress (events : list Event) : Stress :=
  let copy := sortBy eventLess events in
  let '(totalMin, gaps) := stressLoop copy 0 0 None in
  let density := Z.min 100 (Z.quot totalMin 6) in
  let recovery := Z.max 0 (Z.min 100 (Z.quot gaps 3)) in
  let risk := clampInt (density - Z.quot recovery 2) 0 100 in
  Build_Stress density recovery risk.

(** ** planDay: the figures of its summary line *)

(** The loop over [plannedTasks]: the minutes of the blocks whose title
    does not contain "Buffer". *)
Definition totalTaskMin (plannedTasks : list Event) : Z :=
  fold_left
    (fun total e =>
       if negb (containsStr "Buffer" (getTitle e))
       then total + minutesBetween (getStartTime e) (getEndTime e)
       else total)
    plannedTasks 0.

(** The same sum, block by block. *)
Fixpoint countedMin (blocks : list Event) : Z :=
  match blocks with
  | [] => 0
  | e :: rest =>
      (if negb (containsStr "Buffer" (getTitle e))
       then minutesBetween (getStartTime e) (getEndTime e) else 0)
      + countedMin rest
  end.

(** The clamped effort of a task pool: what [scheduleTasksIntoWindows]
    sets out to place. *)
Fixpoint totalEffort (tasks : list Task) : Z :=
  match tasks with
  | [] => 0
  | t :: rest => Z.max 15 (estimateMin t) + totalEffort rest
  end.

Section Analyses.

(** [title.contains(needle, Qt::CaseInsensitive)] and [title.toLower()]
    are Qt's; they follow Unicode case rules and are taken as given. *)
Variable containsNoCase : string -> string -> bool.
Variable toLower : string -> string.

(** *** analyzeSchedule: the six arguments of its message *)

Record ScheduleFigures := Build_ScheduleFigures {
  sf_blocks : Z;
  sf_hours : Z;
  sf_minutes : Z;
  sf_first : option QTime;
  sf_last : option QTime;
  sf_meetings : Z
}.

(** The loop of [analyzeSchedule]; [first] and [last] are [None] while
    they are invalid.  It returns [totalMin], [meetings], [first],
    [last]. *)
Fixpoint scheduleLoop (events : list Event) (totalMin meetings : Z)
         (first last : option QTime) : Z * Z * option QTime * option QTime :=
  match events with
  | [] => (totalMin, meetings, first, last)
  | e :: rest =>
      let m := minutesBetween (getStartTime e) (getEndTime e) in
      let totalMin := totalMin + m in
      let meetings :=
        if containsNoCase (getTitle e) "Meeting" then meetings + 1
        else meetings in
      let st := time (getStartTime e) in
      let en := time (getEndTime e) in
      let first :=
        match first with
        | Some f => if st <? f then Some st else first
        | None => Some st
        end in
      let last :=
        match last with
        | Some l => if en >? l then Some en else last
        | None => Some en
        end in
      scheduleLoop rest totalMin meetings first last
  end.

(** [SuperAI::analyzeSchedule]: the arguments of the text it emits. *)
Definition analyzeSchedule (events : list Event) : ScheduleFigures :=
  let '(totalMin, meetings, first, last) :=
    scheduleLoop events 0 0 None None in
  Build_ScheduleFigures (Z.of_nat (List.length events))
                        (Z.quot totalMin 60) (Z.rem totalMin 60)
                        first last meetings.

(** *** optimizeWorkLifeBalance: the three figures of its message *)

Record Balance := Build_Balance {
  score : Z;
  focusMin : Z;
  recoveryMin : Z
}.

(** The loop of [optimizeWorkLifeBalance]; it returns [focusMin] and
    [recoveryMin]. *)
Fixpoint balanceLoop (events : list Event) (focus recov : Z) : Z * Z :=
  match events with
  | [] => (focus, recov)
  | e :: rest =>
      let t := toLower (getTitle e) in
      let m := minutesBetween (getStartTime e) (getEndTime e) in
      if containsStr "buffer" t || containsStr "walk" t ||
         containsStr "break" t || containsStr "exercise" t
      then balanceLoop rest focus (recov + m)
      else balanceLoop rest (focus + m) recov
  end.

(** [SuperAI::optimizeWorkLifeBalance]: the figures of the text it
    emits. *)
Definition optimizeWorkLifeBalance (events : list Event) : Balance :=
  let '(focus, recov) := balanceLoop events 0 0 in
  let score :=
    clampInt (70 + Z.quot recov 15 - Z.quot (Z.abs (focus - recov)) 10)
             0 100 in
  Build_Balance score focus recov.

End Analyses.

Section Suggestions.

Variable clock : nat -> QDateTime.

(** [SuperAI::generateSmartSuggestions]: the list it emits, planned from
    the two pools with no existing event. *)
Definition generateSmartSuggestions (self : SuperAI) (fuel : nat)
           (date : QDate) (n : nat) : option (list Event * nat) :=
  let emptyExisting : list Event := [] in
  planDay clock self fuel date emptyExisting (m_tasks self) (m_habits self) n.

(** The two figures of the summary line of [planDay]: the task minutes and
    the number of habit blocks. *)
Definition planDaySummary (self : SuperAI) (fuel : nat) (day : QDate)
           (existing : list Event) (tasks : list Task) (habits : list Habit)
           (n : nat) : option (Z * Z) :=
  let freeSlots := freeWindows day existing 15 in
  match scheduleTasksIntoWindows clock fuel freeSlots
          (if isEmpty tasks then m_tasks self else tasks) n with
  | None => None
  | Some (plannedTasks, _) =>
      let busy := existing ++ plannedTasks in
      let freeAfterTasks := freeWindows day busy 15 in
      let plannedHabits :=
        scheduleHabits freeAfterTasks
          (if isEmpty habits then m_habits self else habits) in
      Some (totalTaskMin plannedTasks, Z.of_nat (List.length plannedHabits))
  end.

End Suggestions.


(** The minutes of the task chunks (the blue blocks) of a list. *)
Fixpoint chunkMinutes (blocks : list Event) : Z :=
  match blocks with
  | [] => 0
  | b :: rest =>
      (if (getColor b =? kTaskBlue)%string
       then minutesBetween (getStartTime b) (getEndTime b) else 0)
      + chunkMinutes rest
  end.

(* ====================================================================== *)
(** * The ledger of the carving loop, as specified                         *)
(* ====================================================================== *)

(** One cut: a chunk of task [cut_task], taken when [cut_left] minutes of
    its effort were left, from fragment [cut_frag] of the pool. *)
Record Cut := Build_Cut {
  cut_task : Task;
  cut_left : Z;
  cut_frag : MSlot
}.

(** The length of the chunk: min(maxChunkMin, remaining effort, duration of
    the chosen fragment), in minutes. *)
Definition cutLen (c : Cut) : Z :=
  Z.min (maxChunkMin (cut_task c))
        (Z.min (cut_left c)
               (minutesBetween (seg_s (cut_frag c)) (seg_e (cut_frag c)))).

(** The chunk of a cut: it starts at the start of the chosen fragment. *)
Definition cutChunk (c : Cut) : Event :=
  mkEvent (taskTitle (cut_task c)) (seg_s (cut_frag c))
          (seg_s (cut_frag c) + cutLen c * 60000) kTaskBlue.

(** The three blocks of a cut: the chunk, a 5-minute buffer that ends
    where the chunk starts and a 10-minute buffer that starts where it
    ends. *)
Definition cutBlocks (c : Cut) : list Event :=
  [ cutChunk c;
    mkEvent "Buffer" (getStartTime (cutChunk c) - 5 * 60000)
            (getStartTime (cutChunk c)) kBufferGray;
    mkEvent "Buffer" (getEndTime (cutChunk c))
            (getEndTime (cutChunk c) + 10 * 60000) kBufferGray ].

(** The cuts of one task.  [taskCuts t left pool cuts pool'] reads: with
    [left] minutes of effort left and the fragments [pool], task [t] is
    cut as [cuts] and leaves the fragments [pool'].  Every cut is taken
    with effort left, from a fragment of the current pool that has at
    least 15 minutes; the effort left goes down by the length of the chunk
    and the fragment then starts where the 10-minute buffer ends (it goes
    when nothing is left of it); only a task that may be split is cut
    again. *)
Inductive taskCuts (t : Task)
  : Z -> list MSlot -> list Cut -> list MSlot -> Prop :=
| tc_stop (left : Z) (pool : list MSlot) : taskCuts t left pool [] pool
| tc_cut (left : Z) (pool : list MSlot) (i : nat) (frag : MSlot)
         (cuts : list Cut) (pool' : list MSlot) :
    0 < left ->
    nth_error pool i = Some frag ->
    15 <= minutesBetween (seg_s frag) (seg_e frag) ->
    (cuts <> [] -> splitOK t = true) ->
    taskCuts t (left - cutLen (Build_Cut t left frag))
             (carved t left i pool) cuts pool' ->
    taskCuts t left pool (Build_Cut t left frag :: cuts) pool'.

(** The cuts of a list of tasks, task after task; every task starts with
    its clamped effort, max(15, estimate). *)
Inductive planCuts : list Task -> list MSlot -> list Cut -> Prop :=
| pc_nil (pool : list MSlot) : planCuts [] pool []
| pc_task (t : Task) (rest : list Task) (pool : list MSlot)
          (cuts : list Cut) (pool' : list MSlot) (more : list Cut) :
    taskCuts t (Z.max 15 (estimateMin t)) pool cuts pool' ->
    planCuts rest pool' more ->
    planCuts (t :: rest) pool (cuts ++ more).

(* ====================================================================== *)
(** * The contract of std::sort                                            *)
(* ====================================================================== *)

(** What [std::sort] guarantees of the range it leaves: no element comes
    before an earlier one. *)
Definition sortedBy {A : Type} (less : A -> A -> bool) (l : list A) : Prop :=
  forall (i j : nat) (a b : A),
    (i < j)%nat -> nth_error l i = Some a -> nth_error l j = Some b ->
    less b a = false.

(** [sorted] is an order [std::sort] may leave the task list in. *)
Definition stdSorted (tasks sorted : list Task) : Prop :=
  Permutation sorted tasks /\ sortedBy taskLess sorted.
(* ====================================================================== *)
(** * Arithmetic of minutes                                                *)
(* ====================================================================== *)

Ltac divs := Z.to_euclidean_division_equations.

Lemma overlaps_iff (a1 a2 b1 b2 : Z) :
  overlaps a1 a2 b1 b2 <-> exists x, (a1 <= x < a2) /\ (b1 <= x < b2).
Proof.
  unfold overlaps; split.
  - intros H; exists (Z.max a1 b1); lia.
  - intros [x Hx]; lia.
Qed.

Lemma to_int_small (x : Z) : - 2 ^ 31 <= x < 2 ^ 31 -> to_int x = x.
Proof.
  intros H; unfold to_int.
  rewrite Z.mod_small; lia.
Qed.

Lemma to_int_le (x : Z) : 0 <= x -> to_int x <= x.
Proof.
  intros H; unfold to_int.
  assert (2 ^ 31 = 2147483648) as -> by reflexivity.
  assert (2 ^ 32 = 4294967296) as -> by reflexivity.
  divs; lia.
Qed.

Lemma to_int_range (x : Z) : - 2 ^ 31 <= to_int x < 2 ^ 31.
Proof.
  unfold to_int.
  assert (2 ^ 31 = 2147483648) as -> by reflexivity.
  assert (2 ^ 32 = 4294967296) as -> by reflexivity.
  divs; lia.
Qed.

Lemma minutesBetween_nonneg (s e : Z) : 0 <= minutesBetween s e.
Proof. unfold minutesBetween; lia. Qed.

Lemma minutesBetween_lt_int (s e : Z) : minutesBetween s e < 2 ^ 31.
Proof.
  unfold minutesBetween.
  pose proof (to_int_range (Z.quot (secsTo s e) 60)); lia.
Qed.

(** Whole minutes never exceed the real length of a proper interval. *)
Lemma minutesBetween_le (s e : Z) :
  s <= e -> minutesBetween s e * 60000 <= e - s.
Proof.
  intros H; unfold minutesBetween, secsTo.
  assert (0 <= Z.quot (Z.quot (e - s) 1000) 60) as H0.
  { apply Z.quot_pos; try lia. apply Z.quot_pos; lia. }
  pose proof (to_int_le _ H0) as H1.
  assert (Z.quot (Z.quot (e - s) 1000) 60 * 60000 <= e - s) as H2.
  { divs; lia. }
  lia.
Qed.

Lemma longEnough_nonpos (m : Z) (w : Slot) : m <= 0 -> longEnough m w = true.
Proof.
  intros H; unfold longEnough.
  pose proof (minutesBetween_nonneg (start w) (end_ w)).
  apply Z.geb_le; lia.
Qed.

Lemma dayStart_lt_dayEnd (day : QDate) : dayStart day < dayEnd day.
Proof. unfold dayStart, dayEnd, mkDateTime; lia. Qed.

Lemma date_in_day (day : QDate) (x : QDateTime) :
  dayStart day <= x <= dayEnd day -> date x = day.
Proof.
  unfold dayStart, dayEnd, mkDateTime, date, msPerDay; intros H.
  divs; lia.
Qed.

Lemma date_mono (x y : QDateTime) : x <= y -> date x <= date y.
Proof. unfold date, msPerDay; intros H; divs; lia. Qed.

(* ====================================================================== *)
(** * The sort                                                             *)
(* ====================================================================== *)

Lemma insertBy_perm {A : Type} (less : A -> A -> bool) (x : A) (l : list A) :
  Permutation (insertBy less x l) (x :: l).
Proof.
  induction l as [|y l IH]; simpl; [reflexivity|].
  destruct (less y x); [|reflexivity].
  rewrite IH; apply perm_swap.
Qed.

Lemma sortBy_perm {A : Type} (less : A -> A -> bool) (l : list A) :
  Permutation (sortBy less l) l.
Proof.
  induction l as [|x l IH]; simpl; [reflexivity|].
  rewrite insertBy_perm; auto.
Qed.

Lemma insertBy_asc (x : Seg) (l : list Seg) (lo : Z) :
  lo <= seg_s x -> ascFrom lo l -> ascFrom lo (insertBy segLess x l).
Proof.
  revert lo; induction l as [|y l IH]; simpl; intros lo Hx Hl.
  - auto.
  - destruct Hl as [Hy Hl]; unfold segLess at 1.
    destruct (Z.ltb_spec (seg_s y) (seg_s x)); simpl.
    + split; [assumption|]. apply IH; [lia|assumption].
    + repeat split; try assumption; lia.
Qed.

Lemma ascFrom_weaken (lo lo' : Z) (l : list Seg) :
  lo' <= lo -> ascFrom lo l -> ascFrom lo' l.
Proof. destruct l; simpl; intuition lia. Qed.

Lemma sortBy_asc (lo : Z) (l : list Seg) :
  Forall (fun g => lo <= seg_s g) l -> ascFrom lo (sortBy segLess l).
Proof.
  induction 1 as [|x l Hx Hl IH]; simpl; [exact I|].
  apply insertBy_asc; assumption.
Qed.

(** Sorting leaves a list that is already a chain as it is. *)
Lemma sortBy_chain (lo hi : Z) (l : list Seg) :
  chain lo hi l -> sortBy segLess l = l.
Proof.
  revert lo; induction l as [|x l IH]; simpl; intros lo H; [reflexivity|].
  destruct H as (_ & Hx & _ & Hl).
  rewrite (IH _ Hl).
  destruct l as [|y l]; simpl; [reflexivity|].
  destruct Hl as (Hy & _); unfold segLess.
  destruct (Z.ltb_spec (seg_s y) (seg_s x)); [lia|reflexivity].
Qed.

(* ====================================================================== *)
(** * freeWindows: clamping, merging, inverting                            *)
(* ====================================================================== *)

Lemma chain_weaken (lo lo' hi : Z) (l : list Seg) :
  lo' <= lo -> chain lo hi l -> chain lo' hi l.
Proof. destruct l; simpl; intuition lia. Qed.

Lemma chain_lower (lo hi x : Z) (l : list Seg) :
  chain lo hi l -> Exists (inSeg x) l -> lo <= x < hi.
Proof.
  revert lo; induction l as [|g l IH]; simpl; intros lo Hc Hx.
  - inversion Hx.
  - destruct Hc as (H1 & H2 & H3 & Hc).
    inversion Hx as [? ? Hg|? ? Hl]; subst.
    + unfold inSeg in Hg; lia.
    + specialize (IH _ Hc Hl); lia.
Qed.

Lemma chain_filter (f : Seg -> bool) (lo hi : Z) (l : list Seg) :
  chain lo hi l -> chain lo hi (filter f l).
Proof.
  revert lo; induction l as [|g l IH]; simpl; intros lo Hc; [exact I|].
  destruct Hc as (H1 & H2 & H3 & Hc).
  destruct (f g); simpl.
  - repeat split; auto.
  - apply chain_weaken with (lo := seg_e g + 1); [lia|auto].
Qed.

Lemma Exists_inSlot_map (x : Z) (ws : list Slot) :
  Exists (inSeg x) (map slotSeg ws) <-> Exists (inSlot x) ws.
Proof.
  induction ws as [|w ws IH]; simpl.
  - rewrite !Exists_nil; reflexivity.
  - rewrite !Exists_cons, IH; unfold inSeg, inSlot, slotSeg; simpl; reflexivity.
Qed.

Lemma map_slotSeg_filter (f : Slot -> bool) (ws : list Slot) :
  map slotSeg (filter f ws) =
  filter (fun g => f (Build_Slot (seg_s g) (seg_e g))) (map slotSeg ws).
Proof.
  induction ws as [|[a b] ws IH]; simpl; [reflexivity|].
  destruct (f _); simpl; rewrite IH; reflexivity.
Qed.

(** ** Clamping *)

Lemma clampSegs_range (day : QDate) (busy : list Event) :
  Forall (fun g => dayStart day <= seg_s g /\ seg_s g < seg_e g /\
                   seg_e g <= dayEnd day) (clampSegs day busy).
Proof.
  induction busy as [|ev busy IH]; simpl; [constructor|].
  destruct (_ || _); [assumption|].
  destruct (Z.ltb_spec (Z.max (dayStart day) (getStartTime ev))
                       (Z.min (dayEnd day) (getEndTime ev))); [|assumption].
  constructor; [simpl; lia|assumption].
Qed.

Lemma clampSegs_sound (day : QDate) (busy : list Event) (x : QDateTime) :
  Exists (inSeg x) (clampSegs day busy) -> Exists (inEvent x) busy.
Proof.
  induction busy as [|ev busy IH]; simpl; intros H; [inversion H|].
  destruct (_ || _); [right; auto|].
  destruct (Z.ltb_spec (Z.max (dayStart day) (getStartTime ev))
                       (Z.min (dayEnd day) (getEndTime ev))); [|right; auto].
  inversion H as [? ? Hg|? ? Hl]; subst; [left|right; auto].
  unfold inSeg in Hg; simpl in Hg; unfold inEvent; lia.
Qed.

Lemma clampSegs_complete (day : QDate) (busy : list Event) (x : QDateTime) :
  dayStart day <= x < dayEnd day ->
  Exists (inEvent x) busy -> Exists (inSeg x) (clampSegs day busy).
Proof.
  intros Hx; induction busy as [|ev busy IH]; simpl; intros H; [inversion H|].
  inversion H as [? ? Hev|? ? Hl]; subst.
  - unfold inEvent in Hev.
    assert (date (getStartTime ev) <= day) as Hs.
    { rewrite <- (date_in_day day x) by lia. apply date_mono; lia. }
    assert (day <= date (getEndTime ev)) as He.
    { rewrite <- (date_in_day day x) by lia. apply date_mono; lia. }
    destruct (Z.gtb_spec (date (getStartTime ev)) day); [lia|].
    destruct (Z.ltb_spec (date (getEndTime ev)) day); [lia|]; simpl.
    destruct (Z.ltb_spec (Z.max (dayStart day) (getStartTime ev))
                         (Z.min (dayEnd day) (getEndTime ev))); [|lia].
    left; unfold inSeg; simpl; lia.
  - specialize (IH Hl).
    destruct (_ || _); [assumption|].
    destruct (_ <? _); [right|]; assumption.
Qed.

(** ** Merging *)

Lemma mergeFrom_chain (hi : Z) (segs : list Seg) :
  forall (back : Seg) (lo : Z),
    lo <= seg_s back -> seg_s back < seg_e back -> seg_e back <= hi ->
    Forall (fun g => seg_s g < seg_e g /\ seg_e g <= hi) segs ->
    ascFrom (seg_s back) segs ->
    chain lo hi (mergeFrom back segs).
Proof.
  induction segs as [|s rest IH]; simpl; intros back lo H1 H2 H3 Hp Ha.
  - repeat split; auto.
  - inversion Hp as [|? ? [Hs1 Hs2] Hp']; subst.
    destruct Ha as [Ha1 Ha2].
    destruct (Z.gtb_spec (seg_s s) (seg_e back)).
    + simpl; repeat split; auto.
      apply IH; auto; lia.
    + apply IH; simpl; auto; try lia.
      apply ascFrom_weaken with (lo := seg_s s); auto.
Qed.

Lemma mergeFrom_cover (x : Z) (segs : list Seg) :
  forall back : Seg,
    ascFrom (seg_s back) segs ->
    (Exists (inSeg x) (mergeFrom back segs) <->
     inSeg x back \/ Exists (inSeg x) segs).
Proof.
  induction segs as [|s rest IH]; simpl; intros back Ha.
  - rewrite Exists_cons, Exists_nil; tauto.
  - destruct Ha as [Ha1 Ha2].
    destruct (Z.gtb_spec (seg_s s) (seg_e back)).
    + rewrite !Exists_cons, (IH s Ha2); tauto.
    + rewrite IH by (simpl; apply ascFrom_weaken with (lo := seg_s s); auto).
      rewrite Exists_cons; unfold inSeg; simpl.
      split.
      * intros [Hx|Hx]; [|auto].
        destruct (Z.lt_ge_cases x (seg_e back)); [left; lia|right; left; lia].
      * intros [Hx|[Hx|Hx]]; [left; lia|left; lia|right; auto].
Qed.

Lemma mergeFrom_of_chain (hi : Z) (l : list Seg) :
  forall back : Seg,
    chain (seg_e back + 1) hi l -> mergeFrom back l = back :: l.
Proof.
  induction l as [|g l IH]; simpl; intros back Hc; [reflexivity|].
  destruct Hc as (H1 & H2 & H3 & Hc).
  destruct (Z.gtb_spec (seg_s g) (seg_e back)); [|lia].
  rewrite (IH g Hc); reflexivity.
Qed.

Lemma mergeSegs_of_chain (lo hi : Z) (l : list Seg) :
  chain lo hi l -> mergeSegs l = l.
Proof.
  destruct l as [|g l]; simpl; [reflexivity|].
  intros (_ & _ & _ & Hc); eapply mergeFrom_of_chain; eauto.
Qed.

Lemma mergedBusy_chain (day : QDate) (busy : list Event) :
  chain (dayStart day) (dayEnd day) (mergedBusy day busy).
Proof.
  unfold mergedBusy.
  pose proof (clampSegs_range day busy) as Hr.
  assert (Forall (fun g => dayStart day <= seg_s g /\ seg_s g < seg_e g /\
                           seg_e g <= dayEnd day)
                 (sortBy segLess (clampSegs day busy))) as Hr'.
  { eapply Permutation_Forall; [symmetry; apply sortBy_perm|exact Hr]. }
  assert (ascFrom (dayStart day) (sortBy segLess (clampSegs day busy))) as Ha.
  { apply sortBy_asc. eapply Forall_impl; [|exact Hr]. simpl; tauto. }
  destruct (sortBy segLess (clampSegs day busy)) as [|s rest]; simpl; [exact I|].
  inversion Hr' as [|? ? (H1 & H2 & H3) Hrest]; subst.
  destruct Ha as [_ Ha].
  apply mergeFrom_chain; auto.
  eapply Forall_impl; [|exact Hrest]. simpl; tauto.
Qed.

Lemma mergedBusy_segs (day : QDate) (busy : list Event) (x : QDateTime) :
  Exists (inSeg x) (mergedBusy day busy) <->
  Exists (inSeg x) (clampSegs day busy).
Proof.
  unfold mergedBusy.
  pose proof (clampSegs_range day busy) as Hr.
  assert (ascFrom (dayStart day) (sortBy segLess (clampSegs day busy))) as Ha.
  { apply sortBy_asc. eapply Forall_impl; [|exact Hr]. simpl; tauto. }
  pose proof (sortBy_perm segLess (clampSegs day busy)) as Hp.
  transitivity (Exists (inSeg x) (sortBy segLess (clampSegs day busy))).
  - destruct (sortBy segLess (clampSegs day busy)) as [|s rest]; simpl;
      [reflexivity|].
    destruct Ha as [_ Ha].
    rewrite (mergeFrom_cover x rest s Ha), Exists_cons; reflexivity.
  - rewrite !Exists_exists; split; intros (g & Hg & Hx); exists g; split; auto.
    + eapply Permutation_in; eauto.
    + eapply Permutation_in; [symmetry|]; eauto.
Qed.

(** Inside the day, the merged segments cover exactly the instants covered
    by the input busy events. *)
Lemma mergedBusy_cover (day : QDate) (busy : list Event) (x : QDateTime) :
  dayStart day <= x < dayEnd day ->
  (Exists (inSeg x) (mergedBusy day busy) <-> Exists (inEvent x) busy).
Proof.
  intros Hx; rewrite mergedBusy_segs; split.
  - apply clampSegs_sound.
  - apply clampSegs_complete; assumption.
Qed.

(** ** Inverting *)

(** The windows are the gaps that pass the length test. *)
Lemma invertSegs_filter (m hi : Z) (l : list Seg) :
  forall cur : Z,
    invertSegs m hi cur l = filter (longEnough m) (invertSegs 0 hi cur l).
Proof.
  induction l as [|g l IH]; simpl; intros cur.
  - pose proof (minutesBetween_nonneg cur hi).
    destruct (Z.geb_spec (minutesBetween cur hi) 0); [|lia].
    destruct (cur <? hi); simpl; [|reflexivity].
    unfold longEnough; simpl. destruct (_ >=? m); reflexivity.
  - rewrite filter_app, <- IH.
    pose proof (minutesBetween_nonneg cur (seg_s g)).
    destruct (Z.geb_spec (minutesBetween cur (seg_s g)) 0); [|lia].
    destruct (cur <? seg_s g); simpl; [|reflexivity].
    unfold longEnough; simpl. destruct (_ >=? m); reflexivity.
Qed.

Lemma invertSegs_nonpos (m hi cur : Z) (l : list Seg) :
  m <= 0 -> invertSegs m hi cur l = invertSegs 0 hi cur l.
Proof.
  intros Hm; rewrite invertSegs_filter.
  apply forallb_filter_id, forallb_forall; intros w _.
  apply longEnough_nonpos; assumption.
Qed.

Lemma invertSegs_chain (hi : Z) (l : list Seg) :
  forall cur lo : Z,
    cur <= lo -> chain lo hi l ->
    chain cur hi (map slotSeg (invertSegs 0 hi cur l)).
Proof.
  induction l as [|g l IH]; simpl; intros cur lo Hcur Hc.
  - destruct (Z.ltb_spec cur hi); simpl; [|exact I].
    destruct (_ >=? 0); simpl; [lia|exact I].
  - destruct Hc as (H1 & H2 & H3 & Hc).
    assert (Z.max cur (seg_e g) = seg_e g) as -> by lia.
    specialize (IH (seg_e g) (seg_e g + 1) ltac:(lia) Hc).
    rewrite map_app.
    destruct (Z.ltb_spec cur (seg_s g)); simpl.
    + destruct (_ >=? 0); simpl.
      * repeat split; try lia.
        apply chain_weaken with (lo := seg_e g); [lia|assumption].
      * apply chain_weaken with (lo := seg_e g); [lia|assumption].
    + apply chain_weaken with (lo := seg_e g); [lia|assumption].
Qed.

(** From [cur] to the end of the day, the gaps cover exactly the instants
    no merged segment covers. *)
Lemma invertSegs_cover (hi : Z) (l : list Seg) :
  forall cur lo x : Z,
    cur <= lo -> chain lo hi l -> cur <= x < hi ->
    (Exists (inSlot x) (invertSegs 0 hi cur l) <-> ~ Exists (inSeg x) l).
Proof.
  induction l as [|g l IH]; simpl; intros cur lo x Hcur Hc Hx.
  - destruct (Z.ltb_spec cur hi); [|lia].
    pose proof (minutesBetween_nonneg cur hi).
    destruct (Z.geb_spec (minutesBetween cur hi) 0); [|lia]; simpl.
    rewrite Exists_cons, !Exists_nil; unfold inSlot; simpl. intuition lia.
  - destruct Hc as (H1 & H2 & H3 & Hc).
    assert (Z.max cur (seg_e g) = seg_e g) as -> by lia.
    pose proof (invertSegs_chain hi l (seg_e g) (seg_e g + 1) ltac:(lia) Hc)
      as Hw.
    rewrite Exists_app, Exists_cons.
    pose proof (minutesBetween_nonneg cur (seg_s g)).
    destruct (Z.geb_spec (minutesBetween cur (seg_s g)) 0); [|lia].
    rewrite andb_true_r.
    destruct (Z.lt_ge_cases x (seg_e g)) as [Hlt|Hge].
    + (* x lies before the end of g: in the gap before g, or in g *)
      assert (~ Exists (inSlot x) (invertSegs 0 hi (seg_e g) l)) as Hn1.
      { intros HE. apply Exists_inSlot_map in HE.
        pose proof (chain_lower _ _ _ _ Hw HE). lia. }
      assert (~ Exists (inSeg x) l) as Hn2.
      { intros HE. pose proof (chain_lower _ _ _ _ Hc HE). lia. }
      destruct (Z.ltb_spec cur (seg_s g)).
      * rewrite Exists_cons, Exists_nil; unfold inSlot, inSeg; simpl.
        intuition lia.
      * rewrite Exists_nil; unfold inSeg. intuition lia.
    + (* x lies after g *)
      rewrite (IH (seg_e g) (seg_e g + 1) x ltac:(lia) Hc ltac:(lia)).
      destruct (Z.ltb_spec cur (seg_s g)).
      * rewrite Exists_cons, Exists_nil; unfold inSlot, inSeg; simpl.
        intuition lia.
      * rewrite Exists_nil; unfold inSeg. intuition lia.
Qed.

(** Inverting twice gives the segments back. *)
Lemma invertSegs_twice_from (hi : Z) (r : list Seg) :
  forall c s0 : Z,
    chain (c + 1) hi r -> s0 < c -> c <= hi ->
    invertSegs 0 hi s0 (map slotSeg (invertSegs 0 hi c r)) =
    Build_Slot s0 c :: map (fun g => Build_Slot (seg_s g) (seg_e g)) r.
Proof.
  induction r as [|g r IH]; intros c s0 Hc Hs Hhi.
  - cbn [invertSegs map].
    destruct (Z.ltb_spec c hi).
    + pose proof (minutesBetween_nonneg c hi).
      destruct (Z.geb_spec (minutesBetween c hi) 0); [|lia].
      cbn [andb map invertSegs slotSeg start end_ seg_s seg_e app].
      pose proof (minutesBetween_nonneg s0 c).
      destruct (Z.geb_spec (minutesBetween s0 c) 0); [|lia].
      destruct (Z.ltb_spec s0 c); [|lia].
      assert (Z.max s0 hi = hi) as -> by lia.
      destruct (Z.ltb_spec hi hi); [lia|]. reflexivity.
    + assert (c = hi) by lia; subst c.
      cbn [andb map invertSegs].
      pose proof (minutesBetween_nonneg s0 hi).
      destruct (Z.geb_spec (minutesBetween s0 hi) 0); [|lia].
      destruct (Z.ltb_spec s0 hi); [|lia]. reflexivity.
  - destruct Hc as (H1 & H2 & H3 & Hc).
    cbn [invertSegs].
    assert (Z.max c (seg_e g) = seg_e g) as -> by lia.
    pose proof (minutesBetween_nonneg c (seg_s g)).
    destruct (Z.geb_spec (minutesBetween c (seg_s g)) 0); [|lia].
    destruct (Z.ltb_spec c (seg_s g)); [|lia].
    cbn [andb app map invertSegs slotSeg start end_ seg_s seg_e].
    pose proof (minutesBetween_nonneg s0 c).
    destruct (Z.geb_spec (minutesBetween s0 c) 0); [|lia].
    destruct (Z.ltb_spec s0 c); [|lia].
    assert (Z.max s0 (seg_s g) = seg_s g) as -> by lia.
    cbn [andb app].
    rewrite (IH (seg_e g) (seg_s g) Hc H2 H3). reflexivity.
Qed.

Lemma invertSegs_twice (lo hi : Z) (l : list Seg) :
  lo < hi -> chain lo hi l ->
  invertSegs 0 hi lo (map slotSeg (invertSegs 0 hi lo l)) =
  map (fun g => Build_Slot (seg_s g) (seg_e g)) l.
Proof.
  intros Hlh Hc; destruct l as [|g r].
  - cbn [invertSegs map].
    pose proof (minutesBetween_nonneg lo hi).
    destruct (Z.geb_spec (minutesBetween lo hi) 0); [|lia].
    destruct (Z.ltb_spec lo hi); [|lia].
    cbn [andb map invertSegs slotSeg start end_ seg_s seg_e app].
    destruct (Z.ltb_spec lo lo); [lia|].
    assert (Z.max lo hi = hi) as -> by lia.
    destruct (Z.ltb_spec hi hi); [lia|]. reflexivity.
  - destruct Hc as (H1 & H2 & H3 & Hc).
    cbn [invertSegs].
    assert (Z.max lo (seg_e g) = seg_e g) as -> by lia.
    pose proof (minutesBetween_nonneg lo (seg_s g)).
    destruct (Z.geb_spec (minutesBetween lo (seg_s g)) 0); [|lia].
    destruct (Z.ltb_spec lo (seg_s g)).
    + cbn [andb app map invertSegs slotSeg start end_ seg_s seg_e].
      destruct (Z.ltb_spec lo lo); [lia|].
      assert (Z.max lo (seg_s g) = seg_s g) as -> by lia.
      cbn [andb app].
      apply (invertSegs_twice_from hi r (seg_e g) (seg_s g) Hc H2 H3).
    + assert (lo = seg_s g) by lia; subst lo.
      cbn [andb app].
      apply (invertSegs_twice_from hi r (seg_e g) (seg_s g) Hc H2 H3).
Qed.

(** ** Facts about [freeWindows] *)

Lemma chain_Forall (lo hi : Z) (l : list Seg) :
  chain lo hi l ->
  Forall (fun g => lo <= seg_s g /\ seg_s g < seg_e g /\ seg_e g <= hi) l.
Proof.
  revert lo; induction l as [|g l IH]; simpl; intros lo Hc; constructor.
  - tauto.
  - destruct Hc as (H1 & H2 & H3 & Hc).
    eapply Forall_impl; [|apply (IH _ Hc)]. simpl; intros; lia.
Qed.

Lemma chain_pairwise (lo hi : Z) (ws : list Slot) :
  chain lo hi (map slotSeg ws) ->
  ForallOrdPairs (fun a b => ~ slotsOverlap a b) ws.
Proof.
  revert lo; induction ws as [|w ws IH]; simpl; intros lo Hc; constructor.
  - destruct Hc as (H1 & H2 & H3 & Hc).
    apply chain_Forall in Hc. rewrite Forall_map in Hc.
    eapply Forall_impl; [|exact Hc]. simpl.
    intros b Hb; unfold slotsOverlap, overlaps. lia.
  - destruct Hc as (_ & _ & _ & Hc). eapply IH; eauto.
Qed.

Lemma map_unslotSeg (ws : list Slot) :
  map (fun g => Build_Slot (seg_s g) (seg_e g)) (map slotSeg ws) = ws.
Proof.
  induction ws as [|[a b] ws IH]; simpl; [|rewrite IH]; reflexivity.
Qed.

Lemma freeWindows_filter (day : QDate) (busy : list Event) (m : Z) :
  freeWindows day busy m = filter (longEnough m) (freeWindows day busy 0).
Proof. unfold freeWindows; apply invertSegs_filter. Qed.

Lemma freeWindows_chain (day : QDate) (busy : list Event) (m : Z) :
  chain (dayStart day) (dayEnd day) (map slotSeg (freeWindows day busy m)).
Proof.
  rewrite freeWindows_filter, map_slotSeg_filter.
  apply chain_filter. unfold freeWindows.
  apply invertSegs_chain with (lo := dayStart day); [lia|].
  apply mergedBusy_chain.
Qed.

Lemma freeWindows_long (day : QDate) (busy : list Event) (m : Z) :
  Forall (fun w => longEnough m w = true) (freeWindows day busy m).
Proof.
  rewrite freeWindows_filter. apply Forall_forall; intros w Hw.
  apply filter_In in Hw; tauto.
Qed.

Lemma inSeg_dec (x : Z) (g : Seg) : {inSeg x g} + {~ inSeg x g}.
Proof.
  unfold inSeg.
  destruct (Z_le_dec (seg_s g) x); [|right; lia].
  destruct (Z_lt_dec x (seg_e g)); [left|right]; lia.
Qed.

(** All the gaps (threshold 0) and the merged busy segments split the day
    span: every instant of the day lies in exactly one of them. *)
Lemma gaps_partition (day : QDate) (busy : list Event) (x : QDateTime) :
  (dayStart day <= x < dayEnd day <->
   Exists (inSlot x) (freeWindows day busy 0) \/
   Exists (inSeg x) (mergedBusy day busy)) /\
  ~ (Exists (inSlot x) (freeWindows day busy 0) /\
     Exists (inSeg x) (mergedBusy day busy)).
Proof.
  pose proof (mergedBusy_chain day busy) as Hc.
  pose proof (freeWindows_chain day busy 0) as Hw.
  assert (dayStart day <= x < dayEnd day ->
          (Exists (inSlot x) (freeWindows day busy 0) <->
           ~ Exists (inSeg x) (mergedBusy day busy))) as Hcov.
  { intros Hx; unfold freeWindows.
    apply invertSegs_cover with (lo := dayStart day); auto; lia. }
  split; [split|].
  - intros Hx.
    destruct (Exists_dec (inSeg x) (mergedBusy day busy) (inSeg_dec x));
      [right; assumption|left; apply Hcov; assumption].
  - intros [H|H].
    + apply Exists_inSlot_map in H. apply (chain_lower _ _ _ _ Hw H).
    + apply (chain_lower _ _ _ _ Hc H).
  - intros [H1 H2].
    assert (dayStart day <= x < dayEnd day) as Hx
      by apply (chain_lower _ _ _ _ Hc H2).
    apply (Hcov Hx); assumption.
Qed.

Lemma freeWindows_avoid_busy (day : QDate) (busy : list Event) (m : Z)
      (w : Slot) (ev : Event) :
  In w (freeWindows day busy m) -> In ev busy -> ~ slotOverlapsEvent w ev.
Proof.
  intros Hw Hev Hov.
  unfold slotOverlapsEvent, overlaps in Hov.
  set (x := Z.max (start w) (getStartTime ev)) in *.
  assert (inSlot x w) as Hxw by (unfold inSlot; lia).
  assert (inEvent x ev) as Hxe by (unfold inEvent; lia).
  rewrite freeWindows_filter in Hw. apply filter_In in Hw. destruct Hw as [Hw _].
  assert (Exists (inSlot x) (freeWindows day busy 0)) as HF
    by (apply Exists_exists; eauto).
  destruct (gaps_partition day busy x) as [[_ Hin] Hdis].
  specialize (Hin (or_introl HF)).
  apply Hdis; split; [assumption|].
  apply mergedBusy_cover; [assumption|].
  apply Exists_exists; eauto.
Qed.

(** A list of windows that is a chain inside the day comes back unchanged
    from clamping, sorting and merging. *)
Lemma clampSegs_of_chain (day : QDate) (ws : list Slot) :
  Forall (fun g => dayStart day <= seg_s g /\ seg_s g < seg_e g /\
                   seg_e g <= dayEnd day) (map slotSeg ws) ->
  clampSegs day (map slotEvent ws) = map slotSeg ws.
Proof.
  induction ws as [|w ws IH]; simpl; intros H; [reflexivity|].
  inversion H as [|? ? (H1 & H2 & H3) H']; subst; simpl in *.
  rewrite (date_in_day day (start w)) by lia.
  rewrite (date_in_day day (end_ w)) by lia.
  destruct (Z.gtb_spec day day); [lia|].
  destruct (Z.ltb_spec day day); [lia|]; simpl.
  rewrite Z.max_r, Z.min_r by lia.
  destruct (Z.ltb_spec (start w) (end_ w)); [|lia].
  rewrite (IH H'); reflexivity.
Qed.

Lemma mergedBusy_of_chain (day : QDate) (ws : list Slot) :
  chain (dayStart day) (dayEnd day) (map slotSeg ws) ->
  mergedBusy day (map slotEvent ws) = map slotSeg ws.
Proof.
  intros Hc; unfold mergedBusy.
  rewrite clampSegs_of_chain.
  - rewrite (sortBy_chain _ _ _ Hc). eapply mergeSegs_of_chain; eauto.
  - pose proof (dayStart_lt_dayEnd day).
    eapply Forall_impl; [|apply (chain_Forall _ _ _ Hc)]. simpl; tauto.
Qed.

(** Inverting the windows of a chain twice (with no length test) gives the
    windows back. *)
Lemma freeWindows_twice_0 (day : QDate) (ws : list Slot) :
  chain (dayStart day) (dayEnd day) (map slotSeg ws) ->
  freeWindows day (map slotEvent (freeWindows day (map slotEvent ws) 0)) 0 = ws.
Proof.
  intros Hc. unfold freeWindows at 1.
  rewrite mergedBusy_of_chain by apply freeWindows_chain.
  unfold freeWindows. rewrite (mergedBusy_of_chain day ws Hc).
  rewrite invertSegs_twice with (lo := dayStart day);
    [apply map_unslotSeg|apply dayStart_lt_dayEnd|assumption].
Qed.

(* ====================================================================== *)
(** * Merge correctness (C2) and re-merging (C7)                           *)
(* ====================================================================== *)

(** C2, as stated, fails: with the day busy from 06:10 on and the minimum
    block of 15 minutes, the gap 06:00-06:10 is dropped, so no free window
    and no merged busy interval contains 06:00. *)
Lemma mergeCorrect_short_gap_fails :
  ~ mergeCorrect 0 [busyEvent 6 10 22 0] 15.
Proof.
  unfold mergeCorrect. intros (_ & _ & Hcover).
  assert (freeWindows 0 [busyEvent 6 10 22 0] 15 = []) as Efree
    by (vm_compute; reflexivity).
  assert (mergedBusy 0 [busyEvent 6 10 22 0] = [Build_Seg 22200000 79200000])
    as Ebusy by (vm_compute; reflexivity).
  rewrite Efree, Ebusy in Hcover.
  destruct (proj1 (Hcover 21600000)) as [H|H].
  - unfold dayStart, dayEnd, mkDateTime, msPerDay; lia.
  - inversion H.
  - inversion H as [? ? Hx|? ? Hx]; subst.
    + unfold inSeg in Hx; simpl in Hx; lia.
    + inversion Hx.
Qed.

(** C2 (amended): the free windows are pairwise non-overlapping, none
    overlaps an input busy event, each lies in the day span 06:00-22:00, is
    non-empty and lasts at least [minBlockMin] whole minutes; they are
    exactly the gaps between the merged busy intervals that pass the length
    test; all the gaps (threshold 0) and the merged busy intervals are
    disjoint and cover the day span exactly; so merge correctness as stated
    holds whenever [minBlockMin <= 0]. *)
Theorem freeWindows_merge_correct (day : QDate) (busy : list Event) (m : Z) :
  let free := freeWindows day busy m in
  ForallOrdPairs (fun a b => ~ slotsOverlap a b) free /\
  (forall w ev, In w free -> In ev busy -> ~ slotOverlapsEvent w ev) /\
  (forall w, In w free ->
             dayStart day <= start w /\ start w < end_ w /\
             end_ w <= dayEnd day /\
             m <= minutesBetween (start w) (end_ w)) /\
  free = filter (longEnough m) (freeWindows day busy 0) /\
  (forall x,
      (dayStart day <= x < dayEnd day <->
       Exists (inSlot x) (freeWindows day busy 0) \/
       Exists (inSeg x) (mergedBusy day busy)) /\
      ~ (Exists (inSlot x) (freeWindows day busy 0) /\
         Exists (inSeg x) (mergedBusy day busy))) /\
  (m <= 0 -> mergeCorrect day busy m).
Proof.
  intros free; subst free.
  pose proof (freeWindows_chain day busy m) as Hc.
  assert (ForallOrdPairs (fun a b => ~ slotsOverlap a b)
                         (freeWindows day busy m)) as Hpair
    by (eapply chain_pairwise; eauto).
  assert (forall w ev, In w (freeWindows day busy m) -> In ev busy ->
                       ~ slotOverlapsEvent w ev) as Havoid
    by (intros; eapply freeWindows_avoid_busy; eauto).
  assert (forall m' : Z, m' <= 0 ->
            freeWindows day busy m' = freeWindows day busy 0) as Hnp
    by (intros; unfold freeWindows; apply invertSegs_nonpos; assumption).
  split; [exact Hpair|]. split; [exact Havoid|]. split; [|split; [|split]].
  - intros w Hw.
    pose proof (freeWindows_long day busy m) as Hl.
    rewrite Forall_forall in Hl. specialize (Hl w Hw).
    unfold longEnough in Hl. apply Z.geb_le in Hl.
    apply chain_Forall in Hc. rewrite Forall_map, Forall_forall in Hc.
    specialize (Hc w Hw). simpl in Hc. tauto.
  - apply freeWindows_filter.
  - intros x. apply gaps_partition.
  - intros Hm. unfold mergeCorrect.
    split; [exact Hpair|]. split; [exact Havoid|].
    intros x. rewrite (Hnp m Hm). apply gaps_partition.
Qed.

(** C7, as stated, fails: a 5-minute meeting at 10:00 splits the day into
    two free windows; fed back, their complement (the 5 minutes) is below
    the 15-minute minimum and vanishes, and the second re-merge returns the
    whole day as one window. *)
Lemma remerge_short_meeting_fails :
  remerge 0 15 (remerge 0 15 (freeWindows 0 [busyEvent 10 0 10 5] 15))
  <> freeWindows 0 [busyEvent 10 0 10 5] 15.
Proof. vm_compute. discriminate. Qed.

(** C7 (amended): re-merging twice reproduces the free windows provided the
    first re-merge drops nothing, that is, no stretch of the day left
    between the free windows is shorter than [minBlockMin] minutes. *)
Theorem remerge_twice (day : QDate) (busy : list Event) (m : Z) :
  remerge day m (freeWindows day busy m) =
  remerge day 0 (freeWindows day busy m) ->
  remerge day m (remerge day m (freeWindows day busy m)) =
  freeWindows day busy m.
Proof.
  unfold remerge; intros Hg. rewrite Hg.
  rewrite freeWindows_filter.
  rewrite freeWindows_twice_0 by apply freeWindows_chain.
  apply forallb_filter_id, forallb_forall.
  apply Forall_forall, freeWindows_long.
Qed.

Lemma remerge_twice_witness :
  remerge 0 15 (remerge 0 15 (freeWindows 0 [busyEvent 9 0 10 0] 15)) =
  freeWindows 0 [busyEvent 9 0 10 0] 15.
Proof.
  apply (remerge_twice 0 [busyEvent 9 0 10 0] 15). vm_compute; reflexivity.
Defined.

(** With no minimum length the re-merge is always stable. *)
Lemma remerge_twice_nonpos (day : QDate) (busy : list Event) (m : Z) :
  m <= 0 ->
  remerge day m (remerge day m (freeWindows day busy m)) =
  freeWindows day busy m.
Proof.
  intros Hm; unfold remerge, freeWindows.
  rewrite !(invertSegs_nonpos m) by assumption.
  apply (freeWindows_twice_0 day (freeWindows day busy 0)).
  apply freeWindows_chain.
Qed.

(* ====================================================================== *)
(** * Scores (C3)                                                          *)
(* ====================================================================== *)

Lemma Qgtb_true (a b : Q) : Qgtb a b = true <-> (b < a)%Q.
Proof.
  unfold Qgtb; rewrite negb_true_iff, <- not_true_iff_false, Qle_bool_iff.
  split; [apply Qnot_le_lt|apply Qlt_not_le].
Qed.

Lemma Qgtb_false (a b : Q) : Qgtb a b = false <-> (a <= b)%Q.
Proof. unfold Qgtb; rewrite negb_false_iff; apply Qle_bool_iff. Qed.

Lemma clampQ_clamp01 (v : Q) : (clampQ v 0.0 1.0 == clamp01 v)%Q.
Proof.
  assert (0.0 == 0)%Q as Z0 by reflexivity.
  assert (1.0 == 1)%Q as O1 by reflexivity.
  unfold clampQ, clamp01.
  destruct (Qgtb 0.0 v) eqn:E0.
  - apply Qgtb_true in E0. rewrite Z0 in E0. rewrite Z0.
    rewrite Q.max_l; [reflexivity|].
    apply Qle_trans with v; [apply Q.le_min_r|apply Qlt_le_weak; exact E0].
  - apply Qgtb_false in E0. rewrite Z0 in E0.
    destruct (Qgtb v 1.0) eqn:E1.
    + apply Qgtb_true in E1. rewrite O1 in E1. rewrite O1.
      rewrite Q.min_l by (apply Qlt_le_weak; exact E1).
      rewrite Q.max_r; [reflexivity|discriminate].
    + apply Qgtb_false in E1. rewrite O1 in E1.
      rewrite Q.min_r by exact E1.
      rewrite Q.max_r; [reflexivity|exact E0].
Qed.



(* ====================================================================== *)
(** * The task order (C4)                                                  *)
(* ====================================================================== *)

(** Outside the case of two equal deadlines the comparator is the specified
    order. *)
Lemma taskLess_specBefore (a b : Task) :
  (forall d, deadline a = Some d -> deadline b = Some d ->
             priority a <> priority b) ->
  (taskLess a b = true <-> specBefore a b).
Proof.
  intros Hd; unfold taskLess, specBefore.
  destruct (Z.eqb_spec (priority a) (priority b)) as [E|E]; simpl.
  - destruct (deadline a) as [da|], (deadline b) as [db|].
    + destruct (Z.ltb_spec da db).
      * intuition lia.
      * split; [discriminate|]. intros [H0|[_ [H0|[H0 _]]]]; try lia.
        subst db. exfalso. apply (Hd da eq_refl eq_refl E).
    + intuition lia.
    + split; [discriminate|]. intros [H0|[_ []]]. lia.
    + rewrite Z.gtb_ltb, Z.ltb_lt. intuition lia.
  - rewrite Z.gtb_ltb, Z.ltb_lt. intuition lia.
Qed.

(** C4 on two tasks of equal priority and equal deadline, 30 and 60
    minutes: the specified order puts the 60-minute task first, but the
    comparator returns on the deadline test and never compares the efforts;
    it holds the two tasks equivalent, the sort leaves them as given and the
    30-minute task gets the first chunk of the day. *)
Theorem taskLess_equal_deadlines :
  let short := dueTask "S" 30 in
  let long := dueTask "L" 60 in
  specBefore long short /\
  taskLess long short = false /\
  taskLess short long = false /\
  sortBy taskLess [short; long] = [short; long] /\
  exists out n',
    scheduleTasksIntoWindows midnight 10 [wholeDay] [short; long] 0
    = Some (out, n') /\
    nth_error out 0
    = Some (mkEvent (taskTitle short) (mkDateTime 0 6 0) (mkDateTime 0 6 30)
                    kTaskBlue).
Proof.
  intros short long.
  split; [right; split; [reflexivity|right; split; reflexivity]|].
  split; [reflexivity|]. split; [reflexivity|]. split; [reflexivity|].
  eexists; eexists; split; [vm_compute; reflexivity|reflexivity].
Qed.

(* ====================================================================== *)
(** * The order of binary64                                                *)
(* ====================================================================== *)

Ltac cmp_cases :=
  repeat match goal with
         | |- context [(?x ?= ?y)%Z] =>
             destruct (Z.compare_spec x y); subst
         | |- context [PosDef.Pos.compare_cont Eq ?x ?y] =>
             change (PosDef.Pos.compare_cont Eq x y) with (Pos.compare x y);
             destruct (Pos.compare_spec x y); subst
         | H : context [(?x ?= ?y)%Z] |- _ =>
             destruct (Z.compare_spec x y); subst
         | H : context [PosDef.Pos.compare_cont Eq ?x ?y] |- _ =>
             change (PosDef.Pos.compare_cont Eq x y) with (Pos.compare x y)
               in H;
             destruct (Pos.compare_spec x y); subst
         end.

Lemma SFltb_trans (a b c : SpecFloat.spec_float) :
  SpecFloat.SFltb a b = true -> SpecFloat.SFltb b c = true ->
  SpecFloat.SFltb a c = true.
Proof.
  unfold SpecFloat.SFltb, SpecFloat.SFcompare.
  destruct a as [sa|sa| |sa ma ea], b as [sb|sb| |sb mb eb],
    c as [sc|sc| |sc mc ec];
    repeat match goal with s : bool |- _ => destruct s end;
    try discriminate; try reflexivity;
    intros H1 H2; cmp_cases; simpl in *; try discriminate; try reflexivity;
    try lia.
Qed.

Lemma SFltb_leb_trans (a b c : SpecFloat.spec_float) :
  SpecFloat.SFltb a b = true -> SpecFloat.SFleb b c = true ->
  SpecFloat.SFltb a c = true.
Proof.
  unfold SpecFloat.SFltb, SpecFloat.SFleb, SpecFloat.SFcompare.
  destruct a as [sa|sa| |sa ma ea], b as [sb|sb| |sb mb eb],
    c as [sc|sc| |sc mc ec];
    repeat match goal with s : bool |- _ => destruct s end;
    try discriminate; try reflexivity;
    intros H1 H2; cmp_cases; simpl in *; try discriminate; try reflexivity;
    try lia.
Qed.

Lemma SFltb_irrefl (a : SpecFloat.spec_float) : SpecFloat.SFltb a a = false.
Proof.
  unfold SpecFloat.SFltb, SpecFloat.SFcompare.
  destruct a as [sa|sa| |sa ma ea];
    repeat match goal with s : bool |- _ => destruct s end;
    try reflexivity; rewrite Z.compare_refl;
    change (PosDef.Pos.compare_cont Eq ma ma) with (Pos.compare ma ma);
    rewrite Pos.compare_refl; reflexivity.
Qed.

(** [<] on [double] is transitive and irreflexive, and [a < b <= c] gives
    [a < c]; a NaN makes every comparison false. *)
Lemma double_lt_trans (a b c : double) :
  (a <? b)%float = true -> (b <? c)%float = true -> (a <? c)%float = true.
Proof. rewrite !FloatAxioms.ltb_spec. apply SFltb_trans. Qed.

Lemma double_lt_le_trans (a b c : double) :
  (a <? b)%float = true -> (b <=? c)%float = true -> (a <? c)%float = true.
Proof.
  rewrite !FloatAxioms.ltb_spec, FloatAxioms.leb_spec. apply SFltb_leb_trans.
Qed.

Lemma double_lt_irrefl (a : double) : (a <? a)%float = false.
Proof. rewrite FloatAxioms.ltb_spec. apply SFltb_irrefl. Qed.

(* ====================================================================== *)
(** * Habits (C6)                                                          *)
(* ====================================================================== *)

Lemma chooseWindow_inv (h : Habit) (ws : list Slot) :
  forall (seen : list Slot) (bestIdx : option nat) (best : double),
    scanInv h seen bestIdx best ->
    exists best',
      scanInv h (seen ++ ws)
              (chooseWindow h ws (List.length seen) bestIdx best) best'.
Proof.
  induction ws as [|w ws IH]; intros seen bestIdx best [Hle Hbest]; simpl.
  - exists best. rewrite app_nil_r. split; assumption.
  - replace (seen ++ w :: ws) with ((seen ++ [w]) ++ ws)
      by (rewrite <- app_assoc; reflexivity).
    replace (S (List.length seen)) with (List.length (seen ++ [w]))
      by (rewrite length_app; simpl; lia).
    destruct (best <? habitScore w h)%float eqn:E; apply IH.
    + split.
      * intros w' Hin. apply in_app_or in Hin. destruct Hin as [Hin|[<-|[]]].
        -- destruct (habitScore w h <? habitScore w' h)%float eqn:E';
             [|reflexivity].
           pose proof (Hle w' Hin) as Hx.
           rewrite (double_lt_trans _ _ _ E E') in Hx. discriminate.
        -- apply double_lt_irrefl.
      * exists w. split; [|split; [reflexivity|split]].
        -- rewrite nth_error_app2 by lia. rewrite Nat.sub_diag. reflexivity.
        -- destruct bestIdx as [k|].
           ++ destruct Hbest as (w0 & _ & _ & Hs & _).
              exact (double_lt_trans _ _ _ Hs E).
           ++ rewrite <- Hbest. exact E.
        -- intros j w' Hj Hnth. rewrite nth_error_app1 in Hnth by exact Hj.
           destruct (habitScore w h <=? habitScore w' h)%float eqn:E';
             [|reflexivity].
           pose proof (Hle w' (nth_error_In _ _ Hnth)) as Hx.
           rewrite (double_lt_le_trans _ _ _ E E') in Hx. discriminate.
    + split.
      * intros w' Hin. apply in_app_or in Hin. destruct Hin as [Hin|[<-|[]]];
          auto.
      * destruct bestIdx as [k|]; [|assumption].
        destruct Hbest as (w0 & Hnth & Hb & Hs & Hearlier).
        exists w0. split; [|split; [assumption|split; [assumption|]]].
        -- rewrite nth_error_app1; [assumption|].
           apply nth_error_Some. congruence.
        -- intros j w' Hj Hnth'. apply (Hearlier j w' Hj).
           assert (k < List.length seen)%nat
             by (apply nth_error_Some; congruence).
           rewrite nth_error_app1 in Hnth' by lia. assumption.
Qed.


Lemma In_downFrom (n : nat) (z : Z) :
  0 <= z <= Z.of_nat n -> In z (downFrom n).
Proof.
  induction n as [|n IH]; intros Hz.
  - left. lia.
  - cbn [downFrom].
    destruct (Z.eq_dec z (Z.of_nat (S n))) as [->|Hne];
      [left; reflexivity|right; apply IH; lia].
Qed.

Lemma In_bools (b : bool) : In b [true; false].
Proof. destruct b; simpl; auto. Qed.

(** The check over the windows of up to 960 minutes and the priorities 1
    to 5, evaluated. *)
Lemma scoresAboveSentinel_day : scoresAboveSentinel 960 = true.
Proof. vm_compute. reflexivity. Qed.

Lemma habitScore_habitScoreOf (w : Slot) (h : Habit) :
  habitScore w h
  = habitScoreOf (minutesBetween (start w) (end_ w))
                 (anchor h =? "morning")%string (hour (start w) <=? 11)
                 (anchor h =? "after-lunch")%string
                 ((hour (start w) >=? 12) && (hour (start w) <=? 15))
                 (anchor h =? "evening")%string (hour (start w) >=? 17)
                 (h_priority h).
Proof. reflexivity. Qed.

(** On the inputs the specification gives [scheduleHabits] every window
    scores above the sentinel, in binary64. *)
Lemma habitScore_above_sentinel (w : Slot) (h : Habit) :
  dayWindow w -> specPriority h ->
  (sentinel <? habitScore w h)%float = true.
Proof.
  unfold dayWindow, specPriority. intros Hw Hp.
  rewrite habitScore_habitScoreOf.
  pose proof (minutesBetween_nonneg (start w) (end_ w)) as Hm.
  pose proof scoresAboveSentinel_day as H. unfold scoresAboveSentinel in H.
  rewrite forallb_forall in H.
  specialize (H _ (In_downFrom 960 _ (conj Hm Hw))). cbv beta in H.
  rewrite forallb_forall in H.
  assert (In (h_priority h) [1; 2; 3; 4; 5]) as Hin
    by (simpl; lia).
  specialize (H _ Hin). cbv beta in H.
  rewrite forallb_forall in H.
  specialize (H _ (In_bools (anchor h =? "morning")%string)). cbv beta in H.
  rewrite forallb_forall in H.
  specialize (H _ (In_bools (hour (start w) <=? 11))). cbv beta in H.
  rewrite forallb_forall in H.
  specialize (H _ (In_bools (anchor h =? "after-lunch")%string)).
  cbv beta in H.
  rewrite forallb_forall in H.
  specialize (H _ (In_bools ((hour (start w) >=? 12)
                             && (hour (start w) <=? 15)))).
  cbv beta in H.
  rewrite forallb_forall in H.
  specialize (H _ (In_bools (anchor h =? "evening")%string)). cbv beta in H.
  rewrite forallb_forall in H.
  specialize (H _ (In_bools (hour (start w) >=? 17))). cbv beta in H.
  exact H.
Qed.



(* ====================================================================== *)
(** * Pairs of a list                                                      *)
(* ====================================================================== *)

Lemma FOP_nth {A : Type} (R : A -> A -> Prop) (l : list A) :
  ForallOrdPairs R l ->
  forall (i j : nat) (a b : A),
    (i < j)%nat -> nth_error l i = Some a -> nth_error l j = Some b -> R a b.
Proof.
  induction 1 as [|x l Hx Hl IH]; intros i j a b Hij Ha Hb.
  - destruct i; discriminate.
  - destruct j as [|j]; [lia|]. simpl in Hb.
    destruct i as [|i]; simpl in Ha.
    + injection Ha as <-. rewrite Forall_forall in Hx.
      apply Hx. eapply nth_error_In; eauto.
    + apply (IH i j); auto; lia.
Qed.

Lemma FOP_app {A : Type} (R : A -> A -> Prop) (l1 l2 : list A) :
  ForallOrdPairs R l1 -> ForallOrdPairs R l2 ->
  (forall a b, In a l1 -> In b l2 -> R a b) ->
  ForallOrdPairs R (l1 ++ l2).
Proof.
  induction 1 as [|x l Hx Hl IH]; intros H2 H12; simpl; [assumption|].
  constructor.
  - apply Forall_app; split; [assumption|].
    apply Forall_forall; intros b Hb. apply H12; [left; reflexivity|assumption].
  - apply IH; [assumption|]. intros a b Ha Hb. apply H12; [right|]; assumption.
Qed.

(* ====================================================================== *)
(** * Overlapping buffers (C1) and short chunks (C10), by evaluation       *)
(* ====================================================================== *)

(** C1, as stated, fails: a splittable 240-minute task with chunks of at
    most 120 minutes on an empty day gets the chunks 06:00-08:00 and
    08:10-10:10; the buffer after the first chunk, 08:00-08:10, and the
    buffer before the second, 08:05-08:10, overlap (by [overlapMin], for 5
    minutes). *)
Lemma planDay_buffers_overlap :
  exists out n',
    planDay midnight noPools 10 0 [] [mkTask "A" 240 120 true] [] 0
    = Some (out, n') /\
    ~ noOverlap out /\
    exists a b,
      nth_error out 2 = Some a /\ nth_error out 4 = Some b /\
      overlapMin (getStartTime a) (getEndTime a)
                 (getStartTime b) (getEndTime b) = 5.
Proof.
  eexists; eexists; split; [vm_compute; reflexivity|]. split.
  - intros H.
    refine (FOP_nth _ _ H 2 4 _ _ _ eq_refl eq_refl _); [lia|].
    unfold eventsOverlap, overlaps; simpl. lia.
  - eexists; eexists; split; [reflexivity|]. split; [reflexivity|].
    vm_compute; reflexivity.
Qed.

(** C10: [planDay] can emit a task chunk shorter than 15 minutes.  A
    splittable task of 130 minutes with chunks of at most 120 gets a second
    chunk of the 10 minutes that remain; a task whose [maxChunkMin] is 10
    gets a first chunk of 10 minutes. *)
Theorem planDay_short_chunk :
  (exists out n' b,
      planDay midnight noPools 10 0 [] [mkTask "B" 130 120 true] [] 0
      = Some (out, n') /\
      nth_error out 3 = Some b /\ isChunk b /\
      getEndTime b - getStartTime b = 10 * 60000 /\
      minutesBetween (getStartTime b) (getEndTime b) < 15) /\
  (exists out n' b,
      planDay midnight noPools 10 0 [] [mkTask "C" 30 10 false] [] 0
      = Some (out, n') /\
      nth_error out 0 = Some b /\ isChunk b /\
      getEndTime b - getStartTime b = 10 * 60000 /\
      minutesBetween (getStartTime b) (getEndTime b) < 15).
Proof.
  split; eexists; eexists; eexists.
  - split; [vm_compute; reflexivity|].
    split; [reflexivity|]. split; [reflexivity|].
    split; vm_compute; reflexivity.
  - split; [vm_compute; reflexivity|].
    split; [reflexivity|]. split; [reflexivity|].
    split; vm_compute; reflexivity.
Qed.

(* ====================================================================== *)
(** * The carving loop                                                     *)
(* ====================================================================== *)

(** The scan returns the index of a slot of at least 15 minutes. *)
Lemma chooseSlot_valid (clock : nat -> QDateTime) (t : Task)
      (pool : list MSlot) :
  forall (base : nat) (bestIdx : option nat) (bestScore : Q) (n n1 i : nat),
    chooseSlot clock t pool base bestIdx bestScore n = (Some i, n1) ->
    bestIdx = Some i \/
    ((base <= i)%nat /\
     exists p, nth_error pool (i - base) = Some p /\
               15 <= minutesBetween (seg_s p) (seg_e p)).
Proof.
  induction pool as [|p rest IH]; simpl; intros base bi bs n n1 i H.
  - injection H as -> _. left; reflexivity.
  - assert (forall bi' bs' n',
               chooseSlot clock t rest (S base) bi' bs' n' = (Some i, n1) ->
               bi' = Some i \/
               ((base <= i)%nat /\
                exists q, nth_error (p :: rest) (i - base) = Some q /\
                          15 <= minutesBetween (seg_s q) (seg_e q))) as Hrest.
    { intros bi' bs' n' H'. destruct (IH _ _ _ _ _ _ H') as [E|(Hle & q & Hq & Hm)].
      - left; exact E.
      - right. split; [lia|]. exists q. split; [|exact Hm].
        replace (i - base)%nat with (S (i - S base)) by lia. exact Hq. }
    destruct (Z.ltb_spec (minutesBetween (seg_s p) (seg_e p)) 15) as [Hlt|Hge].
    + destruct (Hrest _ _ _ H) as [E|E]; [left|right]; exact E.
    + destruct (slotScore clock (Build_Slot (seg_s p) (seg_e p)) t n)
        as [sc n'].
      destruct (Qgtb sc bs).
      * destruct (Hrest _ _ _ H) as [E|E]; [|right; exact E].
        injection E as <-. right. split; [lia|].
        exists p. rewrite Nat.sub_diag. split; [reflexivity|exact Hge].
      * destruct (Hrest _ _ _ H) as [E|E]; [left|right]; exact E.
Qed.

Lemma chooseSlot_usable (clock : nat -> QDateTime) (t : Task)
      (pool : list MSlot) (n n1 i : nat) :
  chooseSlot clock t pool 0 None unusable n = (Some i, n1) -> usable pool i.
Proof.
  intros H. destruct (chooseSlot_valid _ _ _ _ _ _ _ _ _ H)
    as [E|(_ & p & Hp & Hm)]; [discriminate|].
  rewrite Nat.sub_0_r in Hp. exists p; split; assumption.
Qed.

(** With no slot of 15 minutes the scan finds nothing. *)
Lemma chooseSlot_none (clock : nat -> QDateTime) (t : Task)
      (pool : list MSlot) :
  Forall (fun p => minutesBetween (seg_s p) (seg_e p) < 15) pool ->
  forall (base : nat) (bestIdx : option nat) (bestScore : Q) (n : nat),
    chooseSlot clock t pool base bestIdx bestScore n = (bestIdx, n).
Proof.
  induction 1 as [|p rest Hp _ IH]; simpl; intros base bi bs n; [reflexivity|].
  destruct (Z.ltb_spec (minutesBetween (seg_s p) (seg_e p)) 15); [|lia].
  apply IH.
Qed.

(** One turn of the loop. *)
Lemma carve_S (clock : nat -> QDateTime) (fuel : nat) (needMin : Z)
      (t : Task) (pool : list MSlot) (acc : list Event) (n : nat) :
  carve clock (S fuel) needMin t pool acc n =
  if needMin >? 0 then
    let '(bestIdx, n1) := chooseSlot clock t pool 0 None unusable n in
    match bestIdx with
    | None => Some (Build_CarveResult (needMin <=? 0) pool acc n1)
    | Some i =>
        let chosen := nth i pool (Build_Seg 0 0) in
        let needMin' := needMin - chunkLen t needMin chosen in
        if negb (splitOK t)
        then Some (Build_CarveResult (needMin' <=? 0) (carved t needMin i pool)
                                     (acc ++ placed t needMin chosen) n1)
        else carve clock fuel needMin' t (carved t needMin i pool)
                   (acc ++ placed t needMin chosen) n1
    end
  else Some (Build_CarveResult (needMin <=? 0) pool acc n).
Proof. reflexivity. Qed.

Lemma carve_O (clock : nat -> QDateTime) (needMin : Z)
      (t : Task) (pool : list MSlot) (acc : list Event) (n : nat) :
  carve clock O needMin t pool acc n =
  if needMin >? 0 then None
  else Some (Build_CarveResult (needMin <=? 0) pool acc n).
Proof. reflexivity. Qed.

(** A property of the pool and the accumulated blocks that every iteration
    keeps is kept by the whole loop. *)
Lemma carve_preserves (clock : nat -> QDateTime) (t : Task)
      (Inv : list MSlot -> list Event -> Prop) :
  (forall pool acc needMin i,
      Inv pool acc -> 0 < needMin -> usable pool i ->
      Inv (carved t needMin i pool)
          (acc ++ placed t needMin (nth i pool (Build_Seg 0 0)))) ->
  forall fuel needMin pool acc n r,
    Inv pool acc ->
    carve clock fuel needMin t pool acc n = Some r ->
    Inv (cr_pool r) (cr_acc r).
Proof.
  intros Hstep; induction fuel as [|fuel IH]; intros needMin pool acc n r HI H.
  - rewrite carve_O in H. destruct (needMin >? 0); [discriminate|].
    injection H as <-. exact HI.
  - rewrite carve_S in H.
    destruct (Z.gtb_spec needMin 0) as [Hpos|Hneg];
      [|injection H as <-; exact HI].
    destruct (chooseSlot clock t pool 0 None unusable n) as [[i|] n1] eqn:E;
      [|injection H as <-; exact HI].
    apply chooseSlot_usable in E.
    specialize (Hstep pool acc needMin i HI ltac:(lia) E).
    cbv zeta in H. destruct (negb (splitOK t)).
    + injection H as <-. exact Hstep.
    + exact (IH _ _ _ _ _ Hstep H).
Qed.

Lemma placeTasks_preserves (clock : nat -> QDateTime)
      (Inv : list MSlot -> list Event -> Prop) (tasks : list Task) :
  (forall t pool acc needMin i,
      In t tasks -> Inv pool acc -> 0 < needMin -> usable pool i ->
      Inv (carved t needMin i pool)
          (acc ++ placed t needMin (nth i pool (Build_Seg 0 0)))) ->
  forall fuel pool out n out' n',
    Inv pool out ->
    placeTasks clock fuel tasks pool out n = Some (out', n') ->
    exists pool', Inv pool' out'.
Proof.
  induction tasks as [|t tasks IH]; simpl; intros Hstep fuel pool out n out' n' HI H.
  - injection H as <- _. exists pool; exact HI.
  - destruct (carve clock fuel (Z.max 15 (estimateMin t)) t pool out n)
      as [r|] eqn:E; [|discriminate].
    refine (IH _ _ _ _ _ _ _ _ H).
    + intros t' pool0 acc0 need0 i0 Hin. apply Hstep. right; exact Hin.
    + eapply (carve_preserves clock t Inv); [|exact HI|exact E].
      intros pool0 acc0 need0 i0. apply Hstep. left; reflexivity.
Qed.

Lemma In_setAt {A : Type} (i : nat) (x y : A) (l : list A) :
  In x (setAt i y l) -> x = y \/ In x l.
Proof.
  revert i; induction l as [|z l IH]; intros [|i]; simpl; try tauto.
  - intros [H|H]; auto.
  - intros [H|H]; auto. destruct (IH _ H); auto.
Qed.

Lemma In_removeAt {A : Type} (i : nat) (x : A) (l : list A) :
  In x (removeAt i l) -> In x l.
Proof.
  revert i; induction l as [|z l IH]; intros [|i]; simpl; try tauto.
  intros [H|H]; eauto.
Qed.

Lemma In_carved (t : Task) (needMin : Z) (i : nat) (pool : list MSlot)
      (q : MSlot) :
  In q (carved t needMin i pool) ->
  In q pool \/
  q = Build_Seg (getEndTime
                   (bufferAfter (chunkOf t needMin (nth i pool (Build_Seg 0 0)))))
                (seg_e (nth i pool (Build_Seg 0 0))).
Proof.
  unfold carved; cbv zeta.
  destruct (_ >=? _); intros H.
  - apply In_removeAt in H. apply In_setAt in H. tauto.
  - apply In_setAt in H. tauto.
Qed.

Lemma usable_nth (pool : list MSlot) (i : nat) :
  usable pool i ->
  In (nth i pool (Build_Seg 0 0)) pool /\
  nth_error pool i = Some (nth i pool (Build_Seg 0 0)) /\
  15 <= minutesBetween (seg_s (nth i pool (Build_Seg 0 0)))
                       (seg_e (nth i pool (Build_Seg 0 0))).
Proof.
  intros (p & Hp & Hm). rewrite (nth_error_nth _ _ _ Hp).
  split; [eapply nth_error_In; eauto|]. split; assumption.
Qed.

Lemma buffers_not_chunks (b : Event) :
  ~ isChunk (bufferBefore b) /\ ~ isChunk (bufferAfter b).
Proof. split; unfold isChunk; simpl; discriminate. Qed.

(* ====================================================================== *)
(** * Chunks and their buffers (C5)                                        *)
(* ====================================================================== *)

(** The three blocks of an iteration of [carve] are the blocks of the cut
    it makes. *)
Lemma cutBlocks_buffers (c : Cut) :
  cutBlocks c
  = [cutChunk c; bufferBefore (cutChunk c); bufferAfter (cutChunk c)].
Proof.
  unfold cutBlocks, bufferBefore, bufferAfter, addSecs.
  replace (getStartTime (cutChunk c) + -5 * 60 * 1000)
    with (getStartTime (cutChunk c) - 5 * 60000) by lia.
  replace (getEndTime (cutChunk c) + 10 * 60 * 1000)
    with (getEndTime (cutChunk c) + 10 * 60000) by lia.
  reflexivity.
Qed.

Lemma placed_cutBlocks (t : Task) (needMin : Z) (chosen : MSlot) :
  placed t needMin chosen = cutBlocks (Build_Cut t needMin chosen).
Proof.
  rewrite cutBlocks_buffers. unfold placed.
  assert (chunkOf t needMin chosen = cutChunk (Build_Cut t needMin chosen))
    as ->; [|reflexivity].
  unfold chunkOf, cutChunk, chunkLen, cutLen, addSecs.
  cbn [cut_task cut_left cut_frag]. f_equal. lia.
Qed.

(** One run of [carve] is a ledger of cuts of its task. *)
Lemma carve_cuts (clock : nat -> QDateTime) (t : Task) :
  forall fuel needMin pool acc n r,
    carve clock fuel needMin t pool acc n = Some r ->
    exists cuts,
      cr_acc r = acc ++ flat_map cutBlocks cuts /\
      taskCuts t needMin pool cuts (cr_pool r).
Proof.
  induction fuel as [|fuel IH]; intros needMin pool acc n r H.
  - rewrite carve_O in H. destruct (needMin >? 0); [discriminate|].
    injection H as <-. exists []. cbn [cr_acc cr_pool flat_map].
    rewrite app_nil_r. split; [reflexivity|constructor].
  - rewrite carve_S in H.
    destruct (Z.gtb_spec needMin 0) as [Hpos|Hneg].
    2:{ injection H as <-. exists []. cbn [cr_acc cr_pool flat_map].
        rewrite app_nil_r. split; [reflexivity|constructor]. }
    destruct (chooseSlot clock t pool 0 None unusable n) as [[i|] n1] eqn:E.
    2:{ injection H as <-. exists []. cbn [cr_acc cr_pool flat_map].
        rewrite app_nil_r. split; [reflexivity|constructor]. }
    apply chooseSlot_usable in E. apply usable_nth in E.
    destruct E as (_ & Hnth & Hav).
    set (chosen := nth i pool (Build_Seg 0 0)) in *.
    cbv zeta in H. destruct (splitOK t) eqn:Es; cbn [negb] in H.
    + apply IH in H. destruct H as (cuts & Hacc & Hcuts).
      exists (Build_Cut t needMin chosen :: cuts). split.
      * rewrite Hacc, <- app_assoc, placed_cutBlocks. reflexivity.
      * apply tc_cut with (i := i); try assumption.
        intros _; exact Es.
    + injection H as <-. cbn [cr_acc cr_pool].
      exists [Build_Cut t needMin chosen]. split.
      * cbn [flat_map]. rewrite app_nil_r, placed_cutBlocks. reflexivity.
      * apply tc_cut with (i := i); try assumption.
        -- intros Hne; exfalso; apply Hne; reflexivity.
        -- constructor.
Qed.

Lemma placeTasks_cuts (clock : nat -> QDateTime) (tasks : list Task) :
  forall fuel pool out n out' n',
    placeTasks clock fuel tasks pool out n = Some (out', n') ->
    exists cuts,
      out' = out ++ flat_map cutBlocks cuts /\ planCuts tasks pool cuts.
Proof.
  induction tasks as [|t rest IH]; intros fuel pool out n out' n' H.
  - injection H as <- _. exists []. cbn [flat_map]. rewrite app_nil_r.
    split; [reflexivity|constructor].
  - cbn [placeTasks] in H. cbv zeta in H.
    destruct (carve clock fuel (Z.max 15 (estimateMin t)) t pool out n)
      as [r|] eqn:E; [|discriminate].
    apply carve_cuts in E. destruct E as (cuts & Hacc & Hcuts).
    apply IH in H. destruct H as (more & Hout & Hmore).
    exists (cuts ++ more). split.
    + rewrite Hout, Hacc, flat_map_app, <- app_assoc. reflexivity.
    + econstructor; eassumption.
Qed.

(** Without cuts every task list has a ledger. *)
Lemma planCuts_none (tasks : list Task) (pool : list MSlot) :
  planCuts tasks pool [].
Proof.
  induction tasks as [|t rest IH]; [constructor|].
  change (@nil Cut) with (@nil Cut ++ @nil Cut).
  apply pc_task with (pool' := pool); [constructor|exact IH].
Qed.

(** Every cut of a ledger is a cut of its task, made with effort left and
    from a fragment of at least 15 minutes. *)
Lemma taskCuts_Forall (t : Task) (left : Z) (pool : list MSlot)
      (cuts : list Cut) (pool' : list MSlot) :
  taskCuts t left pool cuts pool' ->
  Forall (fun c => cut_task c = t /\ 0 < cut_left c /\
                   15 <= minutesBetween (seg_s (cut_frag c))
                                        (seg_e (cut_frag c))) cuts.
Proof.
  induction 1; constructor; [|assumption].
  cbn [cut_task cut_left cut_frag]. auto.
Qed.

Lemma planCuts_Forall (tasks : list Task) (pool : list MSlot)
      (cuts : list Cut) :
  planCuts tasks pool cuts ->
  Forall (fun c => In (cut_task c) tasks /\ 0 < cut_left c /\
                   15 <= minutesBetween (seg_s (cut_frag c))
                                        (seg_e (cut_frag c))) cuts.
Proof.
  induction 1 as [|t rest pool cuts pool' more Ht _ IH]; [constructor|].
  apply Forall_app. split.
  - eapply Forall_impl; [|exact (taskCuts_Forall _ _ _ _ _ Ht)].
    intros c (-> & H1 & H2). split; [left; reflexivity|auto].
  - eapply Forall_impl; [|exact IH].
    intros c (H0 & H1 & H2). split; [right; exact H0|auto].
Qed.

(** C5: the output of [scheduleTasksIntoWindows] is a ledger of cuts.  The
    tasks are cut one after the other, in some order of the task list;
    each task starts with max(15, estimate) minutes of effort left and the
    pool starts as the windows.  Every cut is made with effort left, from a
    fragment of the current pool that has at least 15 minutes: its chunk
    starts at the start of that fragment and lasts min(maxChunkMin, effort
    left, minutes of the fragment); the effort left then goes down by that
    length and the fragment starts where the chunk's 10-minute buffer ends.
    The output is, cut by cut, the chunk, its 5-minute buffer and its
    10-minute buffer.  So every task chunk of the output comes with a
    5-minute buffer that ends exactly at the chunk's start and a 10-minute
    buffer that starts exactly at its end, both in the same output, and is
    the chunk of a cut of the ledger. *)
Theorem chunks_are_buffered (clock : nat -> QDateTime) (fuel : nat)
        (windows : list Slot) (tasks : list Task) (n : nat)
        (out : list Event) (n' : nat) :
  scheduleTasksIntoWindows clock fuel windows tasks n = Some (out, n') ->
  exists order cuts,
    Permutation order tasks /\
    planCuts order (map slotSeg windows) cuts /\
    out = flat_map cutBlocks cuts /\
    forall b, In b out -> isChunk b ->
      In (bufferBefore b) out /\ In (bufferAfter b) out /\
      getEndTime (bufferBefore b) = getStartTime b /\
      getEndTime (bufferBefore b) - getStartTime (bufferBefore b)
      = 5 * 60000 /\
      getStartTime (bufferAfter b) = getEndTime b /\
      getEndTime (bufferAfter b) - getStartTime (bufferAfter b)
      = 10 * 60000 /\
      exists c,
        In c cuts /\ b = cutChunk c /\
        In (cut_task c) tasks /\ 0 < cut_left c /\
        15 <= minutesBetween (seg_s (cut_frag c)) (seg_e (cut_frag c)) /\
        getTitle b = taskTitle (cut_task c) /\
        getStartTime b = seg_s (cut_frag c) /\
        getEndTime b - getStartTime b =
          Z.min (maxChunkMin (cut_task c))
                (Z.min (cut_left c)
                       (minutesBetween (seg_s (cut_frag c))
                                       (seg_e (cut_frag c))))
          * 60000.
Proof.
  intros H.
  assert (exists cuts,
             out = flat_map cutBlocks cuts /\
             planCuts (sortBy taskLess tasks) (map slotSeg windows) cuts)
    as (cuts & Hout & Hcuts).
  { unfold scheduleTasksIntoWindows in H.
    destruct (isEmpty tasks || isEmpty windows).
    - injection H as <- _. exists []. split; [reflexivity|].
      apply planCuts_none.
    - apply placeTasks_cuts in H. exact H. }
  exists (sortBy taskLess tasks), cuts.
  split; [apply sortBy_perm|]. split; [exact Hcuts|]. split; [exact Hout|].
  pose proof (planCuts_Forall _ _ _ Hcuts) as Hall.
  rewrite Forall_forall in Hall.
  intros b Hb Hchunk. rewrite Hout in Hb. apply in_flat_map in Hb.
  destruct Hb as (c & Hc & Hb).
  rewrite cutBlocks_buffers in Hb.
  destruct Hb as [<-|[<-|[<-|[]]]];
    [|exfalso; apply (proj1 (buffers_not_chunks _) Hchunk)
     |exfalso; apply (proj2 (buffers_not_chunks _) Hchunk)].
  assert (forall x, In x (cutBlocks c) -> In x out) as Hin.
  { intros x Hx. rewrite Hout. apply in_flat_map. exists c; split; assumption. }
  rewrite cutBlocks_buffers in Hin.
  split; [apply Hin; simpl; tauto|]. split; [apply Hin; simpl; tauto|].
  split; [reflexivity|].
  split; [unfold bufferBefore, addSecs; simpl; lia|].
  split; [reflexivity|].
  split; [unfold bufferAfter, addSecs; simpl; lia|].
  exists c. destruct (Hall c Hc) as (Ht & Hleft & Hfrag).
  split; [exact Hc|]. split; [reflexivity|].
  split; [eapply Permutation_in; [apply sortBy_perm|exact Ht]|].
  split; [exact Hleft|]. split; [exact Hfrag|].
  split; [reflexivity|]. split; [reflexivity|].
  unfold cutChunk, cutLen; simpl. lia.
Qed.

Lemma chunks_are_buffered_witness :
  let t := mkTask "A" 240 120 true in
  let b := mkEvent (taskTitle t) (mkDateTime 0 6 0) (mkDateTime 0 8 0)
                   kTaskBlue in
  let b' := mkEvent (taskTitle t) (mkDateTime 0 8 10) (mkDateTime 0 10 10)
                    kTaskBlue in
  exists order cuts,
    Permutation order [t] /\
    planCuts order [slotSeg wholeDay] cuts /\
    [b; bufferBefore b; bufferAfter b; b'; bufferBefore b'; bufferAfter b']
    = flat_map cutBlocks cuts.
Proof.
  intros t b b'.
  destruct (chunks_are_buffered midnight 10 [wholeDay] [t] 0
              [b; bufferBefore b; bufferAfter b;
               b'; bufferBefore b'; bufferAfter b'] 2)
    as (order & cuts & H1 & H2 & H3 & _).
  - vm_compute; reflexivity.
  - exists order, cuts. split; [exact H1|]. split; [exact H2|exact H3].
Defined.

(* ====================================================================== *)
(** * Fuel and clock (C9)                                                  *)
(* ====================================================================== *)

(** More fuel does not change a result. *)
Lemma carve_fuel_mono (clock : nat -> QDateTime) (t : Task) :
  forall fuel fuel' needMin pool acc n r,
    (fuel <= fuel')%nat ->
    carve clock fuel needMin t pool acc n = Some r ->
    carve clock fuel' needMin t pool acc n = Some r.
Proof.
  induction fuel as [|fuel IH]; intros fuel' needMin pool acc n r Hle H.
  - rewrite carve_O in H. destruct (needMin >? 0) eqn:E; [discriminate|].
    destruct fuel'; [rewrite carve_O|rewrite carve_S]; rewrite E; exact H.
  - destruct fuel' as [|fuel']; [lia|].
    rewrite carve_S in H |- *.
    destruct (needMin >? 0); [|exact H].
    destruct (chooseSlot clock t pool 0 None unusable n) as [[i|] n1];
      [|exact H].
    cbv zeta in H |- *. destruct (negb (splitOK t)); [exact H|].
    apply IH; [lia|exact H].
Qed.

Lemma placeTasks_fuel_mono (clock : nat -> QDateTime) (tasks : list Task) :
  forall fuel fuel' pool out n r,
    (fuel <= fuel')%nat ->
    placeTasks clock fuel tasks pool out n = Some r ->
    placeTasks clock fuel' tasks pool out n = Some r.
Proof.
  induction tasks as [|t tasks IH]; simpl; intros fuel fuel' pool out n r Hle H;
    [exact H|].
  destruct (carve clock fuel (Z.max 15 (estimateMin t)) t pool out n)
    as [r1|] eqn:E; [|discriminate].
  rewrite (carve_fuel_mono clock t _ _ _ _ _ _ _ Hle E).
  eapply IH; eauto.
Qed.

Section StillClock.

(** Two clocks that both stand still at [now]. *)
Variables (clock1 clock2 : nat -> QDateTime) (now : QDateTime).
Hypothesis still1 : forall k, clock1 k = now.
Hypothesis still2 : forall k, clock2 k = now.

Lemma slotScore_still (w : Slot) (t : Task) (n1 n2 : nat) :
  fst (slotScore clock1 w t n1) = fst (slotScore clock2 w t n2).
Proof.
  unfold slotScore, currentDateTime.
  destruct (minutesBetween (start w) (end_ w) <? 15); [reflexivity|].
  destruct (deadline t); cbn [fst]; rewrite !still1, !still2; reflexivity.
Qed.

Lemma chooseSlot_still (t : Task) (pool : list MSlot) :
  forall base bestIdx bestScore n1 n2,
    fst (chooseSlot clock1 t pool base bestIdx bestScore n1) =
    fst (chooseSlot clock2 t pool base bestIdx bestScore n2).
Proof.
  induction pool as [|p rest IH]; simpl; intros base bi bs n1 n2;
    [reflexivity|].
  destruct (minutesBetween (seg_s p) (seg_e p) <? 15); [apply IH|].
  pose proof (slotScore_still (Build_Slot (seg_s p) (seg_e p)) t n1 n2) as Hs.
  destruct (slotScore clock1 (Build_Slot (seg_s p) (seg_e p)) t n1)
    as [sc1 m1].
  destruct (slotScore clock2 (Build_Slot (seg_s p) (seg_e p)) t n2)
    as [sc2 m2].
  simpl in Hs; subst sc2.
  destruct (Qgtb sc1 bs); apply IH.
Qed.

Lemma carve_still (t : Task) :
  forall fuel1 fuel2 needMin pool acc n1 n2 r1 r2,
    carve clock1 fuel1 needMin t pool acc n1 = Some r1 ->
    carve clock2 fuel2 needMin t pool acc n2 = Some r2 ->
    placedAll r1 = placedAll r2 /\ cr_pool r1 = cr_pool r2 /\
    cr_acc r1 = cr_acc r2.
Proof.
  induction fuel1 as [|fuel1 IH];
    intros fuel2 needMin pool acc n1 n2 r1 r2 H1 H2.
  - rewrite carve_O in H1. destruct (needMin >? 0) eqn:E; [discriminate|].
    destruct fuel2; [rewrite carve_O in H2|rewrite carve_S in H2];
      rewrite E in H2; injection H1 as <-; injection H2 as <-; auto.
  - rewrite carve_S in H1.
    destruct (needMin >? 0) eqn:E.
    + destruct fuel2 as [|fuel2];
        [rewrite carve_O, E in H2; discriminate|].
      rewrite carve_S, E in H2.
      pose proof (chooseSlot_still t pool 0%nat None unusable n1 n2) as Hc.
      destruct (chooseSlot clock1 t pool 0 None unusable n1) as [bi1 m1].
      destruct (chooseSlot clock2 t pool 0 None unusable n2) as [bi2 m2].
      simpl in Hc; subst bi2.
      destruct bi1 as [i|];
        [|injection H1 as <-; injection H2 as <-; auto].
      cbv zeta in H1, H2. destruct (negb (splitOK t)).
      * injection H1 as <-; injection H2 as <-; auto.
      * eapply IH; eauto.
    + destruct fuel2; [rewrite carve_O in H2|rewrite carve_S in H2];
        rewrite E in H2; injection H1 as <-; injection H2 as <-; auto.
Qed.

Lemma placeTasks_still (tasks : list Task) :
  forall fuel1 fuel2 pool out n1 n2 out1 out2 m1 m2,
    placeTasks clock1 fuel1 tasks pool out n1 = Some (out1, m1) ->
    placeTasks clock2 fuel2 tasks pool out n2 = Some (out2, m2) ->
    out1 = out2.
Proof.
  induction tasks as [|t tasks IH]; simpl;
    intros fuel1 fuel2 pool out n1 n2 out1 out2 m1 m2 H1 H2.
  - injection H1 as <- _; injection H2 as <- _; reflexivity.
  - destruct (carve clock1 fuel1 (Z.max 15 (estimateMin t)) t pool out n1)
      as [r1|] eqn:E1; [|discriminate].
    destruct (carve clock2 fuel2 (Z.max 15 (estimateMin t)) t pool out n2)
      as [r2|] eqn:E2; [|discriminate].
    destruct (carve_still t _ _ _ _ _ _ _ _ _ E1 E2) as (_ & Hp & Ha).
    rewrite Hp, Ha in H1. eapply IH; eauto.
Qed.

Lemma planDay_still (self : SuperAI) (fuel1 fuel2 : nat) (day : QDate)
      (existing : list Event) (tasks : list Task) (habits : list Habit)
      (n1 n2 : nat) (out1 out2 : list Event) (m1 m2 : nat) :
  planDay clock1 self fuel1 day existing tasks habits n1 = Some (out1, m1) ->
  planDay clock2 self fuel2 day existing tasks habits n2 = Some (out2, m2) ->
  out1 = out2.
Proof.
  unfold planDay, scheduleTasksIntoWindows.
  destruct (isEmpty (if isEmpty tasks then m_tasks self else tasks)
            || isEmpty (freeWindows day existing 15)).
  - intros H1 H2; injection H1 as <- _; injection H2 as <- _; reflexivity.
  - destruct (placeTasks clock1 _ _ _ _ _) as [[p1 k1]|] eqn:E1;
      [|discriminate].
    destruct (placeTasks clock2 _ _ _ _ _) as [[p2 k2]|] eqn:E2;
      [|discriminate].
    pose proof (placeTasks_still _ _ _ _ _ _ _ _ _ _ _ E1 E2) as ->.
    intros H1 H2; injection H1 as <- _; injection H2 as <- _; reflexivity.
Qed.

(** With the same fuel the two runs also run out of fuel together. *)
Lemma carve_still_fuel (t : Task) :
  forall fuel needMin pool acc n1 n2,
    sameOutcome (carve clock1 fuel needMin t pool acc n1)
                (carve clock2 fuel needMin t pool acc n2).
Proof.
  induction fuel as [|fuel IH]; intros needMin pool acc n1 n2.
  - rewrite !carve_O. destruct (needMin >? 0); simpl; auto.
  - rewrite !carve_S. destruct (needMin >? 0); [|simpl; auto].
    pose proof (chooseSlot_still t pool 0%nat None unusable n1 n2) as Hc.
    destruct (chooseSlot clock1 t pool 0 None unusable n1) as [bi1 m1].
    destruct (chooseSlot clock2 t pool 0 None unusable n2) as [bi2 m2].
    simpl in Hc; subst bi2.
    destruct bi1 as [i|]; [|simpl; auto].
    cbv zeta. destruct (negb (splitOK t)); [simpl; auto|apply IH].
Qed.

Lemma placeTasks_still_fuel (tasks : list Task) :
  forall fuel pool out n1 n2,
    option_map fst (placeTasks clock1 fuel tasks pool out n1) =
    option_map fst (placeTasks clock2 fuel tasks pool out n2).
Proof.
  induction tasks as [|t tasks IH]; simpl; intros fuel pool out n1 n2;
    [reflexivity|].
  pose proof (carve_still_fuel t fuel (Z.max 15 (estimateMin t)) pool out n1 n2)
    as Hs.
  destruct (carve clock1 fuel (Z.max 15 (estimateMin t)) t pool out n1)
    as [r1|];
    destruct (carve clock2 fuel (Z.max 15 (estimateMin t)) t pool out n2)
    as [r2|]; simpl in Hs; try contradiction; [|reflexivity].
  destruct Hs as (_ & -> & ->). apply IH.
Qed.

Lemma planDay_still_fuel (self : SuperAI) (fuel : nat) (day : QDate)
      (existing : list Event) (tasks : list Task) (habits : list Habit)
      (n1 n2 : nat) :
  option_map fst (planDay clock1 self fuel day existing tasks habits n1) =
  option_map fst (planDay clock2 self fuel day existing tasks habits n2).
Proof.
  unfold planDay, scheduleTasksIntoWindows.
  destruct (isEmpty (if isEmpty tasks then m_tasks self else tasks)
            || isEmpty (freeWindows day existing 15)); [reflexivity|].
  pose proof (placeTasks_still_fuel
                (sortBy taskLess (if isEmpty tasks then m_tasks self else tasks))
                fuel (map slotSeg (freeWindows day existing 15)) [] n1 n2)
    as Hs.
  destruct (placeTasks clock1 _ _ _ _ _) as [[p1 k1]|];
    destruct (placeTasks clock2 _ _ _ _ _) as [[p2 k2]|];
    simpl in Hs; try discriminate; [|reflexivity].
  injection Hs as ->. reflexivity.
Qed.

End StillClock.

(** C9: with the clock held at a fixed [now], two runs of [planDay] on the
    same planner state, day, existing events, task pool and habit pool have
    the same outcome, whatever number of readings the clock has served
    before each run: given the same fuel they return the same block list or
    run out of fuel together, and two runs that return, return the same
    block list whatever fuel each was given. *)
Theorem planDay_deterministic (clock : nat -> QDateTime) (now : QDateTime)
        (self : SuperAI) (day : QDate) (existing : list Event)
        (tasks : list Task) (habits : list Habit) :
  (forall k, clock k = now) ->
  (forall fuel n1 n2,
      option_map fst (planDay clock self fuel day existing tasks habits n1) =
      option_map fst (planDay clock self fuel day existing tasks habits n2))
  /\
  (forall fuel1 fuel2 n1 n2 out1 out2 m1 m2,
      planDay clock self fuel1 day existing tasks habits n1 = Some (out1, m1) ->
      planDay clock self fuel2 day existing tasks habits n2 = Some (out2, m2) ->
      out1 = out2).
Proof.
  intros Hstill. split.
  - intros fuel n1 n2.
    apply (planDay_still_fuel clock clock now Hstill Hstill).
  - intros fuel1 fuel2 n1 n2 out1 out2 m1 m2.
    apply (planDay_still clock clock now Hstill Hstill).
Qed.

Lemma planDay_deterministic_witness :
  exists out1 m1 out2 m2,
    planDay midnight noPools 10 0 [busyEvent 9 0 10 0]
            [mkTask "A" 240 120 true] [Build_Habit "walk" 20 "morning" 3] 0
    = Some (out1, m1) /\
    planDay midnight noPools 20 0 [busyEvent 9 0 10 0]
            [mkTask "A" 240 120 true] [Build_Habit "walk" 20 "morning" 3] 5
    = Some (out2, m2) /\
    out1 = out2.
Proof.
  do 4 eexists.
  split; [vm_compute; reflexivity|]. split; [vm_compute; reflexivity|].
  eapply (proj2 (planDay_deterministic midnight 0 noPools 0
                   [busyEvent 9 0 10 0] [mkTask "A" 240 120 true]
                   [Build_Habit "walk" 20 "morning" 3] (fun k => eq_refl))
                10%nat 20%nat 0%nat 5%nat).
  - vm_compute; reflexivity.
  - vm_compute; reflexivity.
Defined.

(* ====================================================================== *)
(** * Termination and best effort (C8)                                     *)
(* ====================================================================== *)

Lemma removeAt_setAt {A : Type} (i : nat) (x : A) (l : list A) :
  removeAt i (setAt i x l) = removeAt i l.
Proof.
  revert i; induction l as [|y l IH]; intros [|i]; simpl; try reflexivity.
  rewrite IH; reflexivity.
Qed.

Lemma poolRoom_setAt (pool : list MSlot) :
  forall (i : nat) (p q : MSlot),
    nth_error pool i = Some p ->
    (poolRoom (setAt i q pool) + Z.to_nat (seg_e p - seg_s p) =
     poolRoom pool + Z.to_nat (seg_e q - seg_s q))%nat.
Proof.
  induction pool as [|x pool IH]; intros [|i] p q H; simpl in *;
    try discriminate.
  - injection H as ->. lia.
  - specialize (IH i p q H). lia.
Qed.

Lemma poolRoom_removeAt (pool : list MSlot) :
  forall (i : nat) (p : MSlot),
    nth_error pool i = Some p ->
    (poolRoom (removeAt i pool) < poolRoom pool)%nat.
Proof.
  induction pool as [|x pool IH]; intros [|i] p H; simpl in *;
    try discriminate.
  - lia.
  - specialize (IH i p H). lia.
Qed.

(** An iteration that takes more than -10 minutes leaves less room. *)
Lemma poolRoom_carved (t : Task) (needMin : Z) (i : nat) (pool : list MSlot) :
  -10 < maxChunkMin t -> 0 < needMin -> usable pool i ->
  (poolRoom (carved t needMin i pool) < poolRoom pool)%nat.
Proof.
  intros Hmax Hneed Hi. apply usable_nth in Hi.
  destruct Hi as (_ & Hnth & Hm).
  unfold carved; cbv zeta.
  set (chosen := nth i pool (Build_Seg 0 0)) in *.
  set (chosen' := Build_Seg _ _).
  destruct (Z.geb_spec (seg_s chosen') (seg_e chosen')) as [Hge|Hlt].
  - rewrite removeAt_setAt. eapply poolRoom_removeAt; eauto.
  - pose proof (poolRoom_setAt pool i chosen chosen' Hnth) as Hroom.
    assert (seg_s chosen < seg_s chosen') as Hs.
    { subst chosen'. unfold bufferAfter, chunkOf, chunkLen, addSecs. simpl.
      lia. }
    assert (seg_e chosen' <= seg_e chosen) as He by (simpl; lia).
    clearbody chosen' chosen.
    set (a := seg_s chosen) in *. set (b := seg_e chosen) in *.
    set (a' := seg_s chosen') in *. set (b' := seg_e chosen') in *.
    set (A := poolRoom _) in *. set (B := poolRoom pool) in *.
    clearbody a b a' b' A B. lia.
Qed.

(** The loop ends when it is given more fuel than the pool has room. *)
Lemma carve_terminates (clock : nat -> QDateTime) (t : Task) :
  (splitOK t = true -> -10 < maxChunkMin t) ->
  forall fuel needMin pool acc n,
    (poolRoom pool < fuel)%nat ->
    exists r, carve clock fuel needMin t pool acc n = Some r.
Proof.
  intros Hmax; induction fuel as [|fuel IH]; intros needMin pool acc n Hroom;
    [lia|].
  rewrite carve_S.
  destruct (Z.gtb_spec needMin 0) as [Hpos|Hneg]; [|eexists; reflexivity].
  destruct (chooseSlot clock t pool 0 None unusable n) as [[i|] n1] eqn:E;
    [|eexists; reflexivity].
  apply chooseSlot_usable in E. cbv zeta.
  destruct (splitOK t) eqn:Es; simpl; [|eexists; reflexivity].
  apply IH.
  pose proof (poolRoom_carved t needMin i pool (Hmax eq_refl) ltac:(lia) E).
  lia.
Qed.

Lemma placeTasks_terminates (clock : nat -> QDateTime) (tasks : list Task) :
  Forall (fun t => splitOK t = true -> -10 < maxChunkMin t) tasks ->
  forall pool out n,
    exists fuel r, placeTasks clock fuel tasks pool out n = Some r.
Proof.
  induction 1 as [|t tasks Ht _ IH]; intros pool out n; simpl.
  - exists O; eexists; reflexivity.
  - destruct (carve_terminates clock t Ht (S (poolRoom pool))
                (Z.max 15 (estimateMin t)) pool out n) as (r1 & E1); [lia|].
    destruct (IH (cr_pool r1) (cr_acc r1) (cr_clock r1)) as (fuel2 & r & E2).
    exists (Nat.max (S (poolRoom pool)) fuel2), r.
    rewrite (carve_fuel_mono clock t (S (poolRoom pool))
               (Nat.max (S (poolRoom pool)) fuel2) _ _ _ _ _
               (Nat.le_max_l _ _) E1).
    apply (placeTasks_fuel_mono clock tasks fuel2); [lia|exact E2].
Qed.

(** The blocks placed so far stay in the result. *)
Lemma carve_keeps (clock : nat -> QDateTime) (t : Task) (acc0 : list Event) :
  forall fuel needMin pool acc n r,
    (exists more, acc = acc0 ++ more) ->
    carve clock fuel needMin t pool acc n = Some r ->
    exists more, cr_acc r = acc0 ++ more.
Proof.
  intros fuel needMin pool acc n r Hacc H.
  apply (carve_preserves clock t
           (fun _ acc => exists more, acc = acc0 ++ more))
    with (3 := H); [|exact Hacc].
  intros pool' acc' need' i (more & ->) _ _.
  eexists; rewrite <- app_assoc; reflexivity.
Qed.

Lemma placeTasks_keeps (clock : nat -> QDateTime) (tasks : list Task) :
  forall fuel pool out n out' n',
    placeTasks clock fuel tasks pool out n = Some (out', n') ->
    exists more, out' = out ++ more.
Proof.
  intros fuel pool out n out' n' H.
  destruct (placeTasks_preserves clock
              (fun _ acc => exists more, acc = out ++ more) tasks)
    with (3 := H) as (_ & Hout); [| |exact Hout].
  - intros t pool' acc' need' i _ (more & ->) _ _.
    eexists; rewrite <- app_assoc; reflexivity.
  - exists []; rewrite app_nil_r; reflexivity.
Qed.

(** A splittable task whose [maxChunkMin] is -10 never leaves the loop: the
    chunk of -10 minutes and the 10-minute buffer put the slot back where it
    was, and the effort left grows. *)
Lemma carve_minus_ten_diverges :
  forall fuel needMin acc n,
    0 < needMin ->
    carve midnight fuel needMin (mkTask "N" 30 (-10) true) [slotSeg wholeDay]
          acc n = None.
Proof.
  induction fuel as [|fuel IH]; intros needMin acc n Hneed.
  - rewrite carve_O. destruct (Z.gtb_spec needMin 0); [reflexivity|lia].
  - rewrite carve_S. destruct (Z.gtb_spec needMin 0); [|lia].
    assert (chooseSlot midnight (mkTask "N" 30 (-10) true) [slotSeg wholeDay]
                       0 None unusable n = (Some 0%nat, S n)) as ->
      by (vm_compute; reflexivity).
    cbv zeta.
    assert (minutesBetween (seg_s (slotSeg wholeDay)) (seg_e (slotSeg wholeDay))
            = 960) as Hm by (vm_compute; reflexivity).
    assert (chunkLen (mkTask "N" 30 (-10) true) needMin
                     (nth 0 [slotSeg wholeDay] (Build_Seg 0 0)) = -10) as Hc.
    { unfold chunkLen. cbn [nth]. rewrite Hm. cbn [maxChunkMin mkTask]. lia. }
    assert (carved (mkTask "N" 30 (-10) true) needMin 0 [slotSeg wholeDay]
            = [slotSeg wholeDay]) as Hp.
    { unfold carved, bufferAfter, chunkOf. rewrite Hc. vm_compute. reflexivity. }
    rewrite Hc, Hp. cbn [negb splitOK mkTask]. apply IH. lia.
Qed.

(** C8, as stated, fails: the function is not total.  For a splittable task
    with [maxChunkMin = -10] and one free window no amount of fuel makes it
    return. *)
Lemma scheduleTasks_minus_ten_diverges :
  ~ exists fuel r,
      scheduleTasksIntoWindows midnight fuel [wholeDay]
                               [mkTask "N" 30 (-10) true] 0 = Some r.
Proof.
  intros (fuel & r & H). unfold scheduleTasksIntoWindows in H.
  cbn [isEmpty orb sortBy insertBy map placeTasks] in H.
  rewrite carve_minus_ten_diverges in H; [discriminate|].
  cbn [estimateMin mkTask]. lia.
Qed.

(** C8 (amended): when every splittable task has [maxChunkMin > -10] (any
    positive cap in particular), [scheduleTasksIntoWindows] returns, with
    enough fuel, for every window list, task list and clock, and it has no
    error result.  In every run: when no fragment of the pool has 15
    minutes, the loop of a task with effort left stops at once, reports the
    task as not fully placed and leaves the pool and the blocks placed so
    far as they are; and the blocks placed before a task, or before an
    iteration, are a prefix of what is returned. *)
Theorem scheduleTasks_best_effort (clock : nat -> QDateTime)
        (windows : list Slot) (tasks : list Task) (n : nat) :
  Forall (fun t => splitOK t = true -> -10 < maxChunkMin t) tasks ->
  (exists fuel out n',
      forall fuel', (fuel <= fuel')%nat ->
        scheduleTasksIntoWindows clock fuel' windows tasks n = Some (out, n'))
  /\
  (forall fuel t needMin pool acc m,
      0 < needMin ->
      Forall (fun p => minutesBetween (seg_s p) (seg_e p) < 15) pool ->
      carve clock (S fuel) needMin t pool acc m
      = Some (Build_CarveResult false pool acc m))
  /\
  (forall fuel t needMin pool acc m r,
      carve clock fuel needMin t pool acc m = Some r ->
      exists more, cr_acc r = acc ++ more)
  /\
  (forall fuel ts pool out m out' m',
      placeTasks clock fuel ts pool out m = Some (out', m') ->
      exists more, out' = out ++ more).
Proof.
  intros Hok. split; [|split; [|split]].
  - unfold scheduleTasksIntoWindows.
    destruct (isEmpty tasks || isEmpty windows).
    + exists O, [], n. reflexivity.
    + assert (Forall (fun t => splitOK t = true -> -10 < maxChunkMin t)
                     (sortBy taskLess tasks)) as Hok'
        by (eapply Permutation_Forall; [symmetry; apply sortBy_perm|exact Hok]).
      destruct (placeTasks_terminates clock _ Hok' (map slotSeg windows) [] n)
        as (fuel & [out n'] & E).
      exists fuel, out, n'. intros fuel' Hle.
      eapply placeTasks_fuel_mono; eauto.
  - intros fuel t needMin pool acc m Hneed Hshort.
    rewrite carve_S. destruct (Z.gtb_spec needMin 0); [|lia].
    rewrite (chooseSlot_none clock t pool Hshort).
    destruct (Z.leb_spec needMin 0); [lia|reflexivity].
  - intros fuel t needMin pool acc m r H.
    apply (carve_keeps clock t acc _ _ _ _ _ _ (ex_intro _ [] (eq_sym (app_nil_r acc))) H).
  - intros fuel ts pool out m out' m'. apply placeTasks_keeps.
Qed.

Lemma scheduleTasks_best_effort_witness :
  exists fuel out n',
    forall fuel', (fuel <= fuel')%nat ->
      scheduleTasksIntoWindows midnight fuel' [wholeDay]
                               [mkTask "A" 240 120 true] 0 = Some (out, n').
Proof.
  refine (proj1 (scheduleTasks_best_effort midnight [wholeDay]
                   [mkTask "A" 240 120 true] 0 _)).
  constructor; [|constructor]. simpl. lia.
Defined.

(* ====================================================================== *)
(** * Task chunks never overlap (C1, amended)                              *)
(* ====================================================================== *)

Lemma chain_removeAt (hi : Z) (l : list Seg) :
  forall (lo : Z) (i : nat), chain lo hi l -> chain lo hi (removeAt i l).
Proof.
  induction l as [|x l IH]; intros lo [|i]; simpl; try tauto.
  - intros (H1 & H2 & H3 & Hc).
    apply chain_weaken with (lo := seg_e x + 1); [lia|exact Hc].
  - intros (H1 & H2 & H3 & Hc). repeat split; auto.
Qed.

Lemma chain_setAt (hi : Z) (l : list Seg) :
  forall (lo : Z) (i : nat) (p q : Seg),
    chain lo hi l -> nth_error l i = Some p ->
    seg_s p <= seg_s q -> seg_s q < seg_e q -> seg_e q <= seg_e p ->
    seg_e p <= seg_e q ->
    chain lo hi (setAt i q l).
Proof.
  induction l as [|x l IH]; intros lo [|i] p q Hc Hn H1 H2 H3 H4; simpl in *;
    try discriminate.
  - injection Hn as ->. destruct Hc as (Ha & Hb & Hd & Hc).
    repeat split; try lia.
    apply chain_weaken with (lo := seg_e p + 1); [lia|exact Hc].
  - destruct Hc as (Ha & Hb & Hd & Hc). repeat split; auto.
    eapply IH; eauto.
Qed.

(** In a chain, a slot put in the place of slot [i] meets only slots that
    lie entirely before or entirely after the old slot [i]. *)
Lemma In_setAt_chain (hi : Z) (l : list Seg) :
  forall (lo : Z) (i : nat) (p x q : Seg),
    chain lo hi l -> nth_error l i = Some p -> In q (setAt i x l) ->
    q = x \/ (In q l /\ (seg_e q < seg_s p \/ seg_e p < seg_s q)).
Proof.
  induction l as [|y l IH]; intros lo [|i] p x q Hc Hn Hq; simpl in *;
    try discriminate.
  - injection Hn as ->. destruct Hc as (Ha & Hb & Hd & Hc).
    destruct Hq as [Hq|Hq]; [left; auto|right].
    split; [right; exact Hq|].
    apply chain_Forall in Hc. rewrite Forall_forall in Hc.
    specialize (Hc q Hq). lia.
  - destruct Hc as (Ha & Hb & Hd & Hc).
    destruct Hq as [Hq|Hq].
    + subst q. right. split; [left; reflexivity|].
      pose proof (chain_Forall _ _ _ Hc) as Hf. rewrite Forall_forall in Hf.
      specialize (Hf p (nth_error_In _ _ Hn)). lia.
    + destruct (IH _ _ _ _ _ Hc Hn Hq) as [E|[Hin Hd']]; [left; exact E|].
      right. split; [right; exact Hin|exact Hd'].
Qed.

Lemma In_carved_chain (lo hi : Z) (t : Task) (needMin : Z) (i : nat)
      (pool : list MSlot) (q : MSlot) :
  chain lo hi pool -> usable pool i -> In q (carved t needMin i pool) ->
  let p := nth i pool (Build_Seg 0 0) in
  q = Build_Seg (getEndTime (bufferAfter (chunkOf t needMin p))) (seg_e p) \/
  (In q pool /\ (seg_e q < seg_s p \/ seg_e p < seg_s q)).
Proof.
  intros Hc Hi Hq p. apply usable_nth in Hi. destruct Hi as (_ & Hn & _).
  fold p in Hn. unfold carved in Hq; cbv zeta in Hq. fold p in Hq.
  destruct (_ >=? _).
  - apply In_removeAt in Hq. eapply In_setAt_chain; eauto.
  - eapply In_setAt_chain; eauto.
Qed.

(** One iteration keeps the invariant, provided the task's chunk cap is
    above -10 minutes. *)
Lemma carveInv_step (lo hi : Z) (windows : list Slot) (t : Task)
      (pool : list MSlot) (acc : list Event) (needMin : Z) (i : nat) :
  -10 < maxChunkMin t ->
  carveInv lo hi windows pool acc -> 0 < needMin -> usable pool i ->
  carveInv lo hi windows (carved t needMin i pool)
           (acc ++ placed t needMin (nth i pool (Build_Seg 0 0))).
Proof.
  intros Hmax (Hc & Hwin & Hacc & Hpair) Hneed Hi.
  pose proof (In_carved_chain lo hi t needMin i pool) as Hcarved.
  specialize (fun q => Hcarved q Hc Hi). cbv zeta in Hcarved.
  pose proof (usable_nth _ _ Hi) as (Hin & Hnth & Hm).
  set (p := nth i pool (Build_Seg 0 0)) in *.
  (* the chosen slot is proper and lies in a window *)
  pose proof (chain_Forall _ _ _ Hc) as Hf. rewrite Forall_forall in Hf.
  pose proof (Hf p Hin) as (Hp1 & Hp2 & Hp3).
  rewrite Forall_forall in Hwin.
  pose proof (Hwin p Hin) as (w & Hw & Hw1 & Hw2).
  (* the chunk lies in the chosen slot, the new slot behind it *)
  set (c := chunkOf t needMin p) in *.
  set (p' := Build_Seg (getEndTime (bufferAfter c)) (seg_e p)) in *.
  pose proof (minutesBetween_le (seg_s p) (seg_e p) ltac:(lia)) as Hlen.
  assert (seg_s p <= getStartTime c <= seg_s p) as Hcs by (simpl; lia).
  assert (getEndTime c <= seg_e p) as Hce.
  { subst c. unfold chunkOf, chunkLen, addSecs. simpl. lia. }
  assert (seg_s p < seg_s p') as Hps.
  { subst p' c. unfold bufferAfter, chunkOf, chunkLen, addSecs. simpl. lia. }
  assert (getEndTime c <= seg_s p') as Hcp.
  { subst p'. unfold bufferAfter, addSecs. simpl. lia. }
  assert (seg_e p' <= seg_e p /\ seg_e p <= seg_e p') as Hpe
    by (simpl; lia).
  assert (~ isChunk (bufferBefore c) /\ ~ isChunk (bufferAfter c)) as [Hb1 Hb2]
    by apply buffers_not_chunks.
  assert (chain lo hi (carved t needMin i pool)) as Hchain.
  { unfold carved; cbv zeta. fold p c p'.
    destruct (Z.geb_spec (seg_s p') (seg_e p')).
    - rewrite removeAt_setAt. apply chain_removeAt; exact Hc.
    - eapply chain_setAt; eauto; lia. }
  change (placed t needMin p) with [c; bufferBefore c; bufferAfter c].
  clearbody p' c. clearbody p.
  split; [exact Hchain|split; [|split]].
  - (* the pool stays inside the windows *)
    apply Forall_forall; intros q Hq.
    destruct (Hcarved q Hq) as [->|[Hq' _]]; [|apply Hwin; exact Hq'].
    exists w. split; [exact Hw|]. lia.
  - (* the chunks stay clear of the pool *)
    intros b Hb Hchunk. apply in_app_or in Hb. destruct Hb as [Hb|Hb].
    + destruct (Hacc b Hb Hchunk) as [Hbw Hbq]. split; [exact Hbw|].
      intros q Hq. destruct (Hcarved q Hq) as [->|[Hq' _]];
        [|apply Hbq; exact Hq'].
      specialize (Hbq p Hin). unfold overlaps in *. lia.
    + destruct Hb as [<-|[<-|[<-|[]]]]; try contradiction.
      split; [exists w; split; [exact Hw|lia]|].
      intros q Hq. destruct (Hcarved q Hq) as [->|[Hq' Hd]].
      * unfold overlaps. lia.
      * pose proof (Hf q Hq') as (_ & Hq2 & _). unfold overlaps. lia.
  - (* the chunks stay pairwise apart *)
    apply FOP_app; [exact Hpair| |].
    + constructor; [|constructor; [|constructor; constructor]].
      * repeat constructor; intros _ H; contradiction.
      * repeat constructor; intros H; contradiction.
    + intros a b Ha Hb Hca Hcb.
      destruct Hb as [<-|[<-|[<-|[]]]]; try contradiction.
      destruct (Hacc a Ha Hca) as [_ Haq]. specialize (Haq p Hin).
      unfold eventsOverlap, overlaps in *. lia.
Qed.

Lemma scheduleHabits_no_chunk (windows : list Slot) (habits : list Habit)
      (b : Event) :
  In b (scheduleHabits windows habits) -> ~ isChunk b.
Proof.
  induction habits as [|h habits IH]; simpl; [tauto|].
  destruct (chooseWindow h windows 0 None sentinel); [|exact IH].
  intros [<-|Hb]; [unfold isChunk; simpl; discriminate|auto].
Qed.

(** C1 (amended): in the list [planDay] returns, when every task of the
    effective pool has [maxChunkMin > -10], no two task chunks overlap in
    time, and no task chunk overlaps an existing busy event. *)
Theorem planDay_chunks_apart (clock : nat -> QDateTime) (self : SuperAI)
        (fuel : nat) (day : QDate) (existing : list Event)
        (tasks : list Task) (habits : list Habit) (n : nat)
        (out : list Event) (n' : nat) :
  Forall (fun t => -10 < maxChunkMin t)
         (if isEmpty tasks then m_tasks self else tasks) ->
  planDay clock self fuel day existing tasks habits n = Some (out, n') ->
  ForallOrdPairs chunksApart out /\
  (forall b ev, In b out -> isChunk b -> In ev existing ->
                ~ eventsOverlap b ev).
Proof.
  intros Hmax. unfold planDay.
  set (pool := if isEmpty tasks then m_tasks self else tasks) in *.
  set (windows := freeWindows day existing 15).
  destruct (scheduleTasksIntoWindows clock fuel windows pool n)
    as [[plannedTasks k]|] eqn:E; [|discriminate].
  intros H; injection H as <- _.
  assert (exists slots,
             carveInv (dayStart day) (dayEnd day) windows slots plannedTasks)
    as (slots & Hc & Hwin & Hacc & Hpair).
  { unfold scheduleTasksIntoWindows in E.
    destruct (isEmpty pool || isEmpty windows).
    - injection E as <- _. exists [].
      split; [exact I|]. split; [constructor|].
      split; [intros b []|constructor].
    - apply (placeTasks_preserves clock
               (carveInv (dayStart day) (dayEnd day) windows)) in E;
        [exact E| |].
      + intros t slots acc needMin i Ht. apply carveInv_step.
        rewrite Forall_forall in Hmax. apply Hmax.
        eapply Permutation_in; [apply sortBy_perm|exact Ht].
      + split; [apply freeWindows_chain|]. split; [|split].
        * apply Forall_forall; intros q Hq. apply in_map_iff in Hq.
          destruct Hq as (w & <- & Hw). exists w; simpl. split; [exact Hw|lia].
        * intros b [].
        * constructor. }
  split.
  - apply FOP_app; [exact Hpair| |].
    + generalize (scheduleHabits_no_chunk
                    (freeWindows day (existing ++ plannedTasks) 15)
                    (if isEmpty habits then m_habits self else habits)).
      generalize (scheduleHabits
                    (freeWindows day (existing ++ plannedTasks) 15)
                    (if isEmpty habits then m_habits self else habits)).
      induction l as [|x l IH]; intros Hl; constructor.
      * apply Forall_forall. intros y _ Hx _. exfalso.
        apply (Hl x); [left; reflexivity|exact Hx].
      * apply IH. intros y Hy. apply Hl. right; exact Hy.
    + intros a b _ Hb _ Hcb. exfalso.
      eapply scheduleHabits_no_chunk; eauto.
  - intros b ev Hb Hchunk Hev Hov. apply in_app_or in Hb.
    destruct Hb as [Hb|Hb]; [|eapply scheduleHabits_no_chunk; eauto].
    destruct (Hacc b Hb Hchunk) as [(w & Hw & Hw1 & Hw2) _].
    apply (freeWindows_avoid_busy day existing 15 w ev Hw Hev).
    unfold slotOverlapsEvent, eventsOverlap, overlaps in *. lia.
Qed.

Lemma planDay_chunks_apart_witness :
  exists out n',
    planDay midnight noPools 10 0 [busyEvent 9 0 10 0]
            [mkTask "A" 240 120 true] [Build_Habit "walk" 20 "morning" 3] 0
    = Some (out, n') /\
    ForallOrdPairs chunksApart out.
Proof.
  do 2 eexists. split; [vm_compute; reflexivity|].
  eapply (planDay_chunks_apart midnight noPools 10 0 [busyEvent 9 0 10 0]
            [mkTask "A" 240 120 true] [Build_Habit "walk" 20 "morning" 3] 0).
  - repeat constructor.
  - vm_compute; reflexivity.
Defined.

(* ====================================================================== *)
(** * Further properties: minutes and overlap                              *)
(* ====================================================================== *)

Lemma minutesBetween_shift (s k : Z) :
  0 <= k < 2 ^ 31 -> minutesBetween s (s + k * 60000) = k.
Proof.
  intros Hk; unfold minutesBetween, secsTo.
  replace (s + k * 60000 - s) with (k * 60 * 1000) by lia.
  rewrite Z.quot_mul by lia. rewrite Z.quot_mul by lia.
  rewrite to_int_small by lia. lia.
Qed.

Lemma minutesBetween_quot (s e : Z) :
  - 2 ^ 31 * 60000 < e - s < 2 ^ 31 * 60000 ->
  minutesBetween s e = Z.max 0 (Z.quot (e - s) 60000).
Proof.
  intros H; unfold minutesBetween, secsTo.
  assert (2 ^ 31 = 2147483648) as E by reflexivity. rewrite E in *.
  assert (Z.quot (Z.quot (e - s) 1000) 60 = Z.quot (e - s) 60000) as ->
    by (divs; lia).
  rewrite to_int_small; [reflexivity|]. rewrite E. divs; lia.
Qed.

(** X1: adding whole minutes with [addSecs] and measuring them back with
    [minutesBetween] gives the same number, and a range that runs backwards
    measures 0 minutes. *)
Theorem minutesBetween_addSecs (s e k : Z) :
  0 <= k < 2 ^ 31 -> e <= s -> s - e < 2 ^ 31 * 60000 ->
  minutesBetween s (addSecs s (k * 60)) = k /\
  minutesBetween (addSecs s (- (k * 60))) s = k /\
  minutesBetween s e = 0.
Proof.
  intros Hk Hes Hb. assert (2 ^ 31 = 2147483648) as E by reflexivity.
  unfold addSecs. split; [|split].
  - replace (s + k * 60 * 1000) with (s + k * 60000) by lia.
    apply minutesBetween_shift; assumption.
  - replace s with ((s + - (k * 60) * 1000) + k * 60000) at 2 by lia.
    apply minutesBetween_shift; assumption.
  - rewrite minutesBetween_quot by lia. divs; lia.
Qed.

Lemma minutesBetween_addSecs_witness :
  minutesBetween (mkDateTime 0 9 0) (addSecs (mkDateTime 0 9 0) (90 * 60)) = 90
  /\ minutesBetween (addSecs (mkDateTime 0 9 0) (- (90 * 60))) (mkDateTime 0 9 0)
     = 90
  /\ minutesBetween (mkDateTime 0 9 0) (mkDateTime 0 8 0) = 0.
Proof.
  apply (minutesBetween_addSecs (mkDateTime 0 9 0) (mkDateTime 0 8 0) 90);
    unfold mkDateTime, msPerDay; simpl; lia.
Defined.

(** X2: [overlapMin] does not depend on the order of the two intervals; for
    intervals less than 2^31 minutes apart it is positive exactly when they
    share at least one whole minute, it is 0 when they do not overlap, and
    it never exceeds the length of their intersection. *)
Theorem overlapMin_symmetric_positive (a1 a2 b1 b2 : QDateTime) :
  - 2 ^ 31 * 60000 < Z.min a2 b2 - Z.max a1 b1 < 2 ^ 31 * 60000 ->
  overlapMin a1 a2 b1 b2 = overlapMin b1 b2 a1 a2 /\
  (0 < overlapMin a1 a2 b1 b2 <-> 60000 <= Z.min a2 b2 - Z.max a1 b1) /\
  (~ overlaps a1 a2 b1 b2 -> overlapMin a1 a2 b1 b2 = 0) /\
  overlapMin a1 a2 b1 b2 * 60000 <= Z.max 0 (Z.min a2 b2 - Z.max a1 b1).
Proof.
  intros H.
  assert (overlapMin a1 a2 b1 b2 =
          Z.max 0 (Z.quot (Z.min a2 b2 - Z.max a1 b1) 60000)) as E.
  { unfold overlapMin; cbv zeta.
    apply (minutesBetween_quot (Z.max a1 b1) (Z.min a2 b2)); assumption. }
  split; [|split; [|split]].
  - unfold overlapMin. rewrite (Z.max_comm a1 b1), (Z.min_comm a2 b2).
    reflexivity.
  - rewrite E. divs; lia.
  - unfold overlaps; intros Hno. rewrite E. divs; lia.
  - rewrite E. divs; lia.
Qed.

Lemma overlapMin_symmetric_positive_witness :
  overlapMin (mkDateTime 0 8 0) (mkDateTime 0 8 10)
             (mkDateTime 0 8 5) (mkDateTime 0 8 10)
  = overlapMin (mkDateTime 0 8 5) (mkDateTime 0 8 10)
               (mkDateTime 0 8 0) (mkDateTime 0 8 10).
Proof.
  refine (proj1 (overlapMin_symmetric_positive
                   (mkDateTime 0 8 0) (mkDateTime 0 8 10)
                   (mkDateTime 0 8 5) (mkDateTime 0 8 10) _)).
  unfold mkDateTime, msPerDay; simpl; lia.
Defined.

(* ====================================================================== *)
(** * Further properties of freeWindows                                    *)
(* ====================================================================== *)

(** X3: events that [Event::isOnDate] does not put on the day never take
    time from the day: [freeWindows] returns the same windows when they are
    removed from the busy list. *)
Theorem freeWindows_isOnDate (day : QDate) (busy : list Event) (m : Z) :
  freeWindows day busy m =
  freeWindows day (filter (fun ev => isOnDate ev day) busy) m.
Proof.
  unfold freeWindows, mergedBusy. do 3 f_equal.
  induction busy as [|ev busy IH]; [reflexivity|].
  cbn [clampSegs filter]. unfold isOnDate at 1.
  destruct (Z.gtb_spec (date (getStartTime ev)) day) as [H1|H1];
    destruct (Z.leb_spec (date (getStartTime ev)) day) as [H1'|H1'];
    try lia; cbn [orb andb]; [exact IH|].
  destruct (Z.ltb_spec (date (getEndTime ev)) day) as [H2|H2];
    destruct (Z.leb_spec day (date (getEndTime ev))) as [H2'|H2'];
    try lia; [exact IH|].
  cbn [clampSegs].
  destruct (Z.gtb_spec (date (getStartTime ev)) day); [lia|].
  destruct (Z.ltb_spec (date (getEndTime ev)) day); [lia|]. cbn [orb].
  destruct (_ <? _); [rewrite IH; reflexivity|exact IH].
Qed.

(** Two chains that cover the same instants are the same list. *)
Lemma chain_unique (l1 : list Seg) :
  forall (l2 : list Seg) (lo1 lo2 hi1 hi2 : Z),
    chain lo1 hi1 l1 -> chain lo2 hi2 l2 ->
    (forall x, Exists (inSeg x) l1 <-> Exists (inSeg x) l2) ->
    l1 = l2.
Proof.
  induction l1 as [|g1 r1 IH]; intros [|g2 r2] lo1 lo2 hi1 hi2 Hc1 Hc2 Hx.
  - reflexivity.
  - destruct Hc2 as (_ & Hp & _). exfalso.
    assert (Exists (inSeg (seg_s g2)) []) as H
      by (apply Hx; left; unfold inSeg; lia).
    inversion H.
  - destruct Hc1 as (_ & Hp & _). exfalso.
    assert (Exists (inSeg (seg_s g1)) []) as H
      by (apply Hx; left; unfold inSeg; lia).
    inversion H.
  - pose proof Hc1 as (_ & Hp1 & Hh1 & Hr1).
    pose proof Hc2 as (_ & Hp2 & Hh2 & Hr2).
    assert (chain (seg_s g1) hi1 (g1 :: r1)) as Hc1'
      by (simpl; repeat split; auto; lia).
    assert (chain (seg_s g2) hi2 (g2 :: r2)) as Hc2'
      by (simpl; repeat split; auto; lia).
    assert (forall x, Exists (inSeg x) r1 -> seg_e g1 + 1 <= x) as Ht1
      by (intros x H; apply (chain_lower _ _ _ _ Hr1 H)).
    assert (forall x, Exists (inSeg x) r2 -> seg_e g2 + 1 <= x) as Ht2
      by (intros x H; apply (chain_lower _ _ _ _ Hr2 H)).
    (* the heads start together *)
    assert (seg_s g2 <= seg_s g1) as Hs1.
    { assert (Exists (inSeg (seg_s g1)) (g2 :: r2)) as H
        by (apply Hx; left; unfold inSeg; lia).
      apply (chain_lower _ _ _ _ Hc2' H). }
    assert (seg_s g1 <= seg_s g2) as Hs2.
    { assert (Exists (inSeg (seg_s g2)) (g1 :: r1)) as H
        by (apply Hx; left; unfold inSeg; lia).
      apply (chain_lower _ _ _ _ Hc1' H). }
    (* and end together *)
    assert (seg_e g2 <= seg_e g1) as He1.
    { destruct (Z.le_gt_cases (seg_e g2) (seg_e g1)) as [H|H]; [exact H|].
      assert (Exists (inSeg (seg_e g1)) (g1 :: r1)) as H'
        by (apply Hx; left; unfold inSeg; lia).
      inversion H' as [? ? Hin|? ? Hin]; subst.
      - unfold inSeg in Hin; lia.
      - specialize (Ht1 _ Hin); lia. }
    assert (seg_e g1 <= seg_e g2) as He2.
    { destruct (Z.le_gt_cases (seg_e g1) (seg_e g2)) as [H|H]; [exact H|].
      assert (Exists (inSeg (seg_e g2)) (g2 :: r2)) as H'
        by (apply Hx; left; unfold inSeg; lia).
      inversion H' as [? ? Hin|? ? Hin]; subst.
      - unfold inSeg in Hin; lia.
      - specialize (Ht2 _ Hin); lia. }
    assert (g1 = g2) as <-.
    { destruct g1 as [s1 e1], g2 as [s2 e2]; simpl in *.
      assert (s1 = s2) as -> by lia. assert (e1 = e2) as -> by lia.
      reflexivity. }
    f_equal. apply (IH r2 _ _ _ _ Hr1 Hr2).
    intros x; split; intros H.
    + pose proof (Ht1 _ H) as Hlow.
      assert (Exists (inSeg x) (g1 :: r2)) as H'
        by (apply Hx; right; exact H).
      inversion H' as [? ? Hin|? ? Hin]; subst; [|exact Hin].
      unfold inSeg in Hin; lia.
    + pose proof (Ht2 _ H) as Hlow.
      assert (Exists (inSeg x) (g1 :: r1)) as H'
        by (apply Hx; right; exact H).
      inversion H' as [? ? Hin|? ? Hin]; subst; [|exact Hin].
      unfold inSeg in Hin; lia.
Qed.

Lemma mergedBusy_cover_iff (day : QDate) (busy : list Event) (x : QDateTime) :
  Exists (inSeg x) (mergedBusy day busy) <->
  (dayStart day <= x < dayEnd day /\ Exists (inEvent x) busy).
Proof.
  split.
  - intros H.
    pose proof (chain_lower _ _ _ _ (mergedBusy_chain day busy) H) as Hx.
    split; [exact Hx|]. apply (mergedBusy_cover day busy x Hx); exact H.
  - intros [Hx H]. apply (mergedBusy_cover day busy x Hx); exact H.
Qed.

(** X4: [freeWindows] depends only on which instants of the day span the
    busy events cover: two busy lists that cover the same instants between
    06:00 and 22:00 give the same windows, whatever their order, their
    duplicates or the way the time is cut into events. *)
Theorem freeWindows_same_cover (day : QDate) (busy1 busy2 : list Event)
        (m : Z) :
  (forall x, dayStart day <= x < dayEnd day ->
             (Exists (inEvent x) busy1 <-> Exists (inEvent x) busy2)) ->
  freeWindows day busy1 m = freeWindows day busy2 m.
Proof.
  intros Hcov. unfold freeWindows. f_equal.
  apply (chain_unique _ _ _ _ _ _ (mergedBusy_chain day busy1)
                      (mergedBusy_chain day busy2)).
  intros x. rewrite !mergedBusy_cover_iff.
  split; intros [Hx H]; (split; [exact Hx|apply (Hcov x Hx); exact H]).
Qed.

Lemma freeWindows_same_cover_witness :
  freeWindows 0 [busyEvent 9 0 10 0; busyEvent 9 30 11 0] 15 =
  freeWindows 0 [busyEvent 10 0 11 0; busyEvent 9 0 10 0; busyEvent 9 0 10 0]
              15.
Proof.
  apply freeWindows_same_cover. intros x Hx.
  unfold dayStart, dayEnd, mkDateTime, msPerDay in Hx.
  rewrite !Exists_cons, !Exists_nil.
  unfold inEvent, busyEvent, mkEvent, mkDateTime, msPerDay; simpl. lia.
Defined.

Lemma chain_In_apart (hi : Z) (l : list Seg) :
  forall (lo : Z) (a b : Seg),
    chain lo hi l -> In a l -> In b l ->
    a = b \/ seg_e a < seg_s b \/ seg_e b < seg_s a.
Proof.
  induction l as [|g l IH]; intros lo a b Hc Ha Hb; [destruct Ha|].
  destruct Hc as (H1 & H2 & H3 & Hc).
  pose proof (chain_Forall _ _ _ Hc) as Hf. rewrite Forall_forall in Hf.
  destruct Ha as [<-|Ha], Hb as [<-|Hb].
  - left; reflexivity.
  - right; left. specialize (Hf b Hb). lia.
  - right; right. specialize (Hf a Ha). lia.
  - eapply IH; eauto.
Qed.

Lemma minutesBetween_mono (s e s' e' : Z) :
  s <= s' -> e' <= e -> e - s < 2 ^ 31 * 60000 -> s' <= e' ->
  minutesBetween s' e' <= minutesBetween s e.
Proof.
  intros H1 H2 H3 H4. assert (2 ^ 31 = 2147483648) as E by reflexivity.
  rewrite !minutesBetween_quot by lia. divs; lia.
Qed.

Lemma dayEnd_dayStart (day : QDate) : dayEnd day - dayStart day = 57600000.
Proof. unfold dayStart, dayEnd, mkDateTime, msPerDay; lia. Qed.

(** An instant of the day that no busy event covers lies in a gap. *)
Lemma free_instant_in_gap (day : QDate) (busy : list Event) (x : QDateTime) :
  dayStart day <= x < dayEnd day -> ~ Exists (inEvent x) busy ->
  Exists (inSlot x) (freeWindows day busy 0).
Proof.
  intros Hx Hfree.
  destruct (gaps_partition day busy x) as [[Hin _] _].
  destruct (Hin Hx) as [H|H]; [exact H|].
  exfalso. apply Hfree. apply (mergedBusy_cover day busy x Hx). exact H.
Qed.

(** An instant of a free window is covered by no busy event. *)
Lemma window_instant_free (day : QDate) (busy : list Event) (m : Z)
      (w : Slot) (x : QDateTime) :
  In w (freeWindows day busy m) -> inSlot x w -> ~ Exists (inEvent x) busy.
Proof.
  intros Hw Hx Hbusy. apply Exists_exists in Hbusy.
  destruct Hbusy as (ev & Hev & Hxe).
  apply (freeWindows_avoid_busy day busy m w ev Hw Hev).
  unfold slotOverlapsEvent, overlaps, inSlot, inEvent in *. lia.
Qed.

(** X5: more busy events never give more free time: every window found
    with the busy list extended lies inside a window found with the busy
    list as it was. *)
Theorem freeWindows_shrink (day : QDate) (busy more : list Event) (m : Z) :
  Forall (fun w' => exists w, In w (freeWindows day busy m) /\
                              start w <= start w' /\ end_ w' <= end_ w)
         (freeWindows day (busy ++ more) m).
Proof.
  apply Forall_forall; intros w' Hw'.
  pose proof (chain_Forall _ _ _ (freeWindows_chain day (busy ++ more) m))
    as Hf'. rewrite Forall_map, Forall_forall in Hf'.
  pose proof (Hf' w' Hw') as (Hs' & Hp' & He'); simpl in Hs', Hp', He'.
  pose proof (freeWindows_chain day busy 0) as Hc.
  pose proof (chain_Forall _ _ _ Hc) as Hf.
  rewrite Forall_map, Forall_forall in Hf.
  (* every instant of w' lies in a gap of the shorter busy list *)
  assert (forall x, inSlot x w' ->
                    Exists (inSlot x) (freeWindows day busy 0)) as Hgap.
  { intros x Hx. apply free_instant_in_gap; [unfold inSlot in Hx; lia|].
    intros Hb. apply (window_instant_free day (busy ++ more) m w' x Hw' Hx).
    apply Exists_app; left; exact Hb. }
  (* the gap g that holds the start of w' holds all of it *)
  destruct (proj1 (Exists_exists _ _) (Hgap (start w')
              ltac:(unfold inSlot; lia))) as (g & Hg & Hgs).
  pose proof (Hf g Hg) as (Hg1 & Hg2 & Hg3); simpl in Hg1, Hg2, Hg3.
  unfold inSlot in Hgs.
  assert (end_ w' <= end_ g) as Hend.
  { destruct (Z.le_gt_cases (end_ w') (end_ g)) as [H|H]; [exact H|].
    exfalso.
    destruct (proj1 (Exists_exists _ _) (Hgap (end_ g)
                ltac:(unfold inSlot; lia))) as (g2 & Hg2' & Hx2).
    unfold inSlot in Hx2.
    destruct (chain_In_apart _ _ _ (slotSeg g) (slotSeg g2) Hc
                (in_map slotSeg _ _ Hg) (in_map slotSeg _ _ Hg2'))
      as [E|[E|E]].
    - apply (f_equal seg_e) in E. simpl in E.
      assert (end_ g2 <= end_ g <= end_ g2) by (rewrite E; lia). lia.
    - simpl in E. lia.
    - simpl in E. lia. }
  exists g. split; [|lia].
  rewrite freeWindows_filter in Hw' |- *.
  apply filter_In in Hw'. destruct Hw' as [_ Hlong].
  apply filter_In. split; [exact Hg|].
  unfold longEnough in *. apply Z.geb_le in Hlong. apply Z.geb_le.
  pose proof (dayEnd_dayStart day).
  pose proof (minutesBetween_mono (start g) (end_ g) (start w') (end_ w')
                ltac:(lia) Hend ltac:(lia) ltac:(lia)).
  lia.
Qed.

(** X6: the two ends of the scale.  With no busy event the day is one
    window from 06:00 to 22:00 (when the minimum is at most its 960
    minutes); when the busy events cover the whole day span there is no
    window at all. *)
Theorem freeWindows_empty_or_full (day : QDate) (busy : list Event) (m : Z) :
  (m <= 960 ->
   freeWindows day [] m = [Build_Slot (dayStart day) (dayEnd day)]) /\
  (960 < m -> freeWindows day [] m = []) /\
  ((forall x, dayStart day <= x < dayEnd day -> Exists (inEvent x) busy) ->
   freeWindows day busy m = []).
Proof.
  assert (minutesBetween (dayStart day) (dayEnd day) = 960) as Hday.
  { replace (dayEnd day) with (dayStart day + 960 * 60000)
      by (unfold dayStart, dayEnd, mkDateTime, msPerDay; lia).
    apply minutesBetween_shift. assert (2 ^ 31 = 2147483648) by reflexivity.
    lia. }
  pose proof (dayStart_lt_dayEnd day) as Hlt.
  split; [|split].
  - intros Hm. unfold freeWindows, mergedBusy; simpl. rewrite Hday.
    destruct (Z.ltb_spec (dayStart day) (dayEnd day)); [|lia].
    destruct (Z.geb_spec 960 m); [reflexivity|lia].
  - intros Hm. unfold freeWindows, mergedBusy; simpl. rewrite Hday.
    destruct (Z.geb_spec 960 m); [lia|]. rewrite andb_false_r. reflexivity.
  - intros Hcov.
    destruct (freeWindows day busy m) as [|w ws] eqn:E; [reflexivity|].
    exfalso.
    assert (In w (freeWindows day busy m)) as Hw by (rewrite E; left; auto).
    pose proof (chain_Forall _ _ _ (freeWindows_chain day busy m)) as Hf.
    rewrite Forall_map, Forall_forall in Hf.
    pose proof (Hf w Hw) as (H1 & H2 & H3); simpl in H1, H2, H3.
    apply (window_instant_free day busy m w (start w) Hw);
      [unfold inSlot; lia|apply Hcov; lia].
Qed.

Lemma freeWindows_empty_or_full_witness :
  freeWindows 0 [busyEvent 6 0 22 0] 15 = [].
Proof.
  refine (proj2 (proj2 (freeWindows_empty_or_full 0 [busyEvent 6 0 22 0] 15))
                _).
  intros x Hx. constructor.
  unfold inEvent, busyEvent, dayStart, dayEnd, mkDateTime, msPerDay in *.
  simpl. lia.
Defined.

(* ====================================================================== *)
(** * Further properties: the analyses                                     *)
(* ====================================================================== *)

Lemma totalMinutes_nonneg (events : list Event) : 0 <= totalMinutes events.
Proof.
  induction events as [|e rest IH]; simpl; [lia|].
  pose proof (minutesBetween_nonneg (getStartTime e) (getEndTime e)). lia.
Qed.

Lemma totalMinutes_perm (l1 l2 : list Event) :
  Permutation l1 l2 -> totalMinutes l1 = totalMinutes l2.
Proof. induction 1; simpl; lia. Qed.

Lemma stressLoop_spec (events : list Event) :
  forall (totalMin gaps : Z) (lastEnd : option QDateTime),
    fst (stressLoop events totalMin gaps lastEnd)
    = totalMin + totalMinutes events /\
    gaps <= snd (stressLoop events totalMin gaps lastEnd).
Proof.
  induction events as [|e rest IH]; simpl; intros tm g le; [lia|].
  match goal with
  | |- context [stressLoop rest ?a ?b ?c] =>
      destruct (IH a b c) as [H1 H2]; rewrite H1; split; [lia|];
      eapply Z.le_trans; [|exact H2]
  end.
  destruct le as [l|]; [|lia].
  destruct (l <? getStartTime e); [|lia].
  pose proof (minutesBetween_nonneg l (getStartTime e)). lia.
Qed.

(** X7: the figures of [analyzeStress].  The density is the total of the
    events' minutes over 6, capped at 100, whatever the order of the
    events; density, recovery and risk all lie in 0..100; the risk is the
    density less half the recovery, floored at 0, so it is never above the
    density and never more than 50 below it. *)
Theorem analyzeStress_figures (events : list Event) :
  density (analyzeStress events) = Z.min 100 (Z.quot (totalMinutes events) 6) /\
  0 <= density (analyzeStress events) <= 100 /\
  0 <= recovery (analyzeStress events) <= 100 /\
  risk (analyzeStress events)
  = Z.max 0 (density (analyzeStress events)
             - Z.quot (recovery (analyzeStress events)) 2) /\
  density (analyzeStress events) - 50 <= risk (analyzeStress events)
  <= density (analyzeStress events).
Proof.
  unfold analyzeStress.
  pose proof (stressLoop_spec (sortBy eventLess events) 0 0 None) as [H1 H2].
  destruct (stressLoop (sortBy eventLess events) 0 0 None) as [tm g].
  simpl in H1, H2. cbn [density recovery risk].
  rewrite (totalMinutes_perm _ _ (sortBy_perm eventLess events)) in H1.
  pose proof (totalMinutes_nonneg events) as Hn.
  rewrite H1. clear H1.
  set (T := totalMinutes events) in *. clearbody T.
  unfold clampInt.
  destruct (Z.ltb_spec (Z.min 100 (Z.quot T 6)
                        - Z.quot (Z.max 0 (Z.min 100 (Z.quot g 3))) 2) 0);
    [|destruct (Z.ltb_spec 100 (Z.min 100 (Z.quot T 6)
                        - Z.quot (Z.max 0 (Z.min 100 (Z.quot g 3))) 2))];
    repeat split; divs; lia.
Qed.

Section AnalysesFacts.

Variable containsNoCase : string -> string -> bool.
Variable toLower : string -> string.

Lemma balanceLoop_spec (events : list Event) :
  forall focus recov : Z,
    focus <= fst (balanceLoop toLower events focus recov) /\
    recov <= snd (balanceLoop toLower events focus recov) /\
    fst (balanceLoop toLower events focus recov)
    + snd (balanceLoop toLower events focus recov)
    = focus + recov + totalMinutes events.
Proof.
  induction events as [|e rest IH]; simpl; intros f r; [lia|].
  pose proof (minutesBetween_nonneg (getStartTime e) (getEndTime e)) as Hm.
  destruct (_ || _).
  - destruct (IH f (r + minutesBetween (getStartTime e) (getEndTime e)))
      as (H1 & H2 & H3). lia.
  - destruct (IH (f + minutesBetween (getStartTime e) (getEndTime e)) r)
      as (H1 & H2 & H3). lia.
Qed.

(** X8: the figures of [optimizeWorkLifeBalance].  Every event counts as
    focus or as recovery, never both: the two sums are not negative and
    add up to the total of the events' minutes.  The score lies in 0..100,
    and when focus and recovery are equal it is 70 plus a fifteenth of the
    recovery minutes, capped at 100. *)
Theorem optimizeWorkLifeBalance_figures (events : list Event) :
  let b := optimizeWorkLifeBalance toLower events in
  0 <= focusMin b /\ 0 <= recoveryMin b /\
  focusMin b + recoveryMin b = totalMinutes events /\
  0 <= score b <= 100 /\
  (focusMin b = recoveryMin b ->
   score b = Z.min 100 (70 + Z.quot (recoveryMin b) 15)).
Proof.
  unfold optimizeWorkLifeBalance.
  pose proof (balanceLoop_spec events 0 0) as (H1 & H2 & H3).
  destruct (balanceLoop toLower events 0 0) as [f r]. simpl in H1, H2, H3.
  cbn [focusMin recoveryMin score].
  split; [exact H1|]. split; [exact H2|]. split; [lia|].
  unfold clampInt.
  destruct (Z.ltb_spec (70 + Z.quot r 15 - Z.quot (Z.abs (f - r)) 10) 0);
    [|destruct (Z.ltb_spec 100
                  (70 + Z.quot r 15 - Z.quot (Z.abs (f - r)) 10))];
    (split; [lia|]); intros E; divs; lia.
Qed.

Lemma time_range (dt : QDateTime) : 0 <= time dt < msPerDay.
Proof. unfold time, msPerDay. apply Z.mod_pos_bound. lia. Qed.

Lemma scheduleLoop_spec (events : list Event) :
  forall (totalMin meetings : Z) (first last : option QTime),
    match scheduleLoop containsNoCase events totalMin meetings first last with
    | (tm, mt, f, l) =>
        tm = totalMin + totalMinutes events /\
        meetings <= mt <= meetings + Z.of_nat (List.length events) /\
        match f with
        | None => first = None /\ events = []
        | Some v =>
            (first = Some v \/
             exists e, In e events /\ v = time (getStartTime e)) /\
            (forall e, In e events -> v <= time (getStartTime e)) /\
            (forall u, first = Some u -> v <= u)
        end /\
        match l with
        | None => last = None /\ events = []
        | Some v =>
            (last = Some v \/
             exists e, In e events /\ v = time (getEndTime e)) /\
            (forall e, In e events -> time (getEndTime e) <= v) /\
            (forall u, last = Some u -> u <= v)
        end
    end.
Proof.
  induction events as [|e rest IH]; intros tm mt f l.
  - simpl. split; [lia|]. split; [lia|].
    split.
    + destruct f as [v|]; [|auto]. split; [left; reflexivity|].
      split; [intros e []|]. intros u E; injection E as <-; lia.
    + destruct l as [v|]; [|auto]. split; [left; reflexivity|].
      split; [intros e []|]. intros u E; injection E as <-; lia.
  - cbn [scheduleLoop].
    match goal with
    | |- context [scheduleLoop _ rest ?a ?b ?c ?d] =>
        specialize (IH a b c d);
        destruct (scheduleLoop containsNoCase rest a b c d)
          as [[[tm' mt'] f'] l']
    end.
    destruct IH as (H1 & H2 & H3 & H4).
    split; [simpl; lia|].
    split.
    { change (List.length (e :: rest)) with (S (List.length rest)).
      destruct (containsNoCase (getTitle e) "Meeting"); lia. }
    split.
    + destruct f' as [v|].
      * destruct H3 as (Ha & Hb & Hc).
        assert (v <= time (getStartTime e) /\
                (forall u, f = Some u -> v <= u)) as [Hv Hu].
        { destruct f as [f0|].
          - destruct (Z.ltb_spec (time (getStartTime e)) f0).
            + split; [apply Hc; reflexivity|].
              intros u E; injection E as <-.
              specialize (Hc _ eq_refl). lia.
            + split; [specialize (Hc _ eq_refl); lia|].
              intros u E; injection E as <-. apply Hc; reflexivity.
          - split; [apply Hc; reflexivity|discriminate]. }
        split; [|split; [|exact Hu]].
        -- destruct Ha as [Ha|(e' & He' & ->)].
           ++ destruct f as [f0|].
              ** destruct (Z.ltb_spec (time (getStartTime e)) f0).
                 --- injection Ha as <-. right; exists e; split;
                       [left; reflexivity|reflexivity].
                 --- left; exact Ha.
              ** injection Ha as <-. right; exists e; split;
                   [left; reflexivity|reflexivity].
           ++ right; exists e'; split; [right; exact He'|reflexivity].
        -- intros e' [<-|He']; [exact Hv|apply Hb; exact He'].
      * exfalso. destruct H3 as [H3 _].
        destruct f as [f0|]; [|discriminate].
        destruct (_ <? _); discriminate.
    + destruct l' as [v|].
      * destruct H4 as (Ha & Hb & Hc).
        assert (time (getEndTime e) <= v /\
                (forall u, l = Some u -> u <= v)) as [Hv Hu].
        { destruct l as [l0|].
          - destruct (Z.gtb_spec (time (getEndTime e)) l0).
            + split; [apply Hc; reflexivity|].
              intros u E; injection E as <-.
              specialize (Hc _ eq_refl). lia.
            + split; [specialize (Hc _ eq_refl); lia|].
              intros u E; injection E as <-. apply Hc; reflexivity.
          - split; [apply Hc; reflexivity|discriminate]. }
        split; [|split; [|exact Hu]].
        -- destruct Ha as [Ha|(e' & He' & ->)].
           ++ destruct l as [l0|].
              ** destruct (Z.gtb_spec (time (getEndTime e)) l0).
                 --- injection Ha as <-. right; exists e; split;
                       [left; reflexivity|reflexivity].
                 --- left; exact Ha.
              ** injection Ha as <-. right; exists e; split;
                   [left; reflexivity|reflexivity].
           ++ right; exists e'; split; [right; exact He'|reflexivity].
        -- intros e' [<-|He']; [exact Hv|apply Hb; exact He'].
      * exfalso. destruct H4 as [H4 _].
        destruct l as [l0|]; [|discriminate].
        destruct (_ >? _); discriminate.
Qed.

(** X9: the figures of [analyzeSchedule].  Hours and minutes split the
    total of the events' minutes, with 0..59 minutes; the meetings are at
    most the blocks; with no event there is no first and no last time; with
    events, the first time is the least time of day at which an event
    starts and the last time the greatest time of day at which one ends
    (the dates of the events play no part). *)
Theorem analyzeSchedule_figures (events : list Event) :
  let r := analyzeSchedule containsNoCase events in
  sf_blocks r = Z.of_nat (List.length events) /\
  sf_hours r * 60 + sf_minutes r = totalMinutes events /\
  0 <= sf_minutes r < 60 /\
  0 <= sf_meetings r <= sf_blocks r /\
  match events with
  | [] => sf_first r = None /\ sf_last r = None
  | _ :: _ =>
      exists f l ef el,
        sf_first r = Some f /\ sf_last r = Some l /\
        In ef events /\ f = time (getStartTime ef) /\
        In el events /\ l = time (getEndTime el) /\
        forall e, In e events ->
                  f <= time (getStartTime e) /\ time (getEndTime e) <= l
  end.
Proof.
  unfold analyzeSchedule.
  pose proof (scheduleLoop_spec events 0 0 None None) as H.
  destruct (scheduleLoop containsNoCase events 0 0 None None)
    as [[[tm mt] f] l].
  destruct H as (H1 & H2 & H3 & H4).
  cbn [sf_blocks sf_hours sf_minutes sf_first sf_last sf_meetings].
  pose proof (totalMinutes_nonneg events) as Hn.
  split; [reflexivity|]. split; [divs; lia|]. split; [divs; lia|].
  split; [lia|].
  destruct events as [|e0 rest].
  - destruct f as [v|].
    + destruct H3 as ([E|(e & [] & _)] & _); discriminate.
    + destruct l as [v|]; [|auto].
      destruct H4 as ([E|(e & [] & _)] & _); discriminate.
  - destruct f as [v|]; [|destruct H3 as [_ E]; discriminate].
    destruct l as [u|]; [|destruct H4 as [_ E]; discriminate].
    destruct H3 as ([E|(ef & Hef & Ef)] & Hf & _); [discriminate|].
    destruct H4 as ([E|(el & Hel & El)] & Hl & _); [discriminate|].
    exists v, u, ef, el. repeat (split; [first [reflexivity|assumption]|]).
    intros e He. split; [apply Hf|apply Hl]; exact He.
Qed.

End AnalysesFacts.

(* ====================================================================== *)
(** * Further properties: scores and the task order                        *)
(* ====================================================================== *)

Lemma clampQ_unit_nonneg (v : Q) : (0 <= clampQ v 0.0 1.0)%Q.
Proof. rewrite clampQ_clamp01. unfold clamp01. apply Q.le_max_l. Qed.

(** A window of at least 15 minutes scores above the sentinel, whatever
    [int] the priority is. *)
Lemma slotScore_above_sentinel (clock : nat -> QDateTime) (w : Slot)
      (t : Task) (n : nat) :
  - 2 ^ 31 <= priority t ->
  15 <= minutesBetween (start w) (end_ w) ->
  (unusable < fst (slotScore clock w t n))%Q.
Proof.
  intros Hp Hd. unfold slotScore.
  destruct (Z.ltb_spec (minutesBetween (start w) (end_ w)) 15); [lia|].
  assert (0 <= Qmin 1.0 (inject_Z (minutesBetween (start w) (end_ w)) / 120.0))%Q
    as Hlen.
  { apply Q.min_glb; [discriminate|].
    apply Qle_shift_div_l; [reflexivity|]. rewrite Qmult_0_l.
    change 0%Q with (inject_Z 0). rewrite <- Zle_Qle. lia. }
  assert (forall x, 0 <= 1.0 / Qmax 1.0 x)%Q as Hearly.
  { intros x. apply Qle_shift_div_l.
    - apply Qlt_le_trans with 1.0%Q; [reflexivity|apply Q.le_max_l].
    - rewrite Qmult_0_l. discriminate. }
  assert (-2147483649 # 1 <= inject_Z (priority t - 1))%Q as Hb.
  { change (-2147483649 # 1)%Q with (inject_Z (-2147483649)).
    rewrite <- Zle_Qle.
    assert (2 ^ 31 = 2147483648) as E by reflexivity. lia. }
  unfold currentDateTime. cbv zeta.
  set (len := Qmin 1.0 _) in *.
  set (b := inject_Z (priority t - 1)) in *.
  destruct (deadline t) as [d|]; cbn [fst snd].
  - pose proof (clampQ_unit_nonneg
                  (1.0 - inject_Z (to_int (Z.quot (secsTo (clock n) d) 60))
                         / (60.0 * 24 * 7.0))) as Hu.
    set (u := clampQ _ _ _) in *.
    pose proof (Hearly (inject_Z (secsTo (clock (S n)) (start w)) / 3600.0)%Q)
      as He.
    set (e := (1.0 / _)%Q) in *.
    clearbody len b u e. unfold unusable.
    destruct (mustMorning t), (mustAfternoon t),
      ((hour (start w) >=? 7) && (hour (start w) <=? 12)),
      ((hour (start w) >=? 13) && (hour (start w) <=? 17));
      setoid_replace (-1e9)%Q with (-1000000000 # 1)%Q by reflexivity;
      unfold Qdiv;
      setoid_replace (/ 4.0)%Q with (1 # 4)%Q by reflexivity;
      lra.
  - pose proof (Hearly (inject_Z (secsTo (clock n) (start w)) / 3600.0)%Q)
      as He.
    set (e := (1.0 / _)%Q) in *.
    clearbody len b e. unfold unusable.
    destruct (mustMorning t), (mustAfternoon t),
      ((hour (start w) >=? 7) && (hour (start w) <=? 12)),
      ((hour (start w) >=? 13) && (hour (start w) <=? 17));
      setoid_replace (-1e9)%Q with (-1000000000 # 1)%Q by reflexivity;
      unfold Qdiv;
      setoid_replace (/ 4.0)%Q with (1 # 4)%Q by reflexivity;
      lra.
Qed.

Ltac taskLess_cases :=
  unfold taskLess;
  repeat match goal with
         | |- context [deadline ?a] => destruct (deadline a)
         end;
  rewrite ?Z.gtb_ltb;
  repeat match goal with
         | |- context [?x =? ?y] => destruct (Z.eqb_spec x y)
         | |- context [?x <? ?y] => destruct (Z.ltb_spec x y)
         end;
  simpl; try congruence; try lia.

Lemma taskLess_irrefl (a : Task) : taskLess a a = false.
Proof. taskLess_cases. Qed.

Lemma taskLess_asym (a b : Task) :
  taskLess a b = true -> taskLess b a = false.
Proof. taskLess_cases. Qed.

Lemma taskLess_trans (a b c : Task) :
  taskLess a b = true -> taskLess b c = true -> taskLess a c = true.
Proof. taskLess_cases. Qed.

Lemma taskLess_negtrans (a b c : Task) :
  taskLess a b = false -> taskLess b c = false -> taskLess a c = false.
Proof. taskLess_cases. Qed.

(** Nothing of the list comes before the head of the sorted list. *)
Lemma sortBy_taskLess_head (tasks : list Task) (t : Task) :
  hd_error (sortBy taskLess tasks) = Some t ->
  In t tasks /\ forall t', In t' tasks -> taskLess t' t = false.
Proof.
  revert t; induction tasks as [|x l IH]; intros t; simpl; [discriminate|].
  destruct (sortBy taskLess l) as [|h r] eqn:E; simpl.
  - intros H; injection H as <-.
    assert (l = []) as ->.
    { destruct l as [|y l']; [reflexivity|].
      pose proof (Permutation_length (sortBy_perm taskLess (y :: l'))) as HL.
      rewrite E in HL. discriminate. }
    split; [left; reflexivity|].
    intros t' [<-|[]]. apply taskLess_irrefl.
  - destruct (IH h eq_refl) as [Hh Hmin].
    destruct (taskLess h x) eqn:Ehx; simpl; intros H; injection H as <-.
    + split; [right; exact Hh|].
      intros t' [<-|Ht']; [apply taskLess_asym; exact Ehx|apply Hmin; exact Ht'].
    + split; [left; reflexivity|].
      intros t' [<-|Ht']; [apply taskLess_irrefl|].
      apply (taskLess_negtrans t' h x); [apply Hmin; exact Ht'|exact Ehx].
Qed.

(** X10: the sentinel is the score of the short windows only.  For every
    [int] priority, [slotScore] gives -1e9 exactly when the window has
    fewer than 15 whole minutes; a window of 15 minutes or more always
    scores above it, so the scan of the pool never passes over a usable
    window. *)
Theorem slotScore_sentinel_iff (clock : nat -> QDateTime) (w : Slot)
        (t : Task) (n : nat) :
  - 2 ^ 31 <= priority t ->
  ((fst (slotScore clock w t n) == unusable)%Q <->
   minutesBetween (start w) (end_ w) < 15) /\
  (15 <= minutesBetween (start w) (end_ w) ->
   (unusable < fst (slotScore clock w t n))%Q).
Proof.
  intros Hp. split; [|apply slotScore_above_sentinel; exact Hp].
  split.
  - intros E.
    destruct (Z.lt_ge_cases (minutesBetween (start w) (end_ w)) 15)
      as [H|H]; [exact H|].
    pose proof (slotScore_above_sentinel clock w t n Hp H) as Hlt.
    rewrite E in Hlt. exfalso. exact (Qlt_irrefl _ Hlt).
  - intros H. unfold slotScore.
    destruct (Z.ltb_spec (minutesBetween (start w) (end_ w)) 15); [|lia].
    reflexivity.
Qed.

Lemma slotScore_sentinel_iff_witness :
  (unusable < fst (slotScore midnight wholeDay (mkTask "A" 30 120 true) 0))%Q.
Proof.
  refine (proj2 (slotScore_sentinel_iff midnight wholeDay
                   (mkTask "A" 30 120 true) 0 _) _).
  - simpl. lia.
  - vm_compute. discriminate.
Defined.

(** X11: the comparator of the task sort is a strict weak ordering, as
    [std::sort] requires: no task comes before itself, two tasks never
    come before each other, and both "comes before" and "does not come
    before" are transitive.  So nothing of the task list comes before the
    task the sort puts first. *)
Theorem taskLess_strict_weak_order (a b c : Task) (tasks : list Task) :
  taskLess a a = false /\
  (taskLess a b = true -> taskLess b a = false) /\
  (taskLess a b = true -> taskLess b c = true -> taskLess a c = true) /\
  (taskLess a b = false -> taskLess b c = false -> taskLess a c = false) /\
  (hd_error (sortBy taskLess tasks) = Some a ->
   In a tasks /\ forall t', In t' tasks -> taskLess t' a = false).
Proof.
  split; [apply taskLess_irrefl|]. split; [apply taskLess_asym|].
  split; [apply taskLess_trans|]. split; [apply taskLess_negtrans|].
  apply sortBy_taskLess_head.
Qed.

(* ====================================================================== *)
(** * Further properties: what the planner places first                    *)
(* ====================================================================== *)

Lemma freeWindows_nil (day : QDate) (m : Z) :
  m <= 960 -> freeWindows day [] m = [Build_Slot (dayStart day) (dayEnd day)].
Proof.
  intros Hm.
  assert (minutesBetween (dayStart day) (dayEnd day) = 960) as Hday.
  { replace (dayEnd day) with (dayStart day + 960 * 60000)
      by (unfold dayStart, dayEnd, mkDateTime, msPerDay; lia).
    apply minutesBetween_shift. assert (2 ^ 31 = 2147483648) by reflexivity.
    lia. }
  pose proof (dayStart_lt_dayEnd day) as Hlt.
  unfold freeWindows, mergedBusy; simpl. rewrite Hday.
  destruct (Z.ltb_spec (dayStart day) (dayEnd day)); [|lia].
  destruct (Z.geb_spec 960 m); [reflexivity|lia].
Qed.

(** Once the scan holds an index it ends with one. *)
Lemma chooseSlot_keeps_some (clock : nat -> QDateTime) (t : Task)
      (pool : list MSlot) :
  forall (base i : nat) (bestScore : Q) (n : nat),
    exists j n', chooseSlot clock t pool base (Some i) bestScore n
                 = (Some j, n').
Proof.
  induction pool as [|p rest IH]; simpl; intros base i bs n.
  - exists i, n; reflexivity.
  - destruct (_ <? 15); [apply IH|].
    destruct (slotScore clock _ t n) as [sc n1].
    destruct (Qgtb sc bs); apply IH.
Qed.

(** With a slot of 15 minutes in the pool the scan finds one. *)
Lemma chooseSlot_finds (clock : nat -> QDateTime) (t : Task)
      (pool : list MSlot) :
  - 2 ^ 31 <= priority t ->
  Exists (fun p => 15 <= minutesBetween (seg_s p) (seg_e p)) pool ->
  forall (base n : nat),
    exists j n', chooseSlot clock t pool base None unusable n = (Some j, n').
Proof.
  intros Hp; induction pool as [|p rest IH]; intros Hex base n.
  - inversion Hex.
  - simpl.
    destruct (Z.ltb_spec (minutesBetween (seg_s p) (seg_e p)) 15) as [Hlt|Hge].
    + apply IH. inversion Hex; subst; [lia|assumption].
    + pose proof (slotScore_above_sentinel clock
                    (Build_Slot (seg_s p) (seg_e p)) t n Hp Hge) as Hsc.
      destruct (slotScore clock (Build_Slot (seg_s p) (seg_e p)) t n)
        as [sc n1].
      simpl in Hsc. apply Qgtb_true in Hsc. rewrite Hsc.
      apply chooseSlot_keeps_some.
Qed.

(** With effort left and a slot of 15 minutes in the pool, [carve] places
    a chunk and its two buffers right after the blocks it was given. *)
Lemma carve_first_block (clock : nat -> QDateTime) (t : Task)
      (fuel : nat) (needMin : Z) (pool : list MSlot) (acc : list Event)
      (n : nat) (r : CarveResult) :
  - 2 ^ 31 <= priority t -> 0 < needMin ->
  Exists (fun p => 15 <= minutesBetween (seg_s p) (seg_e p)) pool ->
  carve clock fuel needMin t pool acc n = Some r ->
  exists i more,
    usable pool i /\
    cr_acc r = acc ++ placed t needMin (nth i pool (Build_Seg 0 0)) ++ more.
Proof.
  intros Hp Hneed Hex H.
  destruct fuel as [|fuel].
  { rewrite carve_O in H. destruct (Z.gtb_spec needMin 0); [discriminate|lia]. }
  rewrite carve_S in H.
  destruct (Z.gtb_spec needMin 0); [|lia].
  destruct (chooseSlot_finds clock t pool Hp Hex 0%nat n) as (i & n1 & E).
  rewrite E in H. pose proof (chooseSlot_usable _ _ _ _ _ _ E) as Hu.
  exists i. cbv zeta in H.
  destruct (negb (splitOK t)).
  - injection H as <-. exists []. split; [exact Hu|].
    rewrite app_nil_r. reflexivity.
  - destruct (carve_keeps clock t
                (acc ++ placed t needMin (nth i pool (Build_Seg 0 0)))
                _ _ _ _ _ _ (ex_intro _ [] (eq_sym (app_nil_r _))) H)
      as (more & Hmore).
    exists more. split; [exact Hu|]. rewrite Hmore, <- app_assoc. reflexivity.
Qed.

Lemma placeTasks_first_block (clock : nat -> QDateTime) (t : Task)
      (rest : list Task) (fuel : nat) (pool : list MSlot) (n : nat)
      (out : list Event) (n' : nat) :
  - 2 ^ 31 <= priority t ->
  Exists (fun p => 15 <= minutesBetween (seg_s p) (seg_e p)) pool ->
  placeTasks clock fuel (t :: rest) pool [] n = Some (out, n') ->
  exists i more,
    usable pool i /\
    out = placed t (Z.max 15 (estimateMin t)) (nth i pool (Build_Seg 0 0))
          ++ more.
Proof.
  intros Hp Hex H. simpl in H.
  destruct (carve clock fuel (Z.max 15 (estimateMin t)) t pool [] n)
    as [r|] eqn:E; [|discriminate].
  assert (0 < Z.max 15 (estimateMin t)) as Hneed by lia.
  destruct (carve_first_block clock t fuel _ pool [] n r Hp Hneed Hex E)
    as (i & more & Hu & Hacc).
  destruct (placeTasks_keeps clock rest _ _ _ _ _ _ H) as (more' & ->).
  exists i, (more ++ more'). split; [exact Hu|].
  rewrite Hacc, app_nil_l, <- app_assoc. reflexivity.
Qed.

(** The insertion sort meets the contract of [std::sort] for the task
    comparator. *)
Lemma insertBy_taskLess_sorted (x : Task) (l : list Task) :
  StronglySorted (fun a b => taskLess b a = false) l ->
  StronglySorted (fun a b => taskLess b a = false) (insertBy taskLess x l).
Proof.
  induction 1 as [|y l Hs IH Hy]; simpl.
  - constructor; constructor.
  - destruct (taskLess y x) eqn:E.
    + constructor; [exact IH|].
      apply Forall_forall. intros z Hz.
      apply (Permutation_in _ (insertBy_perm taskLess x l)) in Hz.
      destruct Hz as [<-|Hz]; [apply taskLess_asym; exact E|].
      rewrite Forall_forall in Hy. apply Hy; exact Hz.
    + constructor; [constructor; assumption|].
      constructor; [exact E|].
      apply Forall_forall. intros z Hz.
      rewrite Forall_forall in Hy.
      apply (taskLess_negtrans z y x); [apply Hy; exact Hz|exact E].
Qed.

Lemma StronglySorted_sortedBy {A : Type} (less : A -> A -> bool)
      (l : list A) :
  StronglySorted (fun a b => less b a = false) l -> sortedBy less l.
Proof.
  induction 1 as [|x l Hs IH Hx]; intros i j a b Hij Ha Hb.
  - destruct i; discriminate.
  - destruct j as [|j]; [lia|]. simpl in Hb.
    destruct i as [|i]; simpl in Ha.
    + injection Ha as <-. rewrite Forall_forall in Hx.
      apply Hx. eapply nth_error_In; eauto.
    + apply (IH i j a b); [lia|assumption|assumption].
Qed.

Lemma sortBy_stdSorted (tasks : list Task) :
  stdSorted tasks (sortBy taskLess tasks).
Proof.
  split; [apply sortBy_perm|].
  apply StronglySorted_sortedBy.
  induction tasks as [|x l IH]; simpl; [constructor|].
  apply insertBy_taskLess_sorted. exact IH.
Qed.

(** Nothing of the list comes before the head of an order [std::sort] may
    leave. *)
Lemma stdSorted_head (tasks sorted : list Task) (t : Task)
      (rest : list Task) :
  stdSorted tasks sorted -> sorted = t :: rest ->
  In t tasks /\ forall t', In t' tasks -> taskLess t' t = false.
Proof.
  intros [Hperm Hsorted] ->. split.
  - apply (Permutation_in _ Hperm). left; reflexivity.
  - intros t' Ht'. apply (Permutation_in _ (Permutation_sym Hperm)) in Ht'.
    apply In_nth_error in Ht'. destruct Ht' as (j & Hj).
    destruct j as [|j].
    + simpl in Hj. injection Hj as <-. apply taskLess_irrefl.
    + apply (Hsorted 0%nat (S j) t t'); [lia|reflexivity|exact Hj].
Qed.

(** [scheduleTasksIntoWindows] returns when it is given enough fuel. *)
Lemma scheduleTasks_total (clock : nat -> QDateTime) (windows : list Slot)
      (tasks : list Task) (n : nat) :
  Forall (fun t => splitOK t = true -> -10 < maxChunkMin t) tasks ->
  exists fuel out n',
    forall fuel', (fuel <= fuel')%nat ->
      scheduleTasksIntoWindows clock fuel' windows tasks n = Some (out, n').
Proof.
  intros Hok. unfold scheduleTasksIntoWindows.
  destruct (isEmpty tasks || isEmpty windows).
  - exists O, [], n. reflexivity.
  - assert (Forall (fun t => splitOK t = true -> -10 < maxChunkMin t)
                   (sortBy taskLess tasks)) as Hok'
      by (eapply Permutation_Forall; [symmetry; apply sortBy_perm|exact Hok]).
    destruct (placeTasks_terminates clock _ Hok' (map slotSeg windows) [] n)
      as (fuel & [out n'] & E).
    exists fuel, out, n'. intros fuel' Hle.
    eapply placeTasks_fuel_mono; eauto.
Qed.

(** X12: the planner starts with the first task of the sort, whichever of
    the orders [std::sort] may leave it is.  Let [sorted] be such an order
    of the task list (a permutation of it in which no task comes before an
    earlier one) and [t] its first task, with an [int] priority; let every
    splittable task have [maxChunkMin > -10] and some window have at least
    15 minutes.  Then no task of the list comes before [t], and the
    placement loop run on [sorted] returns, with enough fuel, a list that
    begins with a chunk of [t] and the chunk's 5-minute and 10-minute
    buffers; the chunk is cut at the start of a window of at least 15
    minutes and lasts min(maxChunkMin, max(15, estimate), minutes of the
    window).  [scheduleTasksIntoWindows] is the loop run on the order of
    the insertion sort. *)
Theorem scheduleTasks_first_block (clock : nat -> QDateTime)
        (windows : list Slot) (tasks sorted : list Task) (t : Task)
        (rest : list Task) (n : nat) :
  stdSorted tasks sorted -> sorted = t :: rest ->
  - 2 ^ 31 <= priority t ->
  Forall (fun t => splitOK t = true -> -10 < maxChunkMin t) tasks ->
  Exists (fun w => 15 <= minutesBetween (start w) (end_ w)) windows ->
  In t tasks /\ (forall t', In t' tasks -> taskLess t' t = false) /\
  exists fuel out n',
    (forall fuel', (fuel <= fuel')%nat ->
       placeTasks clock fuel' sorted (map slotSeg windows) [] n
       = Some (out, n')) /\
    (sorted = sortBy taskLess tasks ->
     forall fuel', (fuel <= fuel')%nat ->
       scheduleTasksIntoWindows clock fuel' windows tasks n
       = Some (out, n')) /\
    exists w more,
      In w windows /\ 15 <= minutesBetween (start w) (end_ w) /\
      getEndTime (chunkOf t (Z.max 15 (estimateMin t)) (slotSeg w))
      - start w
      = Z.min (maxChunkMin t)
              (Z.min (Z.max 15 (estimateMin t))
                     (minutesBetween (start w) (end_ w))) * 60000 /\
      out = placed t (Z.max 15 (estimateMin t)) (slotSeg w) ++ more.
Proof.
  intros Hstd Hhd Hp Hok Hex.
  destruct (stdSorted_head tasks sorted t rest Hstd Hhd) as [Hin Hmin].
  split; [exact Hin|]. split; [exact Hmin|].
  assert (Forall (fun t => splitOK t = true -> -10 < maxChunkMin t) sorted)
    as Hok'
    by (eapply Permutation_Forall; [symmetry; apply (proj1 Hstd)|exact Hok]).
  destruct (placeTasks_terminates clock _ Hok' (map slotSeg windows) [] n)
    as (fuel & [out n'] & E).
  exists fuel, out, n'.
  split; [intros fuel' Hle; eapply placeTasks_fuel_mono; eauto|].
  split.
  { intros Es fuel' Hle. unfold scheduleTasksIntoWindows.
    destruct tasks as [|t0 ts]; [destruct Hin|].
    destruct windows as [|w0 ws]; [inversion Hex|].
    cbn [isEmpty orb]. cbv zeta. rewrite <- Es.
    eapply placeTasks_fuel_mono; eauto. }
  assert (Exists (fun p => 15 <= minutesBetween (seg_s p) (seg_e p))
                 (map slotSeg windows)) as Hex'.
  { apply Exists_exists in Hex. destruct Hex as (w & Hw & Hl).
    apply Exists_exists. exists (slotSeg w).
    split; [apply in_map; exact Hw|exact Hl]. }
  rewrite Hhd in E.
  destruct (placeTasks_first_block clock t rest fuel _ n out n' Hp Hex' E)
    as (i & more & (p & Hnth & Hlen) & Hout).
  rewrite (nth_error_nth _ _ _ Hnth) in Hout.
  apply nth_error_In in Hnth. apply in_map_iff in Hnth.
  destruct Hnth as (w & <- & Hw).
  exists w, more. split; [exact Hw|]. split; [exact Hlen|].
  split; [|exact Hout].
  unfold chunkOf, chunkLen, slotSeg, addSecs.
  cbn [mkEvent getEndTime seg_s seg_e]. lia.
Qed.

Lemma scheduleTasks_first_block_witness :
  exists fuel out n',
    (forall fuel', (fuel <= fuel')%nat ->
       scheduleTasksIntoWindows midnight fuel' [wholeDay]
                                [mkTask "A" 240 120 true] 0
       = Some (out, n')) /\
    exists w more,
      In w [wholeDay] /\
      out = placed (mkTask "A" 240 120 true) (Z.max 15 240) (slotSeg w)
            ++ more.
Proof.
  destruct (scheduleTasks_first_block midnight [wholeDay]
              [mkTask "A" 240 120 true] (sortBy taskLess [mkTask "A" 240 120 true])
              (mkTask "A" 240 120 true) [] 0)
    as (_ & _ & fuel & out & n' & _ & Hrun & w & more & Hw & _ & _ & Hout).
  - apply sortBy_stdSorted.
  - reflexivity.
  - simpl. lia.
  - constructor; [|constructor]. simpl. lia.
  - constructor. vm_compute. discriminate.
  - exists fuel, out, n'. split; [exact (Hrun eq_refl)|].
    exists w, more. split; [exact Hw|exact Hout].
Defined.

(** With a single window of the planner's day every habit of priority 1
    to 5 gets its block at the start of that window. *)
Lemma scheduleHabits_single (w : Slot) (habits : list Habit) :
  dayWindow w -> Forall specPriority habits ->
  scheduleHabits [w] habits = map (fun h => habitBlock h w) habits.
Proof.
  intros Hw. induction 1 as [|h rest Hh _ IH]; [reflexivity|].
  cbn [scheduleHabits chooseWindow map].
  rewrite (habitScore_above_sentinel w h Hw Hh). cbn [nth]. rewrite IH.
  f_equal. unfold habitBlock, addSecs. f_equal. lia.
Qed.

(** X13: [generateSmartSuggestions] plans into the one window of an empty
    day, 06:00 to 22:00.  When every task of the pool has an [int]
    priority, and [maxChunkMin > -10] if it may be split, it returns with
    enough fuel.  With tasks in the pool the list it emits begins at 06:00
    with a chunk of a task that no task of the pool comes before in the
    order of the comparator, followed by the chunk's two buffers, the first
    of which runs from 05:55 to 06:00; with no task in the pool and habit
    priorities from 1 to 5 the list holds one block per habit of the pool,
    in pool order, and every one of them starts at 06:00. *)
Theorem generateSmartSuggestions_from_six (clock : nat -> QDateTime)
        (self : SuperAI) (day : QDate) (n : nat) :
  Forall (fun t => - 2 ^ 31 <= priority t /\
                   (splitOK t = true -> -10 < maxChunkMin t))
         (m_tasks self) ->
  exists fuel out n',
    (forall fuel', (fuel <= fuel')%nat ->
       generateSmartSuggestions clock self fuel' day n = Some (out, n')) /\
    match m_tasks self with
    | _ :: _ =>
        exists t more,
          In t (m_tasks self) /\
          (forall t', In t' (m_tasks self) -> taskLess t' t = false) /\
          out = placed t (Z.max 15 (estimateMin t))
                       (Build_Seg (dayStart day) (dayEnd day)) ++ more
    | [] =>
        Forall specPriority (m_habits self) ->
        out = map (fun h => habitBlock h
                              (Build_Slot (dayStart day) (dayEnd day)))
                  (m_habits self)
    end.
Proof.
  intros Hall.
  assert (minutesBetween (dayStart day) (dayEnd day) = 960) as Hday.
  { replace (dayEnd day) with (dayStart day + 960 * 60000)
      by (unfold dayStart, dayEnd, mkDateTime, msPerDay; lia).
    apply minutesBetween_shift. assert (2 ^ 31 = 2147483648) by reflexivity.
    lia. }
  assert (Forall (fun t => splitOK t = true -> -10 < maxChunkMin t)
                 (m_tasks self)) as Hok
    by (eapply Forall_impl; [|exact Hall]; intros a [_ H]; exact H).
  destruct (scheduleTasks_total clock
              [Build_Slot (dayStart day) (dayEnd day)] (m_tasks self) n Hok)
    as (fuel & plannedTasks & k & Hrun).
  exists fuel,
    (plannedTasks ++
     scheduleHabits (freeWindows day ([] ++ plannedTasks) 15) (m_habits self)),
    k.
  assert (forall fuel', (fuel <= fuel')%nat ->
            generateSmartSuggestions clock self fuel' day n
            = Some (plannedTasks ++
                    scheduleHabits (freeWindows day ([] ++ plannedTasks) 15)
                                   (m_habits self), k)) as Hgen.
  { intros fuel' Hle. unfold generateSmartSuggestions, planDay. cbv zeta.
    rewrite (freeWindows_nil day 15) by lia.
    assert ((if isEmpty (m_tasks self) then m_tasks self else m_tasks self)
            = m_tasks self) as -> by (destruct (isEmpty _); reflexivity).
    assert ((if isEmpty (m_habits self) then m_habits self
             else m_habits self)
            = m_habits self) as -> by (destruct (isEmpty _); reflexivity).
    rewrite (Hrun fuel' Hle). reflexivity. }
  split; [exact Hgen|].
  specialize (Hrun fuel (Nat.le_refl _)).
  destruct (m_tasks self) as [|t0 ts] eqn:Et.
  - intros Hh. cbn in Hrun. injection Hrun as <- _.
    cbn [app]. rewrite (freeWindows_nil day 15) by lia.
    apply scheduleHabits_single; [|exact Hh].
    unfold dayWindow; cbn [start end_]. rewrite Hday. lia.
  - unfold scheduleTasksIntoWindows in Hrun.
    cbn [isEmpty orb map] in Hrun. cbv zeta in Hrun.
    destruct (sortBy taskLess (t0 :: ts)) as [|t rest] eqn:Es.
    { pose proof (Permutation_length (sortBy_perm taskLess (t0 :: ts))) as HL.
      rewrite Es in HL. discriminate. }
    destruct (stdSorted_head (t0 :: ts) (t :: rest) t rest) as [Hin Hmin].
    { rewrite <- Es. apply sortBy_stdSorted. }
    { reflexivity. }
    assert (- 2 ^ 31 <= priority t) as Hp.
    { rewrite Forall_forall in Hall. apply (Hall t Hin). }
    assert (Exists (fun p => 15 <= minutesBetween (seg_s p) (seg_e p))
                   [slotSeg (Build_Slot (dayStart day) (dayEnd day))]) as Hex.
    { constructor. unfold slotSeg; cbn [seg_s seg_e start end_].
      rewrite Hday. lia. }
    destruct (placeTasks_first_block clock t rest fuel _ n _ _ Hp Hex Hrun)
      as (i & more & (p & Hnth & _) & Hout).
    destruct i as [|[|i]]; simpl in Hnth; try discriminate.
    exists t, (more ++ scheduleHabits
                         (freeWindows day ([] ++ plannedTasks) 15)
                         (m_habits self)).
    split; [exact Hin|]. split; [exact Hmin|].
    rewrite Hout. cbn [nth]. rewrite <- app_assoc. reflexivity.
Qed.

Lemma generateSmartSuggestions_from_six_witness :
  exists fuel out n',
    (forall fuel', (fuel <= fuel')%nat ->
       generateSmartSuggestions midnight
         (Build_SuperAI [mkTask "A" 30 120 true]
                        [Build_Habit "walk" 20 "morning" 3])
         fuel' 0 0 = Some (out, n')) /\
    exists t more,
      In t [mkTask "A" 30 120 true] /\
      (forall t', In t' [mkTask "A" 30 120 true] -> taskLess t' t = false) /\
      out = placed t (Z.max 15 (estimateMin t))
                   (Build_Seg (dayStart 0) (dayEnd 0)) ++ more.
Proof.
  apply (generateSmartSuggestions_from_six midnight
           (Build_SuperAI [mkTask "A" 30 120 true]
                          [Build_Habit "walk" 20 "morning" 3]) 0 0).
  constructor; [|constructor]. simpl. split; lia.
Defined.

(* ====================================================================== *)
(** * Further properties: where the planned blocks lie                     *)
(* ====================================================================== *)




(** The index the scan of a habit returns is one of the window list. *)
Lemma chooseWindow_index (h : Habit) (windows : list Slot) (k : nat) :
  chooseWindow h windows 0 None sentinel = Some k ->
  exists w, nth_error windows k = Some w.
Proof.
  intros E.
  destruct (chooseWindow_inv h windows [] None sentinel) as (best & _ & Hb).
  { split; [intros w' []|reflexivity]. }
  simpl in Hb. rewrite E in Hb. destruct Hb as (w & Hnth & _).
  exists w; exact Hnth.
Qed.

(** Every block of [scheduleHabits] is the block of a habit of the list at
    a window of the list. *)
Lemma scheduleHabits_blocks (windows : list Slot) (habits : list Habit)
      (b : Event) :
  In b (scheduleHabits windows habits) ->
  exists w h, In w windows /\ In h habits /\ b = habitBlock h w.
Proof.
  induction habits as [|h habits IH]; simpl; [tauto|].
  destruct (chooseWindow h windows 0 None sentinel) as [k|] eqn:E.
  - intros [<-|Hb].
    + destruct (chooseWindow_index h windows k E) as (w & Hnth).
      exists w, h. rewrite (nth_error_nth _ _ _ Hnth).
      split; [eapply nth_error_In; eauto|]. split; [left; reflexivity|].
      unfold habitBlock, addSecs. f_equal. lia.
    + destruct (IH Hb) as (w & h' & Hw & Hh & ->).
      exists w, h'. split; [exact Hw|]. split; [right; exact Hh|reflexivity].
  - intros Hb. destruct (IH Hb) as (w & h' & Hw & Hh & ->).
    exists w, h'. split; [exact Hw|]. split; [right; exact Hh|reflexivity].
Qed.

(** The task planner paints its blocks blue or gray. *)
Lemma scheduleTasks_colors (clock : nat -> QDateTime) (fuel : nat)
      (windows : list Slot) (tasks : list Task) (n : nat)
      (out : list Event) (n' : nat) :
  scheduleTasksIntoWindows clock fuel windows tasks n = Some (out, n') ->
  Forall (fun b => getColor b = kTaskBlue \/ getColor b = kBufferGray) out.
Proof.
  unfold scheduleTasksIntoWindows.
  destruct (isEmpty tasks || isEmpty windows).
  { intros H; injection H as <- _. constructor. }
  intros H.
  destruct (placeTasks_preserves clock
              (fun _ acc =>
                 Forall (fun b => getColor b = kTaskBlue \/
                                  getColor b = kBufferGray) acc)
              (sortBy taskLess tasks))
    with (3 := H) as (_ & Hout); [| |exact Hout].
  - intros t pool acc need i _ Hacc _ _.
    apply Forall_app. split; [exact Hacc|].
    unfold placed.
    apply Forall_cons; [left; reflexivity|].
    apply Forall_cons; [right; reflexivity|].
    apply Forall_cons; [right; reflexivity|apply Forall_nil].
  - constructor.
Qed.

(** X15: in the list [planDay] returns, every habit block (a green block)
    starts at the start of a window that is free once the tasks are
    planned: its start lies between 06:00 and 22:00 of the day, inside no
    existing event and inside no task chunk or buffer of the same list.
    Its end is the start plus the target minutes of a habit of the
    effective pool, whatever the window's length. *)
Theorem planDay_habit_starts_free (clock : nat -> QDateTime) (self : SuperAI)
        (fuel : nat) (day : QDate) (existing : list Event)
        (tasks : list Task) (habits : list Habit) (n : nat)
        (out : list Event) (n' : nat) :
  planDay clock self fuel day existing tasks habits n = Some (out, n') ->
  forall b, In b out -> getColor b = kHabitGreen ->
    dayStart day <= getStartTime b < dayEnd day /\
    (forall ev, In ev existing -> ~ inEvent (getStartTime b) ev) /\
    (forall c, In c out -> getColor c <> kHabitGreen ->
               ~ inEvent (getStartTime b) c) /\
    exists h, In h (if isEmpty habits then m_habits self else habits) /\
              getEndTime b = getStartTime b + targetMinPerDay h * 60000.
Proof.
  unfold planDay.
  destruct (scheduleTasksIntoWindows clock fuel (freeWindows day existing 15)
              (if isEmpty tasks then m_tasks self else tasks) n)
    as [[plannedTasks k]|] eqn:E; [|discriminate].
  intros H; injection H as <- _. intros b Hb Hgreen.
  pose proof (scheduleTasks_colors _ _ _ _ _ _ _ E) as Hcol.
  rewrite Forall_forall in Hcol.
  apply in_app_or in Hb. destruct Hb as [Hb|Hb].
  { exfalso. destruct (Hcol b Hb) as [Hc|Hc]; rewrite Hc in Hgreen;
      discriminate. }
  destruct (scheduleHabits_blocks _ _ _ Hb) as (w & h & Hw & Hh & ->).
  cbn [habitBlock mkEvent getStartTime getEndTime].
  pose proof (chain_Forall _ _ _
                (freeWindows_chain day (existing ++ plannedTasks) 15)) as Hf.
  rewrite Forall_map, Forall_forall in Hf.
  pose proof (Hf w Hw) as (H1 & H2 & H3); simpl in H1, H2, H3.
  assert (inSlot (start w) w) as Hin by (unfold inSlot; lia).
  pose proof (window_instant_free day (existing ++ plannedTasks) 15 w
                (start w) Hw Hin) as Hfree.
  split; [lia|]. split; [|split].
  - intros ev Hev Hx. apply Hfree. apply Exists_exists.
    exists ev. split; [apply in_or_app; left; exact Hev|exact Hx].
  - intros c Hc Hnot Hx. apply Hfree. apply Exists_exists.
    exists c. split; [|exact Hx].
    apply in_app_or in Hc. destruct Hc as [Hc|Hc].
    + apply in_or_app; right; exact Hc.
    + exfalso. apply Hnot.
      destruct (scheduleHabits_blocks _ _ _ Hc) as (w' & h' & _ & _ & ->).
      reflexivity.
  - exists h. split; [exact Hh|reflexivity].
Qed.

Lemma planDay_habit_starts_free_witness :
  exists out n',
    planDay midnight noPools 10 0 [busyEvent 9 0 10 0]
            [mkTask "A" 240 120 true] [Build_Habit "walk" 20 "morning" 3] 0
    = Some (out, n') /\
    forall b, In b out -> getColor b = kHabitGreen ->
      dayStart 0 <= getStartTime b < dayEnd 0 /\
      (forall ev, In ev [busyEvent 9 0 10 0] ->
                  ~ inEvent (getStartTime b) ev) /\
      (forall c, In c out -> getColor c <> kHabitGreen ->
                 ~ inEvent (getStartTime b) c) /\
      exists h, In h [Build_Habit "walk" 20 "morning" 3] /\
                getEndTime b = getStartTime b + targetMinPerDay h * 60000.
Proof.
  do 2 eexists. split; [vm_compute; reflexivity|].
  eapply (planDay_habit_starts_free midnight noPools 10 0 [busyEvent 9 0 10 0]
            [mkTask "A" 240 120 true] [Build_Habit "walk" 20 "morning" 3] 0).
  vm_compute; reflexivity.
Defined.

(* ====================================================================== *)
(** * Further properties: insights and the summary of a plan               *)
(* ====================================================================== *)

Lemma insightsLoop_spec (events : list Event) :
  forall deep buf long : Z,
    let r := insightsLoop events deep buf long in
    deep <= deepWorkBlocks r <= deep + Z.of_nat (List.length events) /\
    buf <= bufferMin r <= buf + totalMinutes events /\
    long <= longest r /\
    (forall e, In e events ->
               minutesBetween (getStartTime e) (getEndTime e) <= longest r) /\
    (longest r = long \/
     exists e, In e events /\
               longest r = minutesBetween (getStartTime e) (getEndTime e)).
Proof.
  induction events as [|e rest IH]; intros d b g; cbv zeta.
  - simpl. split; [lia|]. split; [lia|]. split; [lia|].
    split; [intros e []|left; reflexivity].
  - cbn [insightsLoop]. cbv zeta.
    pose proof (minutesBetween_nonneg (getStartTime e) (getEndTime e)) as Hm.
    match goal with
    | |- context [insightsLoop rest ?a ?b ?c] =>
        specialize (IH a b c); cbv zeta in IH;
        set (r := insightsLoop rest a b c) in *
    end.
    clearbody r. destruct IH as (H1 & H2 & H3 & H4 & H5).
    change (List.length (e :: rest)) with (S (List.length rest)).
    cbn [totalMinutes].
    split; [destruct (String.prefix _ _); lia|].
    split; [destruct (_ =? _)%string; lia|].
    split; [lia|]. split.
    + intros e' [<-|He']; [lia|apply H4; exact He'].
    + destruct H5 as [H5|(e' & He' & H5)].
      * destruct (Z.max_spec g (minutesBetween (getStartTime e) (getEndTime e)))
          as [[_ Hx]|[_ Hx]].
        -- right. exists e. split; [left; reflexivity|lia].
        -- left. lia.
      * right. exists e'. split; [right; exact He'|exact H5].
Qed.

(** X16: the figures of [provideInsights].  The deep-work count is at most
    the number of events and the buffer minutes at most the total of the
    events' minutes; the longest block is the greatest of the events'
    minutes, 0 when there is no event. *)
Theorem provideInsights_figures (events : list Event) :
  let r := provideInsights events in
  0 <= deepWorkBlocks r <= Z.of_nat (List.length events) /\
  0 <= bufferMin r <= totalMinutes events /\
  (forall e, In e events ->
             minutesBetween (getStartTime e) (getEndTime e) <= longest r) /\
  match events with
  | [] => longest r = 0
  | _ :: _ =>
      exists e, In e events /\
                longest r = minutesBetween (getStartTime e) (getEndTime e)
  end.
Proof.
  cbv zeta. unfold provideInsights.
  pose proof (insightsLoop_spec events 0 0 0) as H. cbv zeta in H.
  destruct H as (H1 & H2 & H3 & H4 & H5).
  split; [lia|]. split; [lia|]. split; [exact H4|].
  destruct events as [|e0 rest]; [reflexivity|].
  destruct H5 as [H5|H5]; [|exact H5].
  exists e0. split; [left; reflexivity|].
  pose proof (H4 e0 (or_introl eq_refl)).
  pose proof (minutesBetween_nonneg (getStartTime e0) (getEndTime e0)). lia.
Qed.

Lemma insightsLoop_app (l1 l2 : list Event) :
  forall deep buf long : Z,
    insightsLoop (l1 ++ l2) deep buf long
    = insightsLoop l2 (deepWorkBlocks (insightsLoop l1 deep buf long))
                   (bufferMin (insightsLoop l1 deep buf long))
                   (longest (insightsLoop l1 deep buf long)).
Proof.
  induction l1 as [|e l1 IH]; intros d b g; [reflexivity|].
  cbn [app insightsLoop]. cbv zeta. apply IH.
Qed.

(** The counters after the three blocks of one iteration of [carve]. *)
Lemma insightsLoop_placed (t : Task) (needMin : Z) (chosen : MSlot)
      (deep buf long : Z) :
  deepWorkBlocks (insightsLoop (placed t needMin chosen) deep buf long)
  = deep + 1 /\
  bufferMin (insightsLoop (placed t needMin chosen) deep buf long)
  = buf + 15.
Proof.
  assert (2 ^ 31 = 2147483648) as E31 by reflexivity.
  unfold placed, bufferBefore, bufferAfter, chunkOf.
  cbn [insightsLoop mkEvent getTitle getStartTime getEndTime deepWorkBlocks
       bufferMin].
  set (s := seg_s chosen). set (e := addSecs s _).
  assert (minutesBetween (addSecs s (- 5 * 60)) s = 5) as ->.
  { replace s with (addSecs s (- 5 * 60) + 5 * 60000) at 2
      by (unfold addSecs; lia).
    apply minutesBetween_shift. lia. }
  assert (minutesBetween e (addSecs e (10 * 60)) = 10) as ->.
  { replace (addSecs e (10 * 60)) with (e + 10 * 60000)
      by (unfold addSecs; lia).
    apply minutesBetween_shift. lia. }
  cbv zeta. split; [reflexivity|].
  change (taskTitle t =? "Buffer")%string with false.
  cbn. lia.
Qed.

(** X17: [provideInsights] on a list planned by
    [scheduleTasksIntoWindows].  The blocks come in threes, one deep-work
    block and its two buffers, so the list has three times as many blocks
    as the insights count deep-work blocks, and the buffer minutes are 15
    for each deep-work block. *)
Theorem provideInsights_of_plan (clock : nat -> QDateTime) (fuel : nat)
        (windows : list Slot) (tasks : list Task) (n : nat)
        (out : list Event) (n' : nat) :
  scheduleTasksIntoWindows clock fuel windows tasks n = Some (out, n') ->
  Z.of_nat (List.length out) = 3 * deepWorkBlocks (provideInsights out) /\
  bufferMin (provideInsights out) = 15 * deepWorkBlocks (provideInsights out).
Proof.
  unfold scheduleTasksIntoWindows.
  destruct (isEmpty tasks || isEmpty windows).
  { intros H; injection H as <- _. split; reflexivity. }
  intros H.
  destruct (placeTasks_preserves clock
              (fun _ acc =>
                 Z.of_nat (List.length acc)
                 = 3 * deepWorkBlocks (provideInsights acc) /\
                 bufferMin (provideInsights acc)
                 = 15 * deepWorkBlocks (provideInsights acc))
              (sortBy taskLess tasks))
    with (3 := H) as (_ & Hout); [| |exact Hout].
  - intros t pool acc need i _ [H1 H2] _ _.
    unfold provideInsights in *. rewrite insightsLoop_app.
    destruct (insightsLoop_placed t need (nth i pool (Build_Seg 0 0))
                (deepWorkBlocks (insightsLoop acc 0 0 0))
                (bufferMin (insightsLoop acc 0 0 0))
                (longest (insightsLoop acc 0 0 0))) as [-> ->].
    rewrite length_app.
    change (List.length (placed t need (nth i pool (Build_Seg 0 0))))
      with 3%nat.
    lia.
  - split; reflexivity.
Qed.

Lemma provideInsights_of_plan_witness :
  exists out,
    Z.of_nat (List.length out) = 3 * deepWorkBlocks (provideInsights out) /\
    bufferMin (provideInsights out) = 15 * deepWorkBlocks (provideInsights out).
Proof.
  eexists.
  eapply (provideInsights_of_plan midnight 10 [wholeDay]
            [mkTask "A" 240 120 true] 0 _ 2).
  vm_compute. reflexivity.
Defined.

(** A task that may not be split leaves [carve] after one turn, with at
    most one chunk and its buffers added. *)
Lemma carve_no_split (clock : nat -> QDateTime) (t : Task) (fuel : nat)
      (needMin : Z) (pool : list MSlot) (acc : list Event) (n : nat) :
  splitOK t = false ->
  exists r,
    carve clock (S fuel) needMin t pool acc n = Some r /\
    (List.length (cr_acc r) <= List.length acc + 3)%nat.
Proof.
  intros Hs. rewrite carve_S.
  destruct (needMin >? 0); [|eexists; split; [reflexivity|simpl; lia]].
  destruct (chooseSlot clock t pool 0 None unusable n) as [[i|] n1];
    [|eexists; split; [reflexivity|simpl; lia]].
  cbv zeta. rewrite Hs. cbn [negb].
  eexists; split; [reflexivity|].
  cbn [cr_acc]. rewrite length_app. simpl. lia.
Qed.

Lemma placeTasks_no_split (clock : nat -> QDateTime) (tasks : list Task) :
  Forall (fun t => splitOK t = false) tasks ->
  forall fuel pool out n,
    exists out' n',
      placeTasks clock (S fuel) tasks pool out n = Some (out', n') /\
      (List.length out' <= List.length out + 3 * List.length tasks)%nat.
Proof.
  induction 1 as [|t rest Ht _ IH]; intros fuel pool out n.
  - exists out, n. split; [reflexivity|simpl; lia].
  - cbn [placeTasks]. cbv zeta.
    destruct (carve_no_split clock t fuel (Z.max 15 (estimateMin t)) pool out n
                Ht) as (r & -> & Hlen).
    destruct (IH fuel (cr_pool r) (cr_acc r) (cr_clock r))
      as (out' & n' & -> & Hlen').
    exists out', n'. split; [reflexivity|].
    change (List.length (t :: rest)) with (S (List.length rest)). lia.
Qed.

(** X18: tasks that may not be split.  When no task of the list has
    [splitOK], [scheduleTasksIntoWindows] needs no second turn of the
    carving loop for any task: it returns, whatever the windows, the chunk
    caps and the clock, and its output has at most three blocks (one chunk
    and two buffers) for each task. *)
Theorem scheduleTasks_no_split (clock : nat -> QDateTime) (fuel : nat)
        (windows : list Slot) (tasks : list Task) (n : nat) :
  Forall (fun t => splitOK t = false) tasks ->
  exists out n',
    scheduleTasksIntoWindows clock (S fuel) windows tasks n = Some (out, n') /\
    (List.length out <= 3 * List.length tasks)%nat.
Proof.
  intros Hs. unfold scheduleTasksIntoWindows.
  destruct (isEmpty tasks || isEmpty windows).
  - exists [], n. split; [reflexivity|simpl; lia].
  - assert (Forall (fun t => splitOK t = false) (sortBy taskLess tasks))
      as Hs'
      by (eapply Permutation_Forall; [symmetry; apply sortBy_perm|exact Hs]).
    destruct (placeTasks_no_split clock _ Hs' fuel (map slotSeg windows) [] n)
      as (out & n' & E & Hlen).
    exists out, n'. split; [exact E|].
    rewrite (Permutation_length (sortBy_perm taskLess tasks)) in Hlen.
    simpl in Hlen. lia.
Qed.

Lemma scheduleTasks_no_split_witness :
  exists out n',
    scheduleTasksIntoWindows midnight 1 [wholeDay]
                             [mkTask "A" 240 120 false] 0 = Some (out, n') /\
    (List.length out <= 3 * 1)%nat.
Proof.
  refine (scheduleTasks_no_split midnight 0 [wholeDay]
            [mkTask "A" 240 120 false] 0 _).
  repeat constructor.
Defined.

Lemma countedMin_app (l1 l2 : list Event) :
  countedMin (l1 ++ l2) = countedMin l1 + countedMin l2.
Proof. induction l1 as [|e l1 IH]; simpl; [reflexivity|]. rewrite IH. lia. Qed.

Lemma countedMin_nonneg (l : list Event) : 0 <= countedMin l.
Proof.
  induction l as [|e l IH]; simpl; [lia|].
  pose proof (minutesBetween_nonneg (getStartTime e) (getEndTime e)).
  destruct (negb _); lia.
Qed.

Lemma totalTaskMin_countedMin (l : list Event) :
  totalTaskMin l = countedMin l.
Proof.
  unfold totalTaskMin.
  assert (forall a,
             fold_left
               (fun total e =>
                  if negb (containsStr "Buffer" (getTitle e))
                  then total + minutesBetween (getStartTime e) (getEndTime e)
                  else total) l a = a + countedMin l) as H.
  { induction l as [|e l IH]; intros a; simpl; [lia|].
    rewrite IH. destruct (negb _); lia. }
  rewrite H. lia.
Qed.

(** A chunk of [k] minutes counts [k] minutes when [k] is not negative and
    none otherwise. *)
Lemma minutesBetween_chunk (s k : Z) :
  - 2 ^ 31 <= k < 2 ^ 31 ->
  minutesBetween s (addSecs s (k * 60)) = Z.max 0 k.
Proof.
  intros Hk. unfold minutesBetween, secsTo, addSecs.
  replace (s + k * 60 * 1000 - s) with (k * 60 * 1000) by lia.
  rewrite Z.quot_mul by lia. rewrite Z.quot_mul by lia.
  rewrite to_int_small by exact Hk. reflexivity.
Qed.

(** What the three blocks of one iteration add to the task minutes. *)
Lemma countedMin_placed (t : Task) (needMin : Z) (chosen : MSlot) :
  - 2 ^ 31 <= maxChunkMin t -> 0 < needMin ->
  15 <= minutesBetween (seg_s chosen) (seg_e chosen) ->
  0 <= countedMin (placed t needMin chosen)
  <= Z.max 0 (chunkLen t needMin chosen).
Proof.
  intros Hmax Hneed Hav.
  pose proof (minutesBetween_lt_int (seg_s chosen) (seg_e chosen)) as Hlt.
  unfold placed, bufferBefore, bufferAfter, chunkOf.
  cbn [countedMin mkEvent getTitle getStartTime getEndTime].
  change (containsStr "Buffer" "Buffer") with true. cbn [negb].
  rewrite minutesBetween_chunk by (unfold chunkLen; lia).
  destruct (negb _); lia.
Qed.

Lemma carve_counted (clock : nat -> QDateTime) (t : Task) :
  - 2 ^ 31 <= maxChunkMin t ->
  forall fuel needMin pool acc n r,
    carve clock fuel needMin t pool acc n = Some r ->
    countedMin acc <= countedMin (cr_acc r)
    <= countedMin acc + (if maxChunkMin t <? 0 then 0 else Z.max 0 needMin).
Proof.
  intros Hmax; induction fuel as [|fuel IH]; intros needMin pool acc n r H.
  - rewrite carve_O in H. destruct (needMin >? 0); [discriminate|].
    injection H as <-. cbn [cr_acc]. destruct (_ <? _); lia.
  - rewrite carve_S in H.
    destruct (Z.gtb_spec needMin 0) as [Hpos|Hneg];
      [|injection H as <-; cbn [cr_acc]; destruct (_ <? _); lia].
    destruct (chooseSlot clock t pool 0 None unusable n) as [[i|] n1] eqn:E;
      [|injection H as <-; cbn [cr_acc]; destruct (_ <? _); lia].
    apply chooseSlot_usable in E. apply usable_nth in E.
    destruct E as (_ & _ & Hav).
    set (chosen := nth i pool (Build_Seg 0 0)) in *.
    pose proof (countedMin_placed t needMin chosen Hmax ltac:(lia) Hav)
      as Hc.
    assert (chunkLen t needMin chosen <= needMin /\
            chunkLen t needMin chosen <= maxChunkMin t /\
            (0 <= maxChunkMin t -> 0 <= chunkLen t needMin chosen))
      as (Hc1 & Hc2 & Hc3) by (unfold chunkLen; lia).
    cbv zeta in H. destruct (negb (splitOK t)).
    + injection H as <-. cbn [cr_acc]. rewrite countedMin_app.
      destruct (Z.ltb_spec (maxChunkMin t) 0); lia.
    + apply IH in H. rewrite countedMin_app in H.
      destruct (Z.ltb_spec (maxChunkMin t) 0); lia.
Qed.

Lemma placeTasks_counted (clock : nat -> QDateTime) (tasks : list Task) :
  Forall (fun t => - 2 ^ 31 <= maxChunkMin t) tasks ->
  forall fuel pool out n out' n',
    placeTasks clock fuel tasks pool out n = Some (out', n') ->
    countedMin out <= countedMin out' <= countedMin out + totalEffort tasks.
Proof.
  induction 1 as [|t rest Ht _ IH]; intros fuel pool out n out' n' H.
  - injection H as <- _. simpl. lia.
  - cbn [placeTasks] in H. cbv zeta in H.
    destruct (carve clock fuel (Z.max 15 (estimateMin t)) t pool out n)
      as [r|] eqn:E; [|discriminate].
    apply (carve_counted clock t Ht) in E. apply IH in H.
    cbn [totalEffort]. destruct (maxChunkMin t <? 0); lia.
Qed.

Lemma totalEffort_perm (l1 l2 : list Task) :
  Permutation l1 l2 -> totalEffort l1 = totalEffort l2.
Proof. induction 1; simpl; lia. Qed.

Lemma scheduleHabits_length (windows : list Slot) (habits : list Habit) :
  (List.length (scheduleHabits windows habits) <= List.length habits)%nat.
Proof.
  induction habits as [|h rest IH]; simpl; [lia|].
  destruct (chooseWindow h windows 0 None sentinel); simpl; lia.
Qed.

(** X19: the summary line of [planDay].  The task minutes it reports are
    never negative and never more than the clamped effort of the effective
    task pool (each task counting max(15, estimate) minutes), and the habit
    blocks it reports are at most the habits of the effective pool.  (The
    chunk caps are C++ ints.) *)
Theorem planDaySummary_bounds (clock : nat -> QDateTime) (self : SuperAI)
        (fuel : nat) (day : QDate) (existing : list Event)
        (tasks : list Task) (habits : list Habit) (n : nat)
        (taskMin habitBlocks : Z) :
  Forall (fun t => - 2 ^ 31 <= maxChunkMin t)
         (if isEmpty tasks then m_tasks self else tasks) ->
  planDaySummary clock self fuel day existing tasks habits n
  = Some (taskMin, habitBlocks) ->
  0 <= taskMin <= totalEffort (if isEmpty tasks then m_tasks self else tasks) /\
  0 <= habitBlocks
  <= Z.of_nat (List.length (if isEmpty habits then m_habits self else habits)).
Proof.
  intros Hmax. unfold planDaySummary.
  set (pool := if isEmpty tasks then m_tasks self else tasks) in *.
  destruct (scheduleTasksIntoWindows clock fuel (freeWindows day existing 15)
              pool n) as [[plannedTasks k]|] eqn:E; [|discriminate].
  intros H; injection H as <- <-.
  rewrite totalTaskMin_countedMin.
  split.
  - split; [apply countedMin_nonneg|].
    unfold scheduleTasksIntoWindows in E.
    destruct (isEmpty pool || isEmpty (freeWindows day existing 15)).
    + injection E as <- _. simpl.
      clear. induction pool as [|t l IH]; simpl; lia.
    + assert (Forall (fun t => - 2 ^ 31 <= maxChunkMin t)
                     (sortBy taskLess pool)) as Hmax'
        by (eapply Permutation_Forall;
            [symmetry; apply sortBy_perm|exact Hmax]).
      apply (placeTasks_counted clock _ Hmax') in E.
      rewrite (totalEffort_perm _ _ (sortBy_perm taskLess pool)) in E.
      simpl in E. lia.
  - pose proof (scheduleHabits_length
                  (freeWindows day (existing ++ plannedTasks) 15)
                  (if isEmpty habits then m_habits self else habits)).
    lia.
Qed.

Lemma planDaySummary_bounds_witness :
  0 <= 240 <= totalEffort [mkTask "A" 240 120 true] /\
  0 <= 1 <= Z.of_nat (List.length [Build_Habit "walk" 20 "morning" 3]).
Proof.
  refine (planDaySummary_bounds midnight noPools 10 0 [busyEvent 9 0 10 0]
            [mkTask "A" 240 120 true] [Build_Habit "walk" 20 "morning" 3] 0
            240 1 _ _).
  - repeat constructor. simpl. lia.
  - vm_compute. reflexivity.
Defined.

(* ====================================================================== *)
(** * Further properties: habits of one kind, and how much is placed       *)
(* ====================================================================== *)

Lemma chooseWindow_ext (h1 h2 : Habit) (windows : list Slot) :
  (forall w, habitScore w h1 = habitScore w h2) ->
  forall (i : nat) (bestIdx : option nat) (best : double),
    chooseWindow h1 windows i bestIdx best
    = chooseWindow h2 windows i bestIdx best.
Proof.
  intros Hs; induction windows as [|w ws IH]; intros i bi best;
    [reflexivity|].
  simpl. rewrite (Hs w). destruct (_ <? _)%float; apply IH.
Qed.

Lemma habitScore_ext (w : Slot) (h1 h2 : Habit) :
  anchor h1 = anchor h2 -> h_priority h1 = h_priority h2 ->
  habitScore w h1 = habitScore w h2.
Proof. intros Ha Hp. unfold habitScore. rewrite Ha, Hp. reflexivity. Qed.

(** X20: [scheduleHabits] scans the same windows for every habit and takes
    none of them away, so habits with the same anchor and the same priority
    are all placed at the same instant: their blocks start together,
    whatever their titles and target minutes. *)
Theorem scheduleHabits_same_anchor (windows : list Slot) (habits : list Habit)
        (a : string) (p : Z) :
  Forall (fun h => anchor h = a /\ h_priority h = p) habits ->
  exists s, Forall (fun b => getStartTime b = s)
                   (scheduleHabits windows habits).
Proof.
  intros Hall.
  set (h0 := Build_Habit EmptyString 0 a p).
  exists (match chooseWindow h0 windows 0 None sentinel with
          | Some k => start (nth k windows (Build_Slot 0 0))
          | None => 0
          end).
  induction Hall as [|h rest [Ha Hp] _ IH]; [constructor|].
  cbn [scheduleHabits].
  rewrite (chooseWindow_ext h h0 windows
             (fun w => habitScore_ext w h h0 Ha Hp)).
  destruct (chooseWindow h0 windows 0 None sentinel) as [k|]; [|exact IH].
  constructor; [reflexivity|exact IH].
Qed.

Lemma scheduleHabits_same_anchor_witness :
  exists s, Forall (fun b => getStartTime b = s)
                   (scheduleHabits [wholeDay]
                      [Build_Habit "walk" 20 "morning" 3;
                       Build_Habit "read" 30 "morning" 3]).
Proof.
  apply (scheduleHabits_same_anchor [wholeDay]
           [Build_Habit "walk" 20 "morning" 3;
            Build_Habit "read" 30 "morning" 3] "morning" 3).
  repeat constructor.
Defined.

Lemma chunkMinutes_app (l1 l2 : list Event) :
  chunkMinutes (l1 ++ l2) = chunkMinutes l1 + chunkMinutes l2.
Proof. induction l1 as [|e l1 IH]; simpl; [reflexivity|]. rewrite IH. lia. Qed.

Lemma chunkMinutes_placed (t : Task) (needMin : Z) (chosen : MSlot) :
  0 <= maxChunkMin t -> 0 < needMin ->
  15 <= minutesBetween (seg_s chosen) (seg_e chosen) ->
  chunkMinutes (placed t needMin chosen) = chunkLen t needMin chosen /\
  0 <= chunkLen t needMin chosen <= needMin.
Proof.
  intros Hmax Hneed Hav.
  pose proof (minutesBetween_lt_int (seg_s chosen) (seg_e chosen)) as Hlt.
  assert (2 ^ 31 = 2147483648) as E31 by reflexivity.
  assert (0 <= chunkLen t needMin chosen <= needMin /\
          chunkLen t needMin chosen < 2 ^ 31) as [Hc Hc']
    by (unfold chunkLen; lia).
  split; [|exact Hc].
  unfold placed, bufferBefore, bufferAfter, chunkOf.
  cbn [chunkMinutes mkEvent getColor getStartTime getEndTime].
  change (kTaskBlue =? kTaskBlue)%string with true.
  change (kBufferGray =? kTaskBlue)%string with false.
  cbv iota. rewrite minutesBetween_chunk by lia. lia.
Qed.

(** X21: how much [carve] places.  For a task whose chunk cap is not
    negative, the chunks one call of the carving loop adds have at most
    the minutes it was asked for, and it reports the task as placed
    exactly when they have all of them: a task is never given more time
    than max(15, estimate), and never reported placed with less. *)
Theorem carve_places_exactly (clock : nat -> QDateTime) (t : Task)
        (fuel : nat) (needMin : Z) (pool : list MSlot) (acc : list Event)
        (n : nat) (r : CarveResult) :
  0 <= maxChunkMin t -> 0 <= needMin ->
  carve clock fuel needMin t pool acc n = Some r ->
  chunkMinutes acc <= chunkMinutes (cr_acc r) <= chunkMinutes acc + needMin /\
  (placedAll r = true <->
   chunkMinutes (cr_acc r) = chunkMinutes acc + needMin).
Proof.
  intros Hmax. revert needMin pool acc n r.
  induction fuel as [|fuel IH]; intros needMin pool acc n r Hneed H.
  - rewrite carve_O in H. destruct (Z.gtb_spec needMin 0); [discriminate|].
    injection H as <-. cbn [cr_acc placedAll].
    destruct (Z.leb_spec needMin 0); [|lia].
    split; [lia|]. split; [lia|reflexivity].
  - rewrite carve_S in H.
    destruct (Z.gtb_spec needMin 0) as [Hpos|Hneg].
    2:{ injection H as <-. cbn [cr_acc placedAll].
        destruct (Z.leb_spec needMin 0); [|lia].
        split; [lia|]. split; [lia|reflexivity]. }
    destruct (chooseSlot clock t pool 0 None unusable n) as [[i|] n1] eqn:E.
    2:{ injection H as <-. cbn [cr_acc placedAll].
        destruct (Z.leb_spec needMin 0); [lia|].
        split; [lia|]. split; [discriminate|lia]. }
    apply chooseSlot_usable in E. apply usable_nth in E.
    destruct E as (_ & _ & Hav).
    set (chosen := nth i pool (Build_Seg 0 0)) in *.
    destruct (chunkMinutes_placed t needMin chosen Hmax Hpos Hav)
      as [Hpl Hc].
    cbv zeta in H. destruct (negb (splitOK t)).
    + injection H as <-. cbn [cr_acc placedAll].
      rewrite chunkMinutes_app, Hpl.
      split; [lia|].
      destruct (Z.leb_spec (needMin - chunkLen t needMin chosen) 0);
        split; intros; try reflexivity; try discriminate; lia.
    + apply IH in H; [|lia].
      rewrite chunkMinutes_app, Hpl in H.
      destruct H as [H1 H2]. split; [lia|].
      rewrite H2. lia.
Qed.

Lemma carve_places_exactly_witness :
  exists r,
    carve midnight 10 240 (mkTask "A" 240 120 true) [slotSeg wholeDay] [] 0
    = Some r /\
    (placedAll r = true <-> chunkMinutes (cr_acc r) = chunkMinutes [] + 240).
Proof.
  eexists. split; [vm_compute; reflexivity|].
  refine (proj2 (carve_places_exactly midnight (mkTask "A" 240 120 true) 10
                   240 [slotSeg wholeDay] [] 0 _ _ _ _)).
  - simpl. lia.
  - lia.
  - vm_compute. reflexivity.
Defined.
